(** * DS_SQL.ipynb: the SQL notebook over a model of its database engine

    The notebook [WQU/datacourse_data-wrangling/DS_SQL.ipynb] sends SQL
    statements to SQLite through the [%sql] magic and loads three CSV files
    with pandas.  Its statements and its Python cell are embedded below,
    cell by cell.  The engine and the data library are not part of the
    repository; they are modelled as far as the notebook uses them:

    - a database is a finite map from table names to tables, a table is a
      schema and its rows in scan order; names are written in lower case,
      as the notebook writes them;
    - REAL numbers are exact rationals: the rounding of IEEE doubles is not
      modelled;
    - conversions between text and numbers (column affinity) are left out:
      a number never equals a text, and a NULL or a text given for an
      INTEGER PRIMARY KEY is not turned into a row id;
    - where SQL leaves an order open (rows without ORDER BY, ties, the row
      a bare column of a group is read from) the model takes scan order;
    - whether FOREIGN KEY clauses are enforced is a setting of the engine
      ([PRAGMA foreign_keys]).  The notebook never issues the pragma, so
      the setting is the one the engine was built with, off in stock
      SQLite; it is a field of the modelled world and the results below say
      which setting they need;
    - the three CSV files are not in the repository: their contents are
      the frames of the modelled world;
    - [sql] and [notebook] are the cells and the run as long as no
      statement fails, an error ending them; [sql_cell] and [run_all] are
      the cells and the run with the [%%sql] magic as it treats errors:
      it prints the errors it catches and goes on. *)

From Stdlib Require Import ZArith QArith String Ascii List.
From stdpp Require Import base option list gmap strings pretty.

Open Scope string_scope.
Open Scope list_scope.

(** ** Values, schemas and tables *)

Inductive value :=
| VNull
| VInt (n : Z)
| VReal (q : Q)
| VText (s : string).

Inductive sqltype := TInteger | TNumber | TReal | TText.

Record column := Column {
  col_name : string;
  col_type : sqltype;
  col_not_null : bool;
  col_primary_key : bool }.

Record foreign_key := ForeignKey {
  fk_column : string;
  fk_table : string;
  fk_parent_column : string }.

Record schema := Schema {
  sch_columns : list column;
  sch_foreign_keys : list foreign_key }.

Abbreviation row := (list value).

Record table := Table {
  tbl_schema : schema;
  tbl_rows : list row }.

Abbreviation database := (gmap string table).

Inductive error :=
| NoSuchTable (t : string)
| TableAlreadyExists (t : string)
| NoSuchColumn (c : string)
| AmbiguousColumn (c : string)
| DuplicateColumn (c : string)
| SyntaxError
| ValueCountMismatch
| MisuseOfAggregate
| IntegerOverflow
| NotNullFailed (t c : string)
| UniqueFailed (t c : string)
| ForeignKeyFailed
| ForeignKeyMismatch (t : string)
| FileNotFound (path : string)
| BadUrl (url : string)
| NoConnection.

Inductive result (A : Type) :=
| Ok (a : A)
| Err (e : error).
Arguments Ok {A} a.
Arguments Err {A} e.

Definition rbind {A B} (r : result A) (k : A -> result B) : result B :=
  match r with
  | Ok a => k a
  | Err e => Err e
  end.

Definition outcome {A} (r : result A) : option A :=
  match r with
  | Ok a => Some a
  | Err _ => None
  end.

(** Run [f] over a list, stopping at the first error. *)
Fixpoint rmapM {A B} (f : A -> result B) (l : list A) : result (list B) :=
  match l with
  | [] => Ok []
  | a :: l' => rbind (f a) (fun b => rbind (rmapM f l') (fun bs => Ok (b :: bs)))
  end.

(** ** Identifiers and value comparison *)

Definition lower_ascii (c : ascii) : ascii :=
  let n := nat_of_ascii c in
  if (65 <=? n)%nat && (n <=? 90)%nat then ascii_of_nat (n + 32) else c.

Fixpoint lower (s : string) : string :=
  match s with
  | EmptyString => EmptyString
  | String c s' => String (lower_ascii c) (lower s')
  end.

(** SQL identifiers compare without regard to ASCII case. *)
Definition ident_eqb (a b : string) : bool := String.eqb (lower a) (lower b).

(** The engine's order on values: NULL, then numbers by value, then text
    byte by byte. *)
Definition value_compare (a b : value) : comparison :=
  match a, b with
  | VNull, VNull => Eq
  | VNull, _ => Lt
  | _, VNull => Gt
  | VText s, VText t => String.compare s t
  | VText _, _ => Gt
  | _, VText _ => Lt
  | VInt m, VInt n => Z.compare m n
  | VInt m, VReal q => Qcompare (inject_Z m) q
  | VReal p, VInt n => Qcompare p (inject_Z n)
  | VReal p, VReal q => Qcompare p q
  end.

Definition is_null (v : value) : bool :=
  match v with VNull => true | _ => false end.

(** [a = b] in SQL: unknown when either side is NULL. *)
Definition sql_eq (a b : value) : option bool :=
  if is_null a || is_null b then None
  else Some (match value_compare a b with Eq => true | _ => false end).

Definition sql_lt (a b : value) : option bool :=
  if is_null a || is_null b then None
  else Some (match value_compare a b with Lt => true | _ => false end).

(** Equality that holds for sure: used for keys and references. *)
Definition same_value (a b : value) : bool :=
  match sql_eq a b with Some true => true | _ => false end.

(** ** Tables: column lookup *)

Definition column_names (s : schema) : list string := map col_name (sch_columns s).

Fixpoint index_of (c : string) (names : list string) : option nat :=
  match names with
  | [] => None
  | n :: names' => if ident_eqb c n then Some 0%nat else option_map S (index_of c names')
  end.

Definition field (s : schema) (c : string) (r : row) : option value :=
  match index_of c (column_names s) with
  | Some i => Some (nth i r VNull)
  | None => None
  end.

(** Does table [t] hold a row whose column [c] equals [v]? *)
Definition has_key (t : table) (c : string) (v : value) : bool :=
  existsb (fun r => match field (tbl_schema t) c r with
                    | Some u => same_value u v
                    | None => false
                    end) (tbl_rows t).

(** ** Data definition and insertion *)

Definition is_key_column (p : table) (c : string) : bool :=
  existsb (fun k => ident_eqb (col_name k) c && col_primary_key k)
          (sch_columns (tbl_schema p)).

(** Some row of [child] references, through a foreign key declared on
    the key of table [t], a row that [parent] holds.  A foreign key on a
    column that is not the parent's key counts for nothing here. *)
Definition references_into (t : string) (parent child : table) : bool :=
  existsb (fun f =>
    String.eqb (fk_table f) t &&
    is_key_column parent (fk_parent_column f) &&
    existsb (fun r => match field (tbl_schema child) (fk_column f) r with
                      | Some v => has_key parent (fk_parent_column f) v
                      | None => false
                      end) (tbl_rows child))
    (sch_foreign_keys (tbl_schema child)).

(** With foreign keys enforced, DROP TABLE deletes the rows first, which
    fails when another table still references one of them. *)
Definition drop_blocked (db : database) (t : string) (parent : table) : bool :=
  existsb (fun '(n, child) => negb (String.eqb n t) && references_into t parent child)
          (map_to_list db).

Definition drop_table (fk if_exists : bool) (t : string) (db : database) : result database :=
  match db !! t with
  | None => if if_exists then Ok db else Err (NoSuchTable t)
  | Some tb => if fk && drop_blocked db t tb then Err ForeignKeyFailed
               else Ok (delete t db)
  end.

Fixpoint first_duplicate (names : list string) : option string :=
  match names with
  | [] => None
  | n :: names' => if existsb (ident_eqb n) names' then Some n else first_duplicate names'
  end.

Definition create_table (t : string) (s : schema) (db : database) : result database :=
  match db !! t with
  | Some _ => Err (TableAlreadyExists t)
  | None =>
      match sch_columns s, first_duplicate (column_names s) with
      | [], _ => Err SyntaxError
      | _, Some c => Err (DuplicateColumn c)
      | _, None => Ok (<[t := Table s []]> db)
      end
  end.

(** The stored row: every column of the schema, NULL where the statement
    names no value for it. *)
Definition full_row (s : schema) (cols : list string) (vals : row) : row :=
  map (fun c => match index_of (col_name c) cols with
                | Some i => nth i vals VNull
                | None => VNull
                end) (sch_columns s).

Fixpoint check_columns (s : schema) (cols : list string) : result unit :=
  match cols with
  | [] => Ok tt
  | c :: cols' => match index_of c (column_names s) with
                  | Some _ => check_columns s cols'
                  | None => Err (NoSuchColumn c)
                  end
  end.

Fixpoint check_each {A} (f : A -> result unit) (l : list A) : result unit :=
  match l with
  | [] => Ok tt
  | a :: l' => rbind (f a) (fun _ => check_each f l')
  end.

Definition check_not_null (t : string) (s : schema) (r : row) : result unit :=
  check_each (fun c =>
    match field s (col_name c) r with
    | Some VNull => if col_not_null c then Err (NotNullFailed t (col_name c)) else Ok tt
    | _ => Ok tt
    end) (sch_columns s).

Definition check_unique (t : string) (s : schema) (rows : list row) (r : row) : result unit :=
  check_each (fun c =>
    if col_primary_key c then
      match field s (col_name c) r with
      | Some v => if has_key (Table s rows) (col_name c) v
                  then Err (UniqueFailed t (col_name c)) else Ok tt
      | None => Ok tt
      end
    else Ok tt) (sch_columns s).

Definition check_foreign_keys (parents : string -> option table) (s : schema) (r : row)
  : result unit :=
  check_each (fun f =>
    match field s (fk_column f) r with
    | None | Some VNull => Ok tt
    | Some v =>
        match parents (fk_table f) with
        | None => Err (NoSuchTable (fk_table f))
        | Some p =>
            if negb (is_key_column p (fk_parent_column f))
            then Err (ForeignKeyMismatch (fk_table f))
            else if has_key p (fk_parent_column f) v then Ok tt
            else Err ForeignKeyFailed
        end
    end) (sch_foreign_keys s).

Definition check_row (fk : bool) (parents : string -> option table) (t : string)
    (s : schema) (rows : list row) (r : row) : result unit :=
  rbind (check_not_null t s r) (fun _ =>
  rbind (check_unique t s rows r) (fun _ =>
  if fk then check_foreign_keys parents s r else Ok tt)).

(** An INTEGER PRIMARY KEY column names the row id, and the table is
    scanned in row-id order; other tables are scanned in insertion order. *)
Definition rowid_column (s : schema) : option string :=
  option_map col_name
    (find (fun c => col_primary_key c &&
                    match col_type c with TInteger => true | _ => false end)
          (sch_columns s)).

Fixpoint place (key : row -> value) (r : row) (rows : list row) : list row :=
  match rows with
  | [] => [r]
  | r' :: rest =>
      match value_compare (key r) (key r') with
      | Lt => r :: rows
      | _ => r' :: place key r rest
      end
  end.

Definition store_row (s : schema) (rows : list row) (r : row) : list row :=
  match rowid_column s with
  | Some c => place (fun x => default VNull (field s c x)) r rows
  | None => rows ++ [r]
  end.

Fixpoint insert_rows (fk : bool) (parents : string -> option table) (t : string)
    (s : schema) (cols : list string) (rows : list row) (new : list row)
  : result (list row) :=
  match new with
  | [] => Ok rows
  | vals :: new' =>
      if negb (length vals =? length cols)%nat then Err ValueCountMismatch
      else
        let r := full_row s cols vals in
        rbind (check_row fk parents t s rows r) (fun _ =>
        insert_rows fk parents t s cols (store_row s rows r) new')
  end.

(** INSERT is all or nothing: a failing row leaves the database as it was. *)
Definition insert_into (fk : bool) (t : string) (cols : list string) (new : list row)
    (db : database) : result database :=
  match db !! t with
  | None => Err (NoSuchTable t)
  | Some tb =>
      let s := tbl_schema tb in
      rbind (check_columns s cols) (fun _ =>
      rbind (insert_rows fk (fun p => db !! p) t s cols (tbl_rows tb) new) (fun rows' =>
      Ok (<[t := Table s rows']> db)))
  end.

(** ** Queries *)

Inductive cmp := CEq | CNe | CLt | CGt.

Inductive aggfn := Sum | Avg | Max | CountDistinct.

Inductive expr :=
| ELit (v : value)
| ECol (t : option string) (c : string)
| ECmp (op : cmp) (a b : expr)
| EAnd (a b : expr)
| EOr (a b : expr)
| EIn (a : expr) (vs : list value)
| ENotIn (a : expr) (vs : list value)
| ELike (a : expr) (pattern : string)
| EAgg (f : aggfn) (a : expr).

Inductive item :=
| Star
| Item (e : expr) (alias : option string).

(** A SELECT.  Each source of the FROM clause carries the name it is known
    by (its alias, or the table name when none is written) and the ON
    condition of its JOIN, if it is joined that way; sources separated by
    commas have none. *)
Inductive query :=
| Select (items : list item) (from : list from_item) (where_ : option expr)
         (group_by : list expr) (having : option expr)
         (order_by : list (expr * bool)) (limit : option nat)
with from_item :=
| FromTable (t : string) (alias : string) (on : option expr)
| FromQuery (q : query) (alias : string) (on : option expr).

(** The columns in scope, each with the name of its source. *)
Abbreviation scope := (list (string * string)).

Fixpoint matches (i : nat) (sc : scope) (t : option string) (c : string) : list nat :=
  match sc with
  | [] => []
  | (a, n) :: sc' =>
      let rest := matches (S i) sc' t c in
      if ident_eqb n c && match t with Some x => ident_eqb a x | None => true end
      then i :: rest else rest
  end.

Definition column_text (t : option string) (c : string) : string :=
  match t with
  | Some x => (x ++ "." ++ c)%string
  | None => c
  end.

Definition resolve (sc : scope) (t : option string) (c : string) : result nat :=
  match matches 0 sc t c with
  | [] => Err (NoSuchColumn (column_text t c))
  | [i] => Ok i
  | _ => Err (AmbiguousColumn (column_text t c))
  end.

(** Name resolution, done when the statement is prepared.  [agg] tells
    whether an aggregate may occur here. *)
Fixpoint check_expr (agg : bool) (sc : scope) (e : expr) : result unit :=
  match e with
  | ELit _ => Ok tt
  | ECol t c => rbind (resolve sc t c) (fun _ => Ok tt)
  | ECmp _ a b | EAnd a b | EOr a b =>
      rbind (check_expr agg sc a) (fun _ => check_expr agg sc b)
  | EIn a _ | ENotIn a _ | ELike a _ => check_expr agg sc a
  | EAgg _ a => if agg then check_expr false sc a else Err MisuseOfAggregate
  end.

Definition check_opt (agg : bool) (sc : scope) (e : option expr) : result unit :=
  match e with
  | Some e => check_expr agg sc e
  | None => Ok tt
  end.

Definition of_bool (b : option bool) : value :=
  match b with
  | Some true => VInt 1
  | Some false => VInt 0
  | None => VNull
  end.

(** Truth of a value in a condition; text that spells a number is not
    parsed. *)
Definition truth (v : value) : option bool :=
  match v with
  | VNull => None
  | VInt n => Some (negb (n =? 0)%Z)
  | VReal q => Some (negb (Qeq_bool q 0))
  | VText _ => Some false
  end.

Definition compare_values (op : cmp) (a b : value) : option bool :=
  match op with
  | CEq => sql_eq a b
  | CNe => option_map negb (sql_eq a b)
  | CLt => sql_lt a b
  | CGt => sql_lt b a
  end.

Definition and3 (a b : option bool) : option bool :=
  match a, b with
  | Some false, _ | _, Some false => Some false
  | Some true, Some true => Some true
  | _, _ => None
  end.

Definition or3 (a b : option bool) : option bool :=
  match a, b with
  | Some true, _ | _, Some true => Some true
  | Some false, Some false => Some false
  | _, _ => None
  end.

Definition in_list (v : value) (vs : list value) : option bool :=
  if is_null v then None
  else if existsb (same_value v) vs then Some true
  else if existsb is_null vs then None
  else Some false.

(** LIKE: [%] matches any run of characters, [_] any one character, and
    letters match without regard to ASCII case. *)
Fixpoint like (p s : list ascii) : bool :=
  match p with
  | [] => match s with [] => true | _ => false end
  | c :: p' =>
      if Ascii.eqb c "%" then
        (fix star (s : list ascii) : bool :=
           like p' s || match s with [] => false | _ :: s' => star s' end) s
      else
        match s with
        | [] => false
        | d :: s' =>
            (Ascii.eqb c "_" || Ascii.eqb (lower_ascii c) (lower_ascii d)) && like p' s'
        end
  end.

(** A number is matched through its decimal rendering.  That of a REAL is
    not modelled: it never begins with a letter, which is all that the
    notebook's pattern asks for. *)
Definition sql_like (pattern : string) (v : value) : option bool :=
  match v with
  | VNull => None
  | VText s => Some (like (list_ascii_of_string pattern) (list_ascii_of_string s))
  | VInt n => Some (like (list_ascii_of_string pattern) (list_ascii_of_string (pretty n)))
  | VReal _ => Some false
  end.

(** Value of an expression on one joined row. *)
Fixpoint eval_scalar (sc : scope) (r : row) (e : expr) : value :=
  match e with
  | ELit v => v
  | ECol t c => match resolve sc t c with
                | Ok i => nth i r VNull
                | Err _ => VNull
                end
  | ECmp op a b => of_bool (compare_values op (eval_scalar sc r a) (eval_scalar sc r b))
  | EAnd a b => of_bool (and3 (truth (eval_scalar sc r a)) (truth (eval_scalar sc r b)))
  | EOr a b => of_bool (or3 (truth (eval_scalar sc r a)) (truth (eval_scalar sc r b)))
  | EIn a vs => of_bool (in_list (eval_scalar sc r a) vs)
  | ENotIn a vs => of_bool (option_map negb (in_list (eval_scalar sc r a) vs))
  | ELike a p => of_bool (sql_like p (eval_scalar sc r a))
  | EAgg _ _ => VNull
  end.

Definition holds (sc : scope) (cond : option expr) (r : row) : bool :=
  match cond with
  | None => true
  | Some e => match truth (eval_scalar sc r e) with Some true => true | _ => false end
  end.

(** *** Aggregates *)

Definition int64_ok (n : Z) : bool := (-(2 ^ 63) <=? n)%Z && (n <? 2 ^ 63)%Z.

(** The accumulator of SUM: the integer sum while every input is an
    integer, the real sum, and whether the integer sum left 64 bits. *)
Record sum_state := SumState {
  sum_int : Z;
  sum_real : Q;
  sum_approx : bool;
  sum_overflow : bool;
  sum_count : nat }.

Definition sum_step (st : sum_state) (v : value) : sum_state :=
  match v with
  | VNull => st
  | VInt n =>
      let exact := negb (sum_approx st || sum_overflow st) in
      let i := if exact then (sum_int st + n)%Z else sum_int st in
      SumState (if int64_ok i then i else sum_int st)
               (Qred (sum_real st + inject_Z n))
               (sum_approx st)
               (sum_overflow st || (exact && negb (int64_ok i)))
               (S (sum_count st))
  | VReal q =>
      SumState (sum_int st) (Qred (sum_real st + q)) true (sum_overflow st)
               (S (sum_count st))
  | VText _ =>
      SumState (sum_int st) (sum_real st) true (sum_overflow st) (S (sum_count st))
  end.

Definition sum_states (vs : list value) : sum_state :=
  fold_left sum_step vs (SumState 0 0 false false 0).

Definition sql_sum (vs : list value) : result value :=
  let st := sum_states vs in
  match sum_count st with
  | O => Ok VNull
  | _ => if sum_overflow st then Err IntegerOverflow
         else if sum_approx st then Ok (VReal (sum_real st))
         else Ok (VInt (sum_int st))
  end.

Definition sql_avg (vs : list value) : value :=
  let st := sum_states vs in
  match sum_count st with
  | O => VNull
  | n => VReal (Qred (sum_real st / inject_Z (Z.of_nat n)))
  end.

Definition sql_max (vs : list value) : value :=
  fold_left (fun m v => match value_compare m v with Lt => v | _ => m end) vs VNull.

Fixpoint distinct (vs : list value) : list value :=
  match vs with
  | [] => []
  | v :: vs' =>
      let d := distinct vs' in
      if existsb (fun u => match value_compare u v with Eq => true | _ => false end) d
      then d else v :: d
  end.

Definition sql_count_distinct (vs : list value) : value :=
  VInt (Z.of_nat (length (distinct (List.filter (fun v => negb (is_null v)) vs)))).

Definition aggregate (f : aggfn) (vs : list value) : result value :=
  match f with
  | Sum => sql_sum vs
  | Avg => Ok (sql_avg vs)
  | Max => Ok (sql_max vs)
  | CountDistinct => Ok (sql_count_distinct vs)
  end.

(** Value of an expression on a group of rows: a column outside an
    aggregate is read from the first row of the group (the engine leaves
    the choice of the row open). *)
Fixpoint eval_group (sc : scope) (grp : list row) (e : expr) : result value :=
  match e with
  | EAgg f a => aggregate f (map (fun r => eval_scalar sc r a) grp)
  | ECmp op a b =>
      rbind (eval_group sc grp a) (fun x =>
      rbind (eval_group sc grp b) (fun y => Ok (of_bool (compare_values op x y))))
  | EAnd a b =>
      rbind (eval_group sc grp a) (fun x =>
      rbind (eval_group sc grp b) (fun y => Ok (of_bool (and3 (truth x) (truth y)))))
  | EOr a b =>
      rbind (eval_group sc grp a) (fun x =>
      rbind (eval_group sc grp b) (fun y => Ok (of_bool (or3 (truth x) (truth y)))))
  | EIn a vs => rbind (eval_group sc grp a) (fun x => Ok (of_bool (in_list x vs)))
  | ENotIn a vs =>
      rbind (eval_group sc grp a) (fun x => Ok (of_bool (option_map negb (in_list x vs))))
  | ELike a p => rbind (eval_group sc grp a) (fun x => Ok (of_bool (sql_like p x)))
  | ELit _ | ECol _ _ => Ok (eval_scalar sc (hd [] grp) e)
  end.

Fixpoint has_agg (e : expr) : bool :=
  match e with
  | EAgg _ _ => true
  | ECmp _ a b | EAnd a b | EOr a b => has_agg a || has_agg b
  | EIn a _ | ENotIn a _ | ELike a _ => has_agg a
  | ELit _ | ECol _ _ => false
  end.

Definition item_has_agg (it : item) : bool :=
  match it with
  | Star => false
  | Item e _ => has_agg e
  end.

(** *** Result aliases *)

Fixpoint find_alias (c : string) (items : list item) : option expr :=
  match items with
  | [] => None
  | Item e (Some a) :: items' => if ident_eqb a c then Some e else find_alias c items'
  | _ :: items' => find_alias c items'
  end.

(** A bare name in GROUP BY and HAVING is a column of the sources if there
    is one and a result alias otherwise; in ORDER BY the alias comes
    first. *)
Fixpoint expand (alias_first : bool) (sc : scope) (items : list item) (e : expr) : expr :=
  match e with
  | ECol None c =>
      match find_alias c items with
      | Some e' =>
          if alias_first then e'
          else match resolve sc None c with
               | Err (NoSuchColumn _) => e'
               | _ => e
               end
      | None => e
      end
  | ECmp op a b => ECmp op (expand alias_first sc items a) (expand alias_first sc items b)
  | EAnd a b => EAnd (expand alias_first sc items a) (expand alias_first sc items b)
  | EOr a b => EOr (expand alias_first sc items a) (expand alias_first sc items b)
  | EIn a vs => EIn (expand alias_first sc items a) vs
  | ENotIn a vs => ENotIn (expand alias_first sc items a) vs
  | ELike a p => ELike (expand alias_first sc items a) p
  | ELit _ | ECol (Some _) _ | EAgg _ _ => e
  end.

(** *** Grouping and ordering *)

Fixpoint keys_compare (a b : list value) : comparison :=
  match a, b with
  | [], [] => Eq
  | [], _ => Lt
  | _, [] => Gt
  | x :: a', y :: b' =>
      match value_compare x y with
      | Eq => keys_compare a' b'
      | c => c
      end
  end.

(** Groups come out in the order of their keys, rows inside a group in
    scan order. *)
Fixpoint add_to_group (key : list value) (r : row) (groups : list (list value * list row))
  : list (list value * list row) :=
  match groups with
  | [] => [(key, [r])]
  | (k, rs) :: groups' =>
      match keys_compare key k with
      | Eq => (k, rs ++ [r]) :: groups'
      | Lt => (key, [r]) :: groups
      | Gt => (k, rs) :: add_to_group key r groups'
      end
  end.

Definition group_rows (sc : scope) (by_ : list expr) (rows : list row) : list (list row) :=
  map snd (fold_left (fun gs r => add_to_group (map (eval_scalar sc r) by_) r gs) rows []).

Fixpoint order_compare (desc : list bool) (a b : list value) : comparison :=
  match desc, a, b with
  | d :: desc', x :: a', y :: b' =>
      match value_compare x y with
      | Eq => order_compare desc' a' b'
      | c => if d then CompOpp c else c
      end
  | _, _, _ => Eq
  end.

(** Stable insertion sort: rows with equal keys keep their order. *)
Fixpoint sort_insert (desc : list bool) (x : list value * row)
    (l : list (list value * row)) : list (list value * row) :=
  match l with
  | [] => [x]
  | y :: l' =>
      match order_compare desc (fst x) (fst y) with
      | Lt => x :: l
      | _ => y :: sort_insert desc x l'
      end
  end.

Definition sort_rows (desc : list bool) (l : list (list value * row)) : list row :=
  map snd (fold_left (fun acc x => sort_insert desc x acc) l []).

(** *** SELECT *)

Definition item_names (sc : scope) (items : list item) : list string :=
  flat_map (fun it => match it with
                      | Star => map snd sc
                      | Item _ (Some a) => [a]
                      | Item (ECol _ c) None => [c]
                      | Item _ None => [""]
                      end) items.

Definition check_item (agg : bool) (sc : scope) (it : item) : result unit :=
  match it with
  | Star => Ok tt
  | Item e _ => check_expr agg sc e
  end.

Definition eval_item (sc : scope) (grp : list row) (it : item) : result (list value) :=
  match it with
  | Star => Ok (hd [] grp)
  | Item e _ => rbind (eval_group sc grp e) (fun v => Ok [v])
  end.

Definition eval_having (sc : scope) (grp : list row) (h : option expr) : result bool :=
  match h with
  | None => Ok true
  | Some e => rbind (eval_group sc grp e) (fun v =>
              Ok (match truth v with Some true => true | _ => false end))
  end.

(** One output row of a group, with its sort keys and whether HAVING keeps
    it. *)
Definition output_row (sc : scope) (items : list item) (having : option expr)
    (order_by : list expr) (grp : list row) : result (bool * (list value * row)) :=
  rbind (eval_having sc grp having) (fun keep =>
  rbind (rmapM (eval_group sc grp) order_by) (fun keys =>
  rbind (rmapM (eval_item sc grp) items) (fun vs =>
  Ok (keep, (keys, concat vs))))).

Definition limit_rows (limit : option nat) (rows : list row) : list row :=
  match limit with
  | Some n => firstn n rows
  | None => rows
  end.

(** Everything after the FROM clause, on the joined rows. *)
Definition select_rows (sc : scope) (rows : list row) (items : list item)
    (where_ : option expr) (group_by : list expr) (having : option expr)
    (order_by : list (expr * bool)) (limit : option nat)
  : result (list string * list row) :=
  let by_ := map (expand false sc items) group_by in
  let hv := option_map (expand false sc items) having in
  let ob := map (fun k => expand true sc items (fst k)) order_by in
  let agg := match group_by with [] => false | _ => true end
             || existsb item_has_agg items
             || match hv with Some e => has_agg e | None => false end
             || existsb has_agg ob in
  rbind (check_each (check_item agg sc) items) (fun _ =>
  rbind (check_opt false sc where_) (fun _ =>
  rbind (check_each (check_expr false sc) by_) (fun _ =>
  rbind (check_opt true sc hv) (fun _ =>
  rbind (check_each (check_expr agg sc) ob) (fun _ =>
  let kept := List.filter (holds sc where_) rows in
  let groups := if agg then match by_ with
                            | [] => [kept]
                            | _ => group_rows sc by_ kept
                            end
                else map (fun r => [r]) kept in
  rbind (rmapM (output_row sc items hv ob) groups) (fun out =>
  Ok (item_names sc items,
      limit_rows limit
        (sort_rows (map snd order_by) (map snd (List.filter fst out)))))))))).

(** Joining one more source: the rows of the product that satisfy the ON
    condition. *)
Definition join (on : option expr) (left right : scope * list row)
  : result (scope * list row) :=
  let sc := fst left ++ fst right in
  rbind (check_opt false sc on) (fun _ =>
  Ok (sc, flat_map (fun r => List.filter (holds sc on) (map (app r) (snd right)))
                   (snd left))).

Definition scan_table (db : database) (t alias : string) : result (scope * list row) :=
  match db !! t with
  | None => Err (NoSuchTable t)
  | Some tb => Ok (map (fun c => (alias, c)) (column_names (tbl_schema tb)), tbl_rows tb)
  end.

Fixpoint eval_query (db : database) (q : query) {struct q}
  : result (list string * list row) :=
  match q with
  | Select items from where_ group_by having order_by limit =>
      rbind
        ((fix sources (fs : list from_item) (acc : scope * list row) {struct fs}
            : result (scope * list row) :=
            match fs with
            | [] => Ok acc
            | f :: fs' =>
                rbind
                  match f with
                  | FromTable t a on => rbind (scan_table db t a) (join on acc)
                  | FromQuery q' a on =>
                      rbind (eval_query db q') (fun res =>
                      join on acc (map (fun c => (a, c)) (fst res), snd res))
                  end
                  (sources fs')
            end) from ([], [[]]))
        (fun joined =>
           select_rows (fst joined) (snd joined) items where_ group_by having
                       order_by limit)
  end.

(** ** Statements *)

Inductive stmt :=
| DropTable (if_exists : bool) (t : string)
| CreateTable (t : string) (s : schema)
| InsertInto (t : string) (cols : list string) (rows : list row)
| Query (q : query).

Definition exec (fk : bool) (s : stmt) (db : database) : result (database * list row) :=
  match s with
  | DropTable if_exists t => rbind (drop_table fk if_exists t db) (fun db' => Ok (db', []))
  | CreateTable t sch => rbind (create_table t sch db) (fun db' => Ok (db', []))
  | InsertInto t cols rows =>
      rbind (insert_into fk t cols rows db) (fun db' => Ok (db', []))
  | Query q => rbind (eval_query db q) (fun res => Ok (db, snd res))
  end.

(** ** The notebook's world *)

Inductive dtype := Int64 | Float64 | Object.

(** A pandas DataFrame: named, typed columns and rows of cells; a missing
    cell (NaN) is [VNull]. *)
Record dataframe := DataFrame {
  df_columns : list (string * dtype);
  df_rows : list row }.

(** What the run did to the outside: ghost state that records every CSV
    file read and every statement executed, with the database before and
    after it. *)
Inductive event :=
| CsvRead (path : string)
| SqlExec (file : string) (s : stmt) (before after : database).

Record world := World {
  csv_files : gmap string dataframe;   (* the CSV files, by path *)
  db_files : gmap string database;     (* the SQLite database files, by path *)
  foreign_keys : bool;                 (* the engine's foreign-key setting *)
  sql_magic : option string;           (* the connection of the %sql magic *)
  journal : list event }.

(** Notebook code: it reads and changes the world, or raises. *)
Definition nb (A : Type) : Type := world -> result (A * world).

#[global] Instance nb_ret : MRet nb := fun A a w => Ok (a, w).

#[global] Instance nb_bind : MBind nb := fun A B k m w =>
  match m w with
  | Ok (a, w') => k a w'
  | Err e => Err e
  end.

Definition raise {A} (e : error) : nb A := fun _ => Err e.

Definition database_of (w : world) (file : string) : database :=
  default ∅ (db_files w !! file).

(** Execute one statement on a database file. *)
Definition execute (file : string) (s : stmt) : nb (list row) := fun w =>
  let db := database_of w file in
  match exec (foreign_keys w) s db with
  | Err e => Err e
  | Ok (db', rows) =>
      Ok (rows, World (csv_files w) (<[file := db']> (db_files w)) (foreign_keys w)
                      (sql_magic w) (journal w ++ [SqlExec file s db db']))
  end.

Definition sqlite_url_path (url : string) : option string :=
  let p := "sqlite:///" in
  if String.prefix p url
  then Some (String.substring (String.length p) (String.length url - String.length p) url)
  else None.

(** [%sql url]: later [%%sql] cells go to this database. *)
Definition sql_connect (url : string) : nb unit := fun w =>
  match sqlite_url_path url with
  | None => Err (BadUrl url)
  | Some file =>
      Ok (tt, World (csv_files w) (db_files w) (foreign_keys w) (Some file) (journal w))
  end.

Fixpoint execute_all (file : string) (stmts : list stmt) (last : list row)
  : nb (list row) :=
  match stmts with
  | [] => mret last
  | s :: stmts' => rows ← execute file s; execute_all file stmts' rows
  end.

(** A [%%sql] cell: its statements in order; the cell shows the rows of
    the last one.  An error of a statement ends the cell and the run with
    that error: [sql] is the cell in a run without errors and tells which
    error the engine gives first.  What the magic makes of the error, a
    printed message or an exception, is [sql_cell] below. *)
Definition sql (stmts : list stmt) : nb (list row) := fun w =>
  match sql_magic w with
  | None => Err NoConnection
  | Some file => execute_all file stmts [] w
  end.

(** [sqlite3.connect(file)]: the connection is named by its file, which is
    created empty when missing. *)
Definition sqlite3_connect (file : string) : nb string := fun w =>
  Ok (file, World (csv_files w) (<[file := database_of w file]> (db_files w))
                  (foreign_keys w) (sql_magic w) (journal w)).

(** [pd.read_csv(path)] *)
Definition read_csv (path : string) : nb dataframe := fun w =>
  match csv_files w !! path with
  | None => Err (FileNotFound path)
  | Some df =>
      Ok (df, World (csv_files w) (db_files w) (foreign_keys w) (sql_magic w)
                    (journal w ++ [CsvRead path]))
  end.

Definition sql_type_of (d : dtype) : sqltype :=
  match d with
  | Int64 => TInteger
  | Float64 => TReal
  | Object => TText
  end.

(** The table pandas creates for a frame: one column per frame column,
    typed after its dtype, and no constraint of any kind. *)
Definition frame_schema (columns : list (string * dtype)) : schema :=
  Schema (map (fun c => Column (fst c) (sql_type_of (snd c)) false false) columns) [].

Fixpoint with_index (i : Z) (rows : list row) : list row :=
  match rows with
  | [] => []
  | r :: rows' => (VInt i :: r) :: with_index (i + 1) rows'
  end.

Inductive if_exists_mode := Fail | Replace | Append.

Definition has_table (con name : string) : nb bool := fun w =>
  Ok (bool_decide (is_Some (database_of w con !! name)), w).

(** [df.to_sql(name, con, index=..., if_exists=...)] *)
Definition to_sql (df : dataframe) (name con : string) (index : bool)
    (if_exists : if_exists_mode) : nb unit :=
  let columns := if index then ("index", Int64) :: df_columns df else df_columns df in
  let rows := if index then with_index 0 (df_rows df) else df_rows df in
  let create := execute con (CreateTable name (frame_schema columns)) in
  found ← has_table con name;
  (if found : bool then
     match if_exists with
     | Fail => raise (TableAlreadyExists name)
     | Replace => execute con (DropTable false name);; create
     | Append => mret []
     end
   else create);;
  match rows with
  | [] => mret tt
  | _ => execute con (InsertInto name (map fst columns) rows);; mret tt
  end.

Fixpoint run_cells (cells : list (nb unit)) : nb unit :=
  match cells with
  | [] => mret tt
  | c :: cells' => c;; run_cells cells'
  end.

(** ** The cells of the notebook

    Cells are numbered as in the notebook file, markdown cells included. *)

Definition col (c : string) : expr := ECol None c.
Definition qcol (t c : string) : expr := ECol (Some t) c.
Definition from (t : string) : from_item := FromTable t t None.
Definition plain (e : expr) : item := Item e None.

(** A SELECT without GROUP BY, HAVING and ORDER BY. *)
Definition simple (items : list item) (src : list from_item) (where_ : option expr)
    (limit : option nat) : query :=
  Select items src where_ [] None [] limit.

Definition show (c : nb (list row)) : nb unit := c;; mret tt.

(** Cell 0: plotting set-up ([%matplotlib inline], two imports and the
    [savefig.dpi] option); nothing is read or written. *)
Definition cell_0 : nb unit := mret tt.

(** Cell 5: [%load_ext sql] and [%sql sqlite:///testdb.sqlite]. *)
Definition cell_5 : nb unit := sql_connect "sqlite:///testdb.sqlite".

Definition customers_schema : schema :=
  Schema [Column "id" TInteger true true;
          Column "name" TText true false;
          Column "billing_address" TText true false] [].

Definition products_schema : schema :=
  Schema [Column "id" TInteger true true;
          Column "price" TNumber true false] [].

Definition orders_schema : schema :=
  Schema [Column "id" TInteger true false;
          Column "customer_id" TNumber true false;
          Column "product_id" TNumber true false;
          Column "delivery_address" TText true false]
         [ForeignKey "customer_id" "customers" "id";
          ForeignKey "product_id" "products" "id"].

(** Cell 6: DROP TABLE IF EXISTS for the three tables, then the three
    CREATE TABLE statements. *)
Definition cell_6_statements : list stmt :=
  [DropTable true "customers";
   DropTable true "products";
   DropTable true "orders";
   CreateTable "customers" customers_schema;
   CreateTable "products" products_schema;
   CreateTable "orders" orders_schema].

Definition cell_6 : nb (list row) := sql cell_6_statements.

(** Cells 8 and 12: SELECT * FROM customers; *)
Definition all_customers : query := simple [Star] [from "customers"] None None.
Definition cell_8 : nb (list row) := sql [Query all_customers].

(** Cell 10: the INSERT statements with the sample rows. *)
Definition cell_10_statements : list stmt :=
  [InsertInto "customers" ["id"; "name"; "billing_address"]
     [[VInt 435; VText "Omar"; VText "Berlin, Germany"];
      [VInt 5692; VText "Stuart"; VText "Dover, UK"];
      [VInt 6127; VText "Vidhya"; VText "Mumbai, India"]];
   InsertInto "products" ["id"; "price"]
     [[VInt 103; VReal 6.95]; [VInt 4028; VReal 35.5]; [VInt 3158; VReal 101.99];
      [VInt 2561; VReal 21.35]; [VInt 89; VReal 16.95]];
   InsertInto "orders" ["id"; "customer_id"; "product_id"; "delivery_address"]
     [[VInt 62353; VInt 435; VInt 103; VText "Munich, Germany"];
      [VInt 62353; VInt 435; VInt 4028; VText "Tunis, Tunisia"]];
   InsertInto "orders" ["id"; "customer_id"; "product_id"; "delivery_address"]
     [[VInt 64598; VInt 5692; VInt 103; VText "Dover, UK"];
      [VInt 65271; VInt 5692; VInt 103; VText "Dover, UK"]];
   InsertInto "orders" ["id"; "customer_id"; "product_id"; "delivery_address"]
     [[VInt 64921; VInt 6127; VInt 3158; VText "Mumbai, India"];
      [VInt 64989; VInt 6127; VInt 2561; VText "Mumbai, India"];
      [VInt 64989; VInt 6127; VInt 89; VText "Mumbai, India"]]].

Definition cell_10 : nb (list row) := sql cell_10_statements.

Definition cell_12 : nb (list row) := sql [Query all_customers].

(** Cell 13: SELECT * FROM products; *)
Definition all_products : query := simple [Star] [from "products"] None None.
Definition cell_13 : nb (list row) := sql [Query all_products].

(** Cell 14: SELECT * FROM orders; *)
Definition all_orders : query := simple [Star] [from "orders"] None None.
Definition cell_14 : nb (list row) := sql [Query all_orders].

(** Cell 16: the three CSV files go through pandas into the database,
    each replacing the table of its name. *)
Definition cell_16 : nb unit :=
  conn ← sqlite3_connect "testdb.sqlite";
  customers ← read_csv "data/customers.csv";
  products ← read_csv "data/products.csv";
  orders ← read_csv "data/orders.csv";
  to_sql customers "customers" conn false Replace;;
  to_sql products "products" conn false Replace;;
  to_sql orders "orders" conn false Replace.

(** Cell 18: SELECT id, delivery_country FROM orders
    WHERE delivery_country = 'India' LIMIT 10; *)
Definition orders_to_india : query :=
  simple [plain (col "id"); plain (col "delivery_country")] [from "orders"]
         (Some (ECmp CEq (col "delivery_country") (ELit (VText "India"))))
         (Some 10%nat).
Definition cell_18 : nb (list row) := sql [Query orders_to_india].

(** Cell 19: SELECT * FROM products WHERE price > 20 LIMIT 10; *)
Definition products_over_20 : query :=
  simple [Star] [from "products"]
         (Some (ECmp CGt (col "price") (ELit (VInt 20)))) (Some 10%nat).
Definition cell_19 : nb (list row) := sql [Query products_over_20].

(** Cell 21: SELECT id, delivery_country FROM orders
    WHERE delivery_country like 'S%' LIMIT 10; *)
Definition orders_to_s : query :=
  simple [plain (col "id"); plain (col "delivery_country")] [from "orders"]
         (Some (ELike (col "delivery_country") "S%")) (Some 10%nat).
Definition cell_21 : nb (list row) := sql [Query orders_to_s].

(** Cell 22: SELECT * FROM orders WHERE customer_id IN (10, 200, 400); *)
Definition orders_of_three : query :=
  simple [Star] [from "orders"]
         (Some (EIn (col "customer_id") [VInt 10; VInt 200; VInt 400])) None.
Definition cell_22 : nb (list row) := sql [Query orders_of_three].

(** Cell 24: SELECT * FROM orders WHERE customer_id IN (10, 200, 400)
    AND delivery_country NOT IN ('Madagascar', 'Canada'); *)
Definition orders_of_three_elsewhere : query :=
  simple [Star] [from "orders"]
         (Some (EAnd (EIn (col "customer_id") [VInt 10; VInt 200; VInt 400])
                     (ENotIn (col "delivery_country")
                             [VText "Madagascar"; VText "Canada"]))) None.
Definition cell_24 : nb (list row) := sql [Query orders_of_three_elsewhere].

(** Cell 25: SELECT * FROM products WHERE price < 10 OR price > 30 LIMIT 10; *)
Definition cheap_or_dear : query :=
  simple [Star] [from "products"]
         (Some (EOr (ECmp CLt (col "price") (ELit (VInt 10)))
                    (ECmp CGt (col "price") (ELit (VInt 30))))) (Some 10%nat).
Definition cell_25 : nb (list row) := sql [Query cheap_or_dear].

(** Cell 27: SELECT * FROM orders ORDER BY customer_id LIMIT 10; *)
Definition orders_by_customer : query :=
  Select [Star] [from "orders"] None [] None [(col "customer_id", false)] (Some 10%nat).
Definition cell_27 : nb (list row) := sql [Query orders_by_customer].

(** Cell 28: SELECT * FROM orders ORDER BY customer_id ASC, product_id DESC
    LIMIT 10; *)
Definition orders_by_customer_product : query :=
  Select [Star] [from "orders"] None [] None
         [(col "customer_id", false); (col "product_id", true)] (Some 10%nat).
Definition cell_28 : nb (list row) := sql [Query orders_by_customer_product].

(** Cell 30: SELECT AVG(price), MAX(price) FROM products; *)
Definition price_stats : query :=
  simple [plain (EAgg Avg (col "price")); plain (EAgg Max (col "price"))]
         [from "products"] None None.
Definition cell_30 : nb (list row) := sql [Query price_stats].

(** Cell 32: SELECT delivery_country, COUNT(DISTINCT(id)) FROM orders
    GROUP BY delivery_country LIMIT 10; *)
Definition orders_per_country : query :=
  Select [plain (col "delivery_country"); plain (EAgg CountDistinct (col "id"))]
         [from "orders"] None [col "delivery_country"] None [] (Some 10%nat).
Definition cell_32 : nb (list row) := sql [Query orders_per_country].

(** Cell 34: SELECT SUM(p.price) FROM orders AS o
    JOIN products AS p ON o.product_id = p.id; *)
Definition sum_price_join : query :=
  Select [plain (EAgg Sum (qcol "p" "price"))]
         [FromTable "orders" "o" None;
          FromTable "products" "p"
                    (Some (ECmp CEq (qcol "o" "product_id") (qcol "p" "id")))]
         None [] None [] None.
Definition cell_34 : nb (list row) := sql [Query sum_price_join].

(** Cell 36: SELECT SUM(p.price) FROM orders o, products p
    WHERE p.id = o.product_id; *)
Definition sum_price_where : query :=
  Select [plain (EAgg Sum (qcol "p" "price"))]
         [FromTable "orders" "o" None; FromTable "products" "p" None]
         (Some (ECmp CEq (qcol "p" "id") (qcol "o" "product_id")))
         [] None [] None.
Definition cell_36 : nb (list row) := sql [Query sum_price_where].

(** Cell 37: SELECT c.name, SUM(p.price) total
    FROM orders o, products p, customers c
    WHERE p.id = o.product_id AND c.id = o.customer_id
    GROUP BY c.id ORDER BY total LIMIT 10; *)
Definition total_per_customer : query :=
  Select [plain (qcol "c" "name"); Item (EAgg Sum (qcol "p" "price")) (Some "total")]
         [FromTable "orders" "o" None; FromTable "products" "p" None;
          FromTable "customers" "c" None]
         (Some (EAnd (ECmp CEq (qcol "p" "id") (qcol "o" "product_id"))
                     (ECmp CEq (qcol "c" "id") (qcol "o" "customer_id"))))
         [qcol "c" "id"] None [(col "total", false)] (Some 10%nat).
Definition cell_37 : nb (list row) := sql [Query total_per_customer].

(** Cell 39: SELECT shp.bill, SUM(shp.rev) spent
    FROM (SELECT c.billing_country bill, o.delivery_country deliver,
                 SUM(p.price) rev
          FROM orders o, customers c, products p
          WHERE o.customer_id = c.id AND o.product_id = p.id
          GROUP BY bill, deliver
          HAVING bill != deliver) shp
    GROUP BY shp.bill ORDER BY spent DESC LIMIT 10; *)
Definition shipped : query :=
  Select [Item (qcol "c" "billing_country") (Some "bill");
          Item (qcol "o" "delivery_country") (Some "deliver");
          Item (EAgg Sum (qcol "p" "price")) (Some "rev")]
         [FromTable "orders" "o" None; FromTable "customers" "c" None;
          FromTable "products" "p" None]
         (Some (EAnd (ECmp CEq (qcol "o" "customer_id") (qcol "c" "id"))
                     (ECmp CEq (qcol "o" "product_id") (qcol "p" "id"))))
         [col "bill"; col "deliver"]
         (Some (ECmp CNe (col "bill") (col "deliver")))
         [] None.

Definition spent_abroad : query :=
  Select [plain (qcol "shp" "bill"); Item (EAgg Sum (qcol "shp" "rev")) (Some "spent")]
         [FromQuery shipped "shp" None]
         None [qcol "shp" "bill"] None [(col "spent", true)] (Some 10%nat).
Definition cell_39 : nb (list row) := sql [Query spent_abroad].

(** The cells up to the sample rows, the cells that show them, and the
    cells after the bulk load; the whole notebook runs them in the order
    of the file. *)
Definition setup_cells : list (nb unit) :=
  [cell_0; cell_5; show cell_6; show cell_8; show cell_10].

Definition sample_cells : list (nb unit) :=
  [show cell_12; show cell_13; show cell_14].

Definition query_cells : list (nb unit) :=
  [show cell_18; show cell_19; show cell_21; show cell_22; show cell_24;
   show cell_25; show cell_27; show cell_28; show cell_30; show cell_32;
   show cell_34; show cell_36; show cell_37; show cell_39].

Definition notebook_cells : list (nb unit) :=
  setup_cells ++ sample_cells ++ [cell_16] ++ query_cells.

Definition notebook : nb unit := run_cells notebook_cells.

(** ** Notions used in the statements below *)

(** The rows a successful INSERT leaves in the table. *)
Definition stored (s : schema) (cols : list string) (rows new : list row) : list row :=
  fold_left (fun acc vals => store_row s acc (full_row s cols vals)) new rows.

(** The statements of a cell on the database alone: the final database,
    the rows of the last statement, and each statement with the database
    before and after it. *)
Fixpoint exec_seq (fk : bool) (stmts : list stmt) (db : database) (last : list row)
  : result (database * list row * list (stmt * database * database)) :=
  match stmts with
  | [] => Ok (db, last, [])
  | s :: stmts' =>
      match exec fk s db with
      | Err e => Err e
      | Ok (db', rows) =>
          match exec_seq fk stmts' db' rows with
          | Err e => Err e
          | Ok (d, r, tr) => Ok (d, r, (s, db, db') :: tr)
          end
      end
  end.

Definition rows_of (db : database) (t : string) : list row :=
  match db !! t with
  | Some tb => tbl_rows tb
  | None => []
  end.

Abbreviation tables := (option table * option table * option table)%type.

(** The three tables of the notebook, as a database holds them:
    customers, products, orders. *)
Definition view (db : database) : tables :=
  (db !! "customers", db !! "products", db !! "orders").

Definition holds_key (t : option table) (c : string) (v : value) : bool :=
  match t with
  | Some tb => has_key tb c v
  | None => false
  end.

(** Referential integrity of the notebook's tables: every row of orders
    names a customer id and a product id that occur in customers and in
    products. *)
Definition ref_ok (v : tables) : bool :=
  let '(customers, products, orders) := v in
  match orders with
  | None => true
  | Some o =>
      forallb (fun r =>
        match field (tbl_schema o) "customer_id" r, field (tbl_schema o) "product_id" r with
        | Some c, Some p => holds_key customers "id" c && holds_key products "id" p
        | _, _ => false
        end) (tbl_rows o)
  end.

Definition ref_integrity (db : database) : bool := ref_ok (view db).

Definition frame_table (df : dataframe) : table :=
  Table (frame_schema (df_columns df)) (df_rows df).

Definition testdb : string := "testdb.sqlite".

Definition is_notebook_table (t : string) : bool :=
  String.eqb t "customers" || String.eqb t "products" || String.eqb t "orders".

(** The tables after cell 6 and after cell 10. *)
Definition empty_view : tables :=
  (Some (Table customers_schema []), Some (Table products_schema []),
   Some (Table orders_schema [])).

Definition sample_customers : table :=
  Table customers_schema
    [[VInt 435; VText "Omar"; VText "Berlin, Germany"];
     [VInt 5692; VText "Stuart"; VText "Dover, UK"];
     [VInt 6127; VText "Vidhya"; VText "Mumbai, India"]].

Definition sample_products : table :=
  Table products_schema
    [[VInt 89; VReal 16.95]; [VInt 103; VReal 6.95]; [VInt 2561; VReal 21.35];
     [VInt 3158; VReal 101.99]; [VInt 4028; VReal 35.5]].

Definition sample_orders : table :=
  Table orders_schema
    [[VInt 62353; VInt 435; VInt 103; VText "Munich, Germany"];
     [VInt 62353; VInt 435; VInt 4028; VText "Tunis, Tunisia"];
     [VInt 64598; VInt 5692; VInt 103; VText "Dover, UK"];
     [VInt 65271; VInt 5692; VInt 103; VText "Dover, UK"];
     [VInt 64921; VInt 6127; VInt 3158; VText "Mumbai, India"];
     [VInt 64989; VInt 6127; VInt 2561; VText "Mumbai, India"];
     [VInt 64989; VInt 6127; VInt 89; VText "Mumbai, India"]].

Definition sample_view : tables :=
  (Some sample_customers, Some sample_products, Some sample_orders).

(** The database file right after cell 6 when nothing else is in it, and
    what the statements of cell 10 see and leave there: each statement
    with the notebook's tables before and after it. *)
Definition fresh : database :=
  <["orders" := Table orders_schema []]>
    (<["products" := Table products_schema []]>
       (<["customers" := Table customers_schema []]> ∅)).

Definition seen (tr : list (stmt * database * database)) : list (stmt * tables * tables) :=
  map (fun x => (fst (fst x), view (snd (fst x)), view (snd x))) tr.

Definition trace_of (r : result (database * list row * list (stmt * database * database)))
  : list (stmt * database * database) :=
  match r with
  | Ok x => snd x
  | Err _ => []
  end.

Definition cell_10_seen : list (stmt * tables * tables) :=
  seen (trace_of (exec_seq false cell_10_statements fresh [])).

(** What a statement that succeeds does to the database. *)
Definition effect (s : stmt) (db db' : database) (rows : list row) : Prop :=
  match s with
  | DropTable _ t => db' = delete t db /\ rows = []
  | CreateTable t sch =>
      db !! t = None /\ first_duplicate (column_names sch) = None /\
      db' = <[t := Table sch []]> db /\ rows = []
  | InsertInto t cols new =>
      exists tb, db !! t = Some tb /\ rows = [] /\
        Forall (fun vals => length vals = length cols) new /\
        db' = <[t := Table (tbl_schema tb)
                           (stored (tbl_schema tb) cols (tbl_rows tb) new)]> db
  | Query q => db' = db /\ exists names, eval_query db q = Ok (names, rows)
  end.

(** The journal entries of a run of statements on one database file. *)
Definition logged (file : string) (tr : list (stmt * database * database)) : list event :=
  map (fun x => SqlExec file (fst (fst x)) (snd (fst x)) (snd x)) tr.

(** A journal that tells a run on the database file [testdb] truly: every
    statement was executed by the engine on the database the one before
    left. *)
Fixpoint valid_run (fk : bool) (db : database) (evs : list event) (db' : database) : Prop :=
  match evs with
  | [] => db' = db
  | CsvRead _ :: evs' => valid_run fk db evs' db'
  | SqlExec f s b a :: evs' =>
      f = testdb /\ b = db /\ (exists rows, exec fk s b = Ok (a, rows)) /\
      valid_run fk a evs' db'
  end.

(** [w'] comes from [w] by the events [evs]: only the journal and the
    database file [testdb] differ. *)
Definition steps (w w' : world) (evs : list event) : Prop :=
  csv_files w' = csv_files w /\ foreign_keys w' = foreign_keys w /\
  sql_magic w' = sql_magic w /\
  (forall f, f <> testdb -> db_files w' !! f = db_files w !! f) /\
  journal w' = journal w ++ evs /\
  valid_run (foreign_keys w) (database_of w testdb) evs (database_of w' testdb).

Definition statements (tr : list (stmt * database * database)) : list stmt :=
  map (fun x => fst (fst x)) tr.

(** The sample tables alone in a database. *)
Definition sample_db : database :=
  <["orders" := sample_orders]>
    (<["products" := sample_products]> (<["customers" := sample_customers]> ∅)).

(** The statements pandas sends for [to_sql(name, if_exists='replace')]:
    DROP TABLE when the table is there, CREATE TABLE, and one INSERT with
    all the rows unless the frame is empty. *)
Definition bulk_statements (found : bool) (name : string) (df : dataframe) : list stmt :=
  (if found then [DropTable false name] else []) ++
  CreateTable name (frame_schema (df_columns df)) ::
  match df_rows df with
  | [] => []
  | _ => [InsertInto name (map fst (df_columns df)) (df_rows df)]
  end.

Definition has_column (names : list string) (c : string) : bool :=
  existsb (ident_eqb c) names.

(** The queries of [sample_cells] and of [query_cells]. *)
Definition sample_queries : list query := [all_customers; all_products; all_orders].

Definition later_queries : list query :=
  [orders_to_india; products_over_20; orders_to_s; orders_of_three;
   orders_of_three_elsewhere; cheap_or_dear; orders_by_customer;
   orders_by_customer_product; price_stats; orders_per_country; sum_price_join;
   sum_price_where; total_per_customer; spent_abroad].

(** The journal entries of queries answered on the database [db]. *)
Definition asked (db : database) (qs : list query) : list event :=
  map (fun q => SqlExec testdb (Query q) db db) qs.

(** What an INSERT that succeeds does to the notebook's tables. *)
Definition insert_view (t : string) (cols : list string) (new : list row) (v : tables)
  : tables :=
  let '(c, p, o) := v in
  let upd := option_map (fun tb =>
               Table (tbl_schema tb) (stored (tbl_schema tb) cols (tbl_rows tb) new)) in
  (if String.eqb t "customers" then upd c else c,
   if String.eqb t "products" then upd p else p,
   if String.eqb t "orders" then upd o else o).

(** *** What a schema declares *)

Definition declared (s : schema) : list (string * sqltype) :=
  map (fun c => (col_name c, col_type c)) (sch_columns s).

Definition key_columns (s : schema) : list string :=
  map col_name (List.filter col_primary_key (sch_columns s)).

Definition all_not_null (s : schema) : bool := forallb col_not_null (sch_columns s).

(** No PRIMARY KEY, no NOT NULL, no FOREIGN KEY. *)
Definition constraint_free (s : schema) : bool :=
  forallb (fun c => negb (col_not_null c) && negb (col_primary_key c)) (sch_columns s)
  && match sch_foreign_keys s with [] => true | _ => false end.

(** *** Reading the journal *)

Definition executed (evs : list event) : list stmt :=
  flat_map (fun ev => match ev with
                      | SqlExec _ s _ _ => [s]
                      | CsvRead _ => []
                      end) evs.

Definition csv_reads (evs : list event) : list string :=
  flat_map (fun ev => match ev with
                      | CsvRead p => [p]
                      | SqlExec _ _ _ _ => []
                      end) evs.

Definition database_files (evs : list event) : list string :=
  flat_map (fun ev => match ev with
                      | SqlExec f _ _ _ => [f]
                      | CsvRead _ => []
                      end) evs.

(** Each executed statement with the notebook's tables before and after. *)
Definition seen_events (evs : list event) : list (stmt * tables * tables) :=
  flat_map (fun ev => match ev with
                      | SqlExec _ s b a => [(s, view b, view a)]
                      | CsvRead _ => []
                      end) evs.

(** After an INSERT the tables are referentially intact. *)
Definition intact_after_insert (x : stmt * tables * tables) : bool :=
  match fst (fst x) with
  | InsertInto _ _ _ => ref_ok (snd x)
  | _ => true
  end.

(** An INSERT into orders finds the customers and products its rows name
    already there. *)
Definition references_present (v : tables) (cols : list string) (rows : list row) : bool :=
  let '(customers, products, _) := v in
  forallb (fun r =>
    match index_of "customer_id" cols, index_of "product_id" cols with
    | Some i, Some j =>
        holds_key customers "id" (nth i r VNull) && holds_key products "id" (nth j r VNull)
    | _, _ => false
    end) rows.

Definition follows_references (x : stmt * tables * tables) : bool :=
  match fst (fst x) with
  | InsertInto t cols rows =>
      if String.eqb t "orders" then references_present (snd (fst x)) cols rows else true
  | _ => true
  end.

(** *** The life of the rows *)

(** How statement [s] may change the rows of table [t]: DROP TABLE removes
    them, INSERT adds its rows among those that are there, and nothing else
    touches them. *)
Definition rows_change (s : stmt) (t : string) (before after : list row) : Prop :=
  match s with
  | DropTable _ t' => if String.eqb t' t then after = [] else after = before
  | InsertInto t' _ new =>
      if String.eqb t' t
      then sublist before after /\ length after = (length before + length new)%nat
      else after = before
  | CreateTable _ _ | Query _ => after = before
  end.

Definition lifecycle_event (ev : event) : Prop :=
  match ev with
  | CsvRead _ => True
  | SqlExec _ s b a => forall t, rows_change s t (rows_of b t) (rows_of a t)
  end.

(** Every statement of a complete run, in order. *)
Definition notebook_statements (customers products orders : dataframe) : list stmt :=
  cell_6_statements ++ [Query all_customers] ++ cell_10_statements ++
  map Query sample_queries ++
  bulk_statements true "customers" customers ++
  bulk_statements true "products" products ++
  bulk_statements true "orders" orders ++
  map Query later_queries.

Definition is_ok {A} (r : result A) : bool :=
  match r with
  | Ok _ => true
  | Err _ => false
  end.

Definition is_insert (s : stmt) : bool :=
  match s with
  | InsertInto _ _ _ => true
  | _ => false
  end.

(** The cells after the sample rows. *)
Definition remaining_cells : list (nb unit) := sample_cells ++ [cell_16] ++ query_cells.

(** ** Example worlds *)

(** Three small CSV files with the columns the queries of the notebook
    name. *)
Definition example_customers : dataframe :=
  DataFrame [("id", Int64); ("name", Object); ("billing_country", Object)]
    [[VInt 10; VText "Ann"; VText "India"];
     [VInt 200; VText "Bob"; VText "Spain"];
     [VInt 400; VText "Cy"; VText "Canada"]].

Definition example_products : dataframe :=
  DataFrame [("id", Int64); ("price", Float64)]
    [[VInt 1; VReal 5.5]; [VInt 2; VReal 25]; [VInt 3; VReal 40.25]].

Definition example_orders : dataframe :=
  DataFrame [("id", Int64); ("customer_id", Int64); ("product_id", Int64);
             ("delivery_country", Object)]
    [[VInt 1000; VInt 10; VInt 1; VText "India"];
     [VInt 1000; VInt 10; VInt 2; VText "Spain"];
     [VInt 1001; VInt 200; VInt 3; VText "Sweden"];
     [VInt 1002; VInt 400; VInt 3; VText "Canada"];
     [VInt 1003; VInt 400; VInt 1; VText "India"]].

(** The same orders file with one more row, for a customer that the
    customers file does not list. *)
Definition orphan_orders : dataframe :=
  DataFrame (df_columns example_orders)
            (df_rows example_orders ++ [[VInt 1004; VInt 999; VInt 1; VText "India"]]).

(** A first run: no database file yet, the engine with its stock setting
    (foreign keys not enforced). *)
Definition world_with (orders : dataframe) : world :=
  World (<["data/customers.csv" := example_customers]>
           (<["data/products.csv" := example_products]>
              (<["data/orders.csv" := orders]> ∅)))
        ∅ false None [].

Definition example_world : world := world_with example_orders.
Definition orphan_world : world := world_with orphan_orders.

Definition world_after (m : nb unit) (w : world) : world :=
  match m w with
  | Ok (_, w') => w'
  | Err _ => w
  end.

(** An order for a customer that is not there. *)
Definition orphan_insert : stmt :=
  InsertInto "orders" ["id"; "customer_id"; "product_id"; "delivery_address"]
             [[VInt 70000; VInt 999; VInt 103; VText "Nowhere"]].
(** ** Notions for the cells one by one *)

From Stdlib Require Import Sorted.

(** A frame that [to_sql] can write: it has a column, no two of its column
    names are the same identifier, and its rows are as wide as its header. *)
Definition loadable (df : dataframe) : bool :=
  match df_columns df with [] => false | _ => true end
  && match first_duplicate (map fst (df_columns df)) with None => true | Some _ => false end
  && forallb (fun r => (length r =? length (df_columns df))%nat) (df_rows df).

(** The CSV files of cell 16 in the order it reads them, and the first of
    them that is not there. *)
Definition csv_paths : list string :=
  ["data/customers.csv"; "data/products.csv"; "data/orders.csv"].

Definition first_missing (w : world) : option string :=
  find (fun p => bool_decide (csv_files w !! p = None)) csv_paths.

(** Every query of the notebook, in the order of its cells. *)
Definition notebook_queries : list query :=
  all_customers :: sample_queries ++ later_queries.

(** The queries that end in LIMIT 10. *)
Definition limited_queries : list query :=
  [orders_to_india; products_over_20; orders_to_s; cheap_or_dear; orders_by_customer;
   orders_by_customer_product; orders_per_country; total_per_customer; spent_abroad].

(** The value of column [c] in row [r] of table [tb], NULL when the table
    has no such column. *)
Definition cell_of (tb : table) (c : string) (r : row) : value :=
  default VNull (field (tbl_schema tb) c r).

(** The columns of a table as a query sees them under the name [a]. *)
Definition scope_of (a : string) (tb : table) : scope :=
  map (fun c => (a, c)) (column_names (tbl_schema tb)).

(** What a SELECT without aggregates shows of one row. *)
Definition project (sc : scope) (items : list item) (r : row) : row :=
  flat_map (fun it => match it with
                      | Star => r
                      | Item e _ => [eval_scalar sc r e]
                      end) items.

(** A column that holds numbers or NULL in every row of the table, as
    pandas writes a column of integers or floats.  (How the engine
    compares a number with a text depends on the declared type of the
    column, which is not modelled.) *)
Definition is_numeric (v : value) : bool :=
  match v with
  | VText _ => false
  | _ => true
  end.

Definition numeric (tb : table) (c : string) : Prop :=
  forallb (fun r => is_numeric (cell_of tb c r)) (tbl_rows tb) = true.

(** What the conditions of the filter cells ask of a number; a NULL
    satisfies none of them. *)
Definition greater_than (n : Z) (v : value) : bool :=
  match v with
  | VInt m => (n <? m)%Z
  | VReal q => match (inject_Z n ?= q)%Q with Lt => true | _ => false end
  | _ => false
  end.

Definition less_than (n : Z) (v : value) : bool :=
  match v with
  | VInt m => (m <? n)%Z
  | VReal q => match (q ?= inject_Z n)%Q with Lt => true | _ => false end
  | _ => false
  end.

Definition is_text (s : string) (v : value) : bool :=
  match v with
  | VText t => String.eqb t s
  | _ => false
  end.

(** A string that does not begin with S or s. *)
Definition no_s (s : string) : Prop :=
  match s with
  | EmptyString => True
  | String c _ => Ascii.eqb c "S" || Ascii.eqb c "s" = false
  end.

(** A text whose first character is S or s. *)
Definition begins_with_s (v : value) : bool :=
  match v with
  | VText (String c _) => Ascii.eqb c "S" || Ascii.eqb c "s"
  | _ => false
  end.

(** The number a numeric value stands for. *)
Definition number (v : value) : Q :=
  match v with
  | VInt n => inject_Z n
  | VReal q => q
  | _ => 0
  end.

(** The class of a value in the engine's order: NULL, number, text. *)
Definition rank (v : value) : nat :=
  match v with
  | VNull => 0
  | VInt _ | VReal _ => 1
  | VText _ => 2
  end.

(** Sort keys in the order ORDER BY asks for: the first is not after the
    second. *)
Definition in_order (desc : list bool) (x y : list value * row) : Prop :=
  order_compare desc (fst x) (fst y) <> Gt.

(** The order of cell 28 on the rows of orders: by customer_id upwards
    and, for the same customer, by product_id downwards. *)
Definition customer_then_product (tb : table) (r1 r2 : row) : Prop :=
  value_compare (cell_of tb "customer_id" r1) (cell_of tb "customer_id" r2) = Lt \/
  (value_compare (cell_of tb "customer_id" r1) (cell_of tb "customer_id" r2) = Eq /\
   value_compare (cell_of tb "product_id" r1) (cell_of tb "product_id" r2) <> Lt).

(** The values that are there, and their sum as numbers. *)
Definition known (vs : list value) : list value :=
  List.filter (fun v => negb (is_null v)) vs.

Definition total (vs : list value) : Q :=
  fold_right (fun v s => (number v + s)%Q) 0%Q vs.

(** A table whose rows are as wide as its schema, as CREATE TABLE and
    INSERT leave every table. *)
Definition well_formed (tb : table) : Prop :=
  Forall (fun r => length r = length (sch_columns (tbl_schema tb))) (tbl_rows tb).

(** For each order in turn, the price of every product that has the
    product_id of the order. *)
Definition ordered_prices (orders products : table) : list value :=
  flat_map (fun o =>
    map (cell_of products "price")
        (List.filter (fun p => same_value (cell_of orders "product_id" o)
                                          (cell_of products "id" p))
                     (tbl_rows products)))
    (tbl_rows orders).

(** The table has no column of this name. *)
Definition lacks (tb : table) (c : string) : Prop :=
  has_column (column_names (tbl_schema tb)) c = false.

(** The SELECT * cells and the table each of them reads. *)
Definition whole_table_queries : list (string * query) :=
  [("customers", all_customers); ("products", all_products); ("orders", all_orders)].

(** A database file that holds the three example frames as tables, and a
    world whose [%sql] connection is open on it. *)
Definition example_db : database :=
  <["orders" := frame_table example_orders]>
    (<["products" := frame_table example_products]>
       (<["customers" := frame_table example_customers]> ∅)).

Definition loaded_world : world :=
  World (csv_files example_world) (<[testdb := example_db]> ∅) false (Some testdb) [].

(** A world with the connection open on a database file without tables,
    and one without any file. *)
Definition blank_world : world :=
  World (csv_files example_world) ∅ false (Some testdb) [].

Definition bare_world : world := World ∅ ∅ false None [].

(** ** Notions for the queries as a whole *)

(** The names a SELECT resolves before it reads a row, as [select_rows]
    checks them. *)
Definition prepared (sc : scope) (items : list item) (where_ : option expr)
    (group_by : list expr) (having : option expr) (order_by : list (expr * bool))
  : result unit :=
  let by_ := map (expand false sc items) group_by in
  let hv := option_map (expand false sc items) having in
  let ob := map (fun k => expand true sc items (fst k)) order_by in
  let agg := match group_by with [] => false | _ => true end
             || existsb item_has_agg items
             || match hv with Some e => has_agg e | None => false end
             || existsb has_agg ob in
  rbind (check_each (check_item agg sc) items) (fun _ =>
  rbind (check_opt false sc where_) (fun _ =>
  rbind (check_each (check_expr false sc) by_) (fun _ =>
  rbind (check_opt true sc hv) (fun _ =>
  check_each (check_expr agg sc) ob)))).

(** A result, or the one error that evaluation can raise once the names
    are resolved. *)
Definition answers {A} (r : result A) : Prop :=
  (exists a, r = Ok a) \/ r = Err IntegerOverflow.

(** The tables have the columns that the queries after the bulk load
    name. *)
Definition expected_columns (db : database) : Prop :=
  exists customers products orders,
    db !! "customers" = Some customers /\ db !! "products" = Some products /\
    db !! "orders" = Some orders /\
    column_names (tbl_schema customers) = ["id"; "name"; "billing_country"] /\
    column_names (tbl_schema products) = ["id"; "price"] /\
    column_names (tbl_schema orders) = ["id"; "customer_id"; "product_id"; "delivery_country"].

(** The queries after the bulk load that contain no SUM, and those that
    do. *)
Definition queries_without_sum : list query :=
  [orders_to_india; products_over_20; orders_to_s; orders_of_three;
   orders_of_three_elsewhere; cheap_or_dear; orders_by_customer;
   orders_by_customer_product; price_stats; orders_per_country].

Definition queries_with_sum : list query :=
  [sum_price_join; sum_price_where; total_per_customer; spent_abroad].

(** The arguments of the SUMs of an expression, and of a SELECT whose
    HAVING and ORDER BY expressions are [hv] and [ob]. *)
Fixpoint summed (e : expr) : list expr :=
  match e with
  | EAgg Sum a => [a]
  | EAgg _ _ | ELit _ | ECol _ _ => []
  | ECmp _ a b | EAnd a b | EOr a b => summed a ++ summed b
  | EIn a _ | ENotIn a _ | ELike a _ => summed a
  end.

Definition sum_arguments (items : list item) (hv : option expr) (ob : list expr)
  : list expr :=
  flat_map (fun it => match it with Star => [] | Item e _ => summed e end) items ++
  match hv with Some e => summed e | None => [] end ++
  flat_map summed ob.

(** A value that SUM adds without integer arithmetic: a REAL number or
    NULL, as pandas writes a column of floats. *)
Definition real_or_null (v : value) : bool :=
  match v with
  | VReal _ | VNull => true
  | _ => false
  end.

(** Tables with the expected columns whose rows are as wide as their
    headers and whose prices are REAL numbers or NULL. *)
Definition float_priced (db : database) : Prop :=
  exists customers products orders,
    db !! "customers" = Some customers /\ db !! "products" = Some products /\
    db !! "orders" = Some orders /\
    column_names (tbl_schema customers) = ["id"; "name"; "billing_country"] /\
    column_names (tbl_schema products) = ["id"; "price"] /\
    column_names (tbl_schema orders) = ["id"; "customer_id"; "product_id"; "delivery_country"] /\
    well_formed customers /\ well_formed products /\ well_formed orders /\
    Forall (fun r => real_or_null (cell_of products "price" r) = true) (tbl_rows products).

(** A column of floats in a frame: its dtype is float64 and its cells
    are REAL numbers or NULL. *)
Definition float_column (df : dataframe) (c : string) : Prop :=
  In (c, Float64) (df_columns df) /\
  Forall (fun r => real_or_null (cell_of (frame_table df) c r) = true) (df_rows df).

(** A products file with prices in integers near the end of the 64-bit
    range, and the example files with it in place of the products. *)
Definition dear_products : dataframe :=
  DataFrame [("id", Int64); ("price", Int64)]
    [[VInt 1; VInt (2 ^ 62)]; [VInt 2; VInt (2 ^ 62)]; [VInt 3; VInt (2 ^ 62)]].

Definition dear_world : world :=
  World (<["data/customers.csv" := example_customers]>
           (<["data/products.csv" := dear_products]>
              (<["data/orders.csv" := example_orders]> ∅)))
        ∅ false None [].


(** ** Notions for the database file and the frames as they really are *)

(** A table name that is the name of one of the notebook's tables in
    another case of its letters.  The engine takes such a name for the
    table itself; the map of the model does not.  The results that start
    from an arbitrary database file are stated for files without such
    names (and, as everywhere in the model, without views or indexes). *)
Definition other_case (t : string) : bool :=
  negb (is_notebook_table t) &&
  (ident_eqb t "customers" || ident_eqb t "products" || ident_eqb t "orders").

Definition plainly_named (db : database) : bool :=
  forallb (fun x => negb (other_case (fst x))) (map_to_list db).

(** A value as pandas holds it in a column of the given dtype: a 64-bit
    integer in an int64 column, a float or a missing value in a float64
    column, a string or a missing value in an object column.  The engine
    stores such a value unchanged in the column [to_sql] declares for the
    dtype. *)
Definition fits (d : dtype) (v : value) : bool :=
  match d, v with
  | Int64, VInt n => int64_ok n
  | Float64, VReal _ | Float64, VNull => true
  | Object, VText _ | Object, VNull => true
  | _, _ => false
  end.

Definition typed (df : dataframe) : bool :=
  forallb (fun r => forallb (fun cv => fits (snd (fst cv)) (snd cv))
                            (combine (df_columns df) r))
          (df_rows df).

(** ** The [%%sql] magic and the errors of the engine *)

(** What the magic does with an error of the engine (ipython-sql, with its
    setting [short_errors] as installed): the errors it catches are
    printed, and the cell ends without a result and without raising; the
    others are raised.  The magic is not part of the repository, and which
    errors it catches depends on its version: it is a parameter [prints]
    of the cells below.  The version of the notebook's time catches the
    engine's operational errors and lets a violated constraint, an
    integrity error, through; later versions catch every error of the
    engine. *)
Definition operational (e : error) : bool :=
  match e with
  | NoSuchTable _ | TableAlreadyExists _ | NoSuchColumn _ | AmbiguousColumn _
  | DuplicateColumn _ | SyntaxError | ValueCountMismatch | MisuseOfAggregate
  | IntegerOverflow | ForeignKeyMismatch _ | NoConnection => true
  | NotNullFailed _ _ | UniqueFailed _ _ | ForeignKeyFailed
  | FileNotFound _ | BadUrl _ => false
  end.

Definition any_database_error (e : error) : bool :=
  match e with
  | FileNotFound _ | BadUrl _ => false
  | _ => true
  end.

(** The statements of a cell one after the other, up to the first that
    fails: the statements before it keep their effect. *)
Fixpoint execute_until (file : string) (stmts : list stmt) (last : list row) (w : world)
  : world * (error + list row) :=
  match stmts with
  | [] => (w, inr last)
  | s :: stmts' =>
      match execute file s w with
      | Ok (rows, w') => execute_until file stmts' rows w'
      | Err e => (w, inl e)
      end
  end.

(** A [%%sql] cell as the magic runs it: the cell shows the rows of its
    last statement, or the message of the error it printed.  [sql] above
    is the same cell in a run without errors. *)
Definition sql_cell (prints : error -> bool) (stmts : list stmt)
  : nb (error + list row) := fun w =>
  match sql_magic w with
  | None => Ok (inl NoConnection, w)
  | Some file =>
      match execute_until file stmts [] w with
      | (w', inr rows) => Ok (inr rows, w')
      | (w', inl e) => if prints e then Ok (inl e, w') else Err e
      end
  end.

Definition magic (prints : error -> bool) (stmts : list stmt) : nb unit :=
  sql_cell prints stmts;; mret tt.

(** The notebook run from top to bottom with the magic as it is: a
    printed error does not stop the run. *)
Definition run_all_cells (prints : error -> bool) : list (nb unit) :=
  [cell_0; cell_5; magic prints cell_6_statements; magic prints [Query all_customers];
   magic prints cell_10_statements] ++
  map (fun q => magic prints [Query q]) sample_queries ++
  [cell_16] ++
  map (fun q => magic prints [Query q]) later_queries.

Definition run_all (prints : error -> bool) : nb unit := run_cells (run_all_cells prints).

(** The statements that cell 16 sends to the engine for the three
    frames, on a database file that holds [db] when the cell starts. *)
Definition bulk_load (db : database) (customers products orders : dataframe) : list stmt :=
  bulk_statements (bool_decide (is_Some (db !! "customers"))) "customers" customers ++
  bulk_statements (bool_decide (is_Some (db !! "products"))) "products" products ++
  bulk_statements (bool_decide (is_Some (db !! "orders"))) "orders" orders.

(** What cell 16 raises: the error of [read_csv] for the first file that
    is missing, else the error of the first statement of the bulk load
    that fails. *)
Definition cell_16_raises (w : world) : option error :=
  match first_missing w with
  | Some path => Some (FileNotFound path)
  | None =>
      match csv_files w !! "data/customers.csv", csv_files w !! "data/products.csv",
            csv_files w !! "data/orders.csv" with
      | Some customers, Some products, Some orders =>
          match exec_seq (foreign_keys w)
                         (bulk_load (database_of w testdb) customers products orders)
                         (database_of w testdb) [] with
          | Ok _ => None
          | Err e => Some e
          end
      | _, _, _ => None
      end
  end.

(** The integers among values and their sum. *)
Definition integer (v : value) : bool :=
  match v with
  | VInt _ => true
  | _ => false
  end.

Definition whole_total (vs : list value) : Z :=
  fold_right (fun v s => match v with VInt n => (n + s)%Z | _ => s end) 0%Z vs.

(** The example products with prices in integers. *)
Definition whole_products : dataframe :=
  DataFrame [("id", Int64); ("price", Int64)]
    [[VInt 1; VInt 5]; [VInt 2; VInt 25]; [VInt 3; VInt 40]].

Definition whole_db : database := <["products" := frame_table whole_products]> example_db.


(** * Proofs *)

Lemma rbind_ok {A B} (r : result A) (k : A -> result B) b :
  rbind r k = Ok b -> exists a, r = Ok a /\ k a = Ok b.
Proof. destruct r as [a|e]; simpl; [eauto | discriminate]. Qed.

Lemma bind_ok {A B} (m : nb A) (k : A -> nb B) w b w' :
  (m ≫= k) w = Ok (b, w') -> exists a w1, m w = Ok (a, w1) /\ k a w1 = Ok (b, w').
Proof.
  unfold mbind, nb_bind. destruct (m w) as [[a w1]|e]; [eauto | discriminate].
Qed.

Lemma drop_table_inv fk ie t db db' :
  drop_table fk ie t db = Ok db' -> db' = delete t db.
Proof.
  unfold drop_table. destruct (db !! t) as [tb|] eqn:E.
  - destruct (fk && drop_blocked db t tb); [discriminate | congruence].
  - destruct ie; [|discriminate]. intros [= <-]. by rewrite delete_id.
Qed.

Lemma create_table_inv t s db db' :
  create_table t s db = Ok db' ->
  db !! t = None /\ first_duplicate (column_names s) = None /\
  db' = <[t := Table s []]> db.
Proof.
  unfold create_table. destruct (db !! t); [discriminate|].
  destruct (sch_columns s); [discriminate|].
  destruct (first_duplicate _); [discriminate|]. intros [= <-]. done.
Qed.

Lemma insert_rows_stored fk parents t s cols new : forall rows rows',
  insert_rows fk parents t s cols rows new = Ok rows' ->
  rows' = stored s cols rows new /\
  Forall (fun vals => length vals = length cols) new.
Proof.
  induction new as [|vals new IH]; intros rows rows'; simpl.
  - by intros [= <-].
  - destruct (length vals =? length cols)%nat eqn:El; [|discriminate]. simpl.
    intros H. apply rbind_ok in H as (_ & _ & H). apply IH in H as [-> Hall].
    split; [done|]. constructor; [|done]. by apply Nat.eqb_eq.
Qed.

Lemma insert_into_inv fk t cols new db db' :
  insert_into fk t cols new db = Ok db' ->
  exists tb, db !! t = Some tb /\
    Forall (fun vals => length vals = length cols) new /\
    db' = <[t := Table (tbl_schema tb) (stored (tbl_schema tb) cols (tbl_rows tb) new)]> db.
Proof.
  unfold insert_into. destruct (db !! t) as [tb|]; [|discriminate].
  intros H. apply rbind_ok in H as (_ & _ & H). apply rbind_ok in H as (rows' & H & [= <-]).
  apply insert_rows_stored in H as [-> Hall]. eauto.
Qed.

Lemma exec_effect fk s db db' rows :
  exec fk s db = Ok (db', rows) -> effect s db db' rows.
Proof.
  destruct s as [ie t|t sch|t cols new|q]; simpl; intros H;
    apply rbind_ok in H as (x & H & [= <- <-]).
  - by apply drop_table_inv in H.
  - apply create_table_inv in H. tauto.
  - apply insert_into_inv in H as (tb & ? & ? & ?). eauto.
  - destruct x as [names rows]. eauto.
Qed.

Lemma execute_all_spec file stmts : forall last w,
  execute_all file stmts last w =
  match exec_seq (foreign_keys w) stmts (database_of w file) last with
  | Err e => Err e
  | Ok (db', rows, tr) =>
      Ok (rows, World (csv_files w)
                      (match stmts with [] => db_files w | _ => <[file := db']> (db_files w) end)
                      (foreign_keys w) (sql_magic w) (journal w ++ logged file tr))
  end.
Proof.
  induction stmts as [|s stmts IH]; intros last w.
  - simpl. unfold mret, nb_ret. destruct w; simpl. by rewrite app_nil_r.
  - simpl. unfold mbind, nb_bind, execute.
    destruct (exec _ s _) as [[db1 rows1]|e]; [|done].
    rewrite IH. clear IH. simpl. unfold database_of at 1. simpl.
    rewrite lookup_insert_eq. simpl.
    destruct stmts as [|s2 stmts].
    + simpl. by rewrite <- app_assoc.
    + destruct (exec_seq _ (s2 :: stmts) db1 rows1) as [[[d r] tr]|e]; [|done].
      by rewrite insert_insert_eq, <- app_assoc.
Qed.

Lemma exec_seq_cons_inv fk s ss db last d r tr :
  exec_seq fk (s :: ss) db last = Ok (d, r, tr) ->
  exists db1 rows1 tr1,
    effect s db db1 rows1 /\ exec_seq fk ss db1 rows1 = Ok (d, r, tr1) /\
    tr = (s, db, db1) :: tr1.
Proof.
  simpl. destruct (exec fk s db) as [[db1 rows1]|e] eqn:E; [|discriminate].
  destruct (exec_seq fk ss db1 rows1) as [[[d' r'] tr']|e] eqn:E2; [|discriminate].
  intros [= <- <- <-]. apply exec_effect in E.
  exists db1, rows1, tr'. done.
Qed.

Lemma exec_seq_nil_inv fk db last d r tr :
  exec_seq fk [] db last = Ok (d, r, tr) -> d = db /\ r = last /\ tr = [].
Proof. simpl. by intros [= <- <- <-]. Qed.

Lemma is_notebook_table_false t :
  is_notebook_table t = false -> t <> "customers" /\ t <> "products" /\ t <> "orders".
Proof.
  unfold is_notebook_table. intros H.
  apply orb_false_iff in H as [H Ho]. apply orb_false_iff in H as [Hc Hp].
  apply String.eqb_neq in Hc, Hp, Ho. done.
Qed.

Lemma lookup_insert_eqb (db : database) t x k :
  <[t := x]> db !! k = if String.eqb t k then Some x else db !! k.
Proof.
  destruct (String.eqb_spec t k) as [->|Hne].
  - apply lookup_insert_eq.
  - by apply lookup_insert_ne.
Qed.

Lemma lookup_delete_eqb (db : database) t k :
  delete t db !! k = if String.eqb t k then None else db !! k.
Proof.
  destruct (String.eqb_spec t k) as [->|Hne].
  - apply lookup_delete_eq.
  - by apply lookup_delete_ne.
Qed.

Lemma view_lookups db c p o :
  view db = (c, p, o) -> db !! "customers" = c /\ db !! "products" = p /\ db !! "orders" = o.
Proof. unfold view. by intros [= <- <- <-]. Qed.

(** Lookups through the updates of a cell. *)
Ltac lookups :=
  unfold view;
  repeat first [rewrite lookup_insert_eq | rewrite lookup_insert_ne by done
               | rewrite lookup_delete_eq | rewrite lookup_delete_ne by done].

(** One statement of a cell, from its effect. *)
Ltac next_statement H :=
  let db1 := fresh "db" in
  let E := fresh "E" in
  apply exec_seq_cons_inv in H as (db1 & ? & ? & E & H & ->).

Lemma cell_6_effect fk db last d r tr :
  exec_seq fk cell_6_statements db last = Ok (d, r, tr) ->
  r = [] /\ view d = empty_view /\
  (forall t, is_notebook_table t = false -> d !! t = db !! t) /\
  map (fun x => fst (fst x)) tr = cell_6_statements.
Proof.
  unfold cell_6_statements. intros H.
  do 3 (next_statement H; destruct E as [-> ->]).
  do 3 (next_statement H; destruct E as (_ & _ & -> & ->)).
  apply exec_seq_nil_inv in H as (-> & -> & ->).
  split; [done|]. split; [|split; [|done]].
  - by lookups.
  - intros t Ht. apply is_notebook_table_false in Ht as (? & ? & ?).
    by rewrite !lookup_insert_ne, !lookup_delete_ne.
Qed.

Lemma effect_insert_view t cols new db db' rows :
  effect (InsertInto t cols new) db db' rows ->
  view db' = insert_view t cols new (view db) /\
  (forall k, k <> t -> db' !! k = db !! k).
Proof.
  intros (tb & Htb & _ & _ & ->). split.
  - unfold view, insert_view. rewrite !lookup_insert_eqb.
    f_equal; [f_equal|].
    + destruct (String.eqb_spec t "customers") as [->|]; [by rewrite Htb|done].
    + destruct (String.eqb_spec t "products") as [->|]; [by rewrite Htb|done].
    + destruct (String.eqb_spec t "orders") as [->|]; [by rewrite Htb|done].
  - intros k Hk. by rewrite lookup_insert_ne.
Qed.

Lemma cell_10_effect fk db last d r tr :
  exec_seq fk cell_10_statements db last = Ok (d, r, tr) ->
  view db = empty_view ->
  r = [] /\ view d = sample_view /\
  (forall t, is_notebook_table t = false -> d !! t = db !! t) /\
  seen tr = cell_10_seen.
Proof.
  unfold cell_10_statements. intros H V0.
  next_statement H. pose proof E as (_ & _ & -> & _).
  apply effect_insert_view in E as [V1 O1]. rewrite V0 in V1.
  next_statement H. pose proof E as (_ & _ & -> & _).
  apply effect_insert_view in E as [V2 O2]. rewrite V1 in V2.
  next_statement H. pose proof E as (_ & _ & -> & _).
  apply effect_insert_view in E as [V3 O3]. rewrite V2 in V3.
  next_statement H. pose proof E as (_ & _ & -> & _).
  apply effect_insert_view in E as [V4 O4]. rewrite V3 in V4.
  next_statement H. pose proof E as (_ & _ & -> & _).
  apply effect_insert_view in E as [V5 O5]. rewrite V4 in V5.
  apply exec_seq_nil_inv in H as (-> & -> & ->).
  split; [done|]. split; [|split].
  - rewrite V5. vm_compute. reflexivity.
  - intros t Ht. apply is_notebook_table_false in Ht as (? & ? & ?).
    by rewrite O5, O4, O3, O2, O1.
  - unfold seen. cbn [map fst snd]. rewrite V0, V1, V2, V3, V4, V5.
    vm_compute. reflexivity.
Qed.

(** ** Runs and their journal *)

Lemma valid_run_app fk evs1 : forall db evs2 db1 db2,
  valid_run fk db evs1 db1 -> valid_run fk db1 evs2 db2 ->
  valid_run fk db (evs1 ++ evs2) db2.
Proof.
  induction evs1 as [|[p|f s b a] evs1 IH]; simpl; intros db evs2 db1 db2 H1 H2.
  - by subst.
  - eauto.
  - destruct H1 as (? & ? & ? & H1). eauto 6.
Qed.

Lemma steps_refl w : steps w w [].
Proof. unfold steps. simpl. by rewrite app_nil_r. Qed.

Lemma steps_trans w w1 w2 evs1 evs2 :
  steps w w1 evs1 -> steps w1 w2 evs2 -> steps w w2 (evs1 ++ evs2).
Proof.
  intros (Hc & Hf & Hm & Ho & Hj & Hv) (Hc' & Hf' & Hm' & Ho' & Hj' & Hv').
  unfold steps. rewrite Hc', Hf', Hm', Hj', Hj, app_assoc.
  repeat split; try done.
  - intros f Hne. rewrite Ho' by done. by apply Ho.
  - rewrite Hf in Hv'. by eapply valid_run_app.
Qed.

Lemma exec_seq_valid fk stmts : forall db last d r tr,
  exec_seq fk stmts db last = Ok (d, r, tr) ->
  valid_run fk db (logged testdb tr) d /\ statements tr = stmts.
Proof.
  induction stmts as [|s stmts IH]; intros db last d r tr; simpl.
  - by intros [= <- <- <-].
  - destruct (exec fk s db) as [[db1 rows1]|e] eqn:E; [|discriminate].
    destruct (exec_seq fk stmts db1 rows1) as [[[d' r'] tr']|e] eqn:E2; [|discriminate].
    intros [= <- <- <-]. apply IH in E2 as [Hv Hs]. simpl.
    rewrite Hs. eauto 8.
Qed.

Lemma database_of_insert w file db csv fk m j :
  database_of (World csv (<[file := db]> (db_files w)) fk m j) file = db.
Proof. unfold database_of. simpl. by rewrite lookup_insert_eq. Qed.

Lemma sql_steps s ss w rows w' :
  sql_magic w = Some testdb ->
  sql (s :: ss) w = Ok (rows, w') ->
  exists d tr,
    exec_seq (foreign_keys w) (s :: ss) (database_of w testdb) [] = Ok (d, rows, tr) /\
    steps w w' (logged testdb tr) /\ database_of w' testdb = d.
Proof.
  intros Hm. unfold sql. rewrite Hm, execute_all_spec.
  destruct (exec_seq _ _ _ _) as [[[d r] tr]|e] eqn:E; [|discriminate].
  intros [= <- <-]. exists d, tr. split; [done|].
  pose proof (exec_seq_valid _ _ _ _ _ _ _ E) as [Hv _].
  rewrite database_of_insert. split; [|done].
  unfold steps. simpl. repeat split; try done.
  - intros f Hne. by rewrite lookup_insert_ne.
  - by rewrite database_of_insert.
Qed.

Lemma show_ok (c : nb (list row)) w w' :
  show c w = Ok (tt, w') -> exists rows, c w = Ok (rows, w').
Proof.
  unfold show. intros H. apply bind_ok in H as (rows & w1 & H & [= <-]). eauto.
Qed.

Lemma run_cells_cons c cells w w' :
  run_cells (c :: cells) w = Ok (tt, w') ->
  exists w1, c w = Ok (tt, w1) /\ run_cells cells w1 = Ok (tt, w').
Proof.
  simpl. intros H. apply bind_ok in H as ([] & w1 & H & H'). eauto.
Qed.

Lemma run_cells_app cells1 : forall cells2 w w',
  run_cells (cells1 ++ cells2) w = Ok (tt, w') ->
  exists w1, run_cells cells1 w = Ok (tt, w1) /\ run_cells cells2 w1 = Ok (tt, w').
Proof.
  induction cells1 as [|c cells1 IH]; intros cells2 w w' H.
  - exists w. done.
  - simpl app in H. apply run_cells_cons in H as (w1 & Hc & H).
    apply IH in H as (w2 & H1 & H2). exists w2. split; [|done].
    simpl. unfold mbind, nb_bind. by rewrite Hc.
Qed.

(** ** The cells before the bulk load *)

Lemma sql_connect_ok w w' :
  cell_5 w = Ok (tt, w') ->
  w' = World (csv_files w) (db_files w) (foreign_keys w) (Some testdb) (journal w).
Proof. unfold cell_5, sql_connect. simpl. by intros [= <-]. Qed.

Lemma query_trace fk q db last d r tr :
  exec_seq fk [Query q] db last = Ok (d, r, tr) ->
  d = db /\ tr = [(Query q, db, db)] /\ exists names, eval_query db q = Ok (names, r).
Proof.
  intros H. next_statement H. destruct E as [-> E].
  by apply exec_seq_nil_inv in H as (-> & -> & ->).
Qed.

Lemma setup_run w w1 :
  run_cells setup_cells w = Ok (tt, w1) ->
  exists w5 tr6 d6 tr10,
    w5 = World (csv_files w) (db_files w) (foreign_keys w) (Some testdb) (journal w) /\
    steps w5 w1 (logged testdb (tr6 ++ (Query all_customers, d6, d6) :: tr10)) /\
    statements tr6 = cell_6_statements /\ view d6 = empty_view /\
    seen tr10 = cell_10_seen /\
    view (database_of w1 testdb) = sample_view /\
    (forall t, is_notebook_table t = false ->
               database_of w1 testdb !! t = database_of w testdb !! t).
Proof.
  unfold setup_cells. intros H.
  apply run_cells_cons in H as (w0 & H0 & H). injection H0 as <-.
  apply run_cells_cons in H as (w5 & H5 & H). apply sql_connect_ok in H5.
  assert (Hm5 : sql_magic w5 = Some testdb) by by subst.
  apply run_cells_cons in H as (w6 & H6 & H). apply show_ok in H6 as (r6 & H6).
  apply sql_steps in H6 as (d6 & tr6 & E6 & S6 & D6); [|done].
  apply run_cells_cons in H as (w8 & H8 & H). apply show_ok in H8 as (r8 & H8).
  assert (Hm6 : sql_magic w6 = Some testdb) by (destruct S6 as (_ & _ & -> & _); done).
  apply sql_steps in H8 as (d8 & tr8 & E8 & S8 & D8); [|done].
  apply run_cells_cons in H as (w10 & H10 & H). apply show_ok in H10 as (r10 & H10).
  assert (Hm8 : sql_magic w8 = Some testdb) by (destruct S8 as (_ & _ & -> & _); done).
  apply sql_steps in H10 as (d10 & tr10 & E10 & S10 & D10); [|done].
  injection H as <-.
  rewrite D6 in E8. apply query_trace in E8 as (-> & -> & _).
  rewrite D8 in E10.
  pose proof (cell_6_effect _ _ _ _ _ _ E6) as (_ & V6 & O6 & St6).
  pose proof (cell_10_effect _ _ _ _ _ _ E10 V6) as (_ & V10 & O10 & Se10).
  exists w5, tr6, d6, tr10. split; [done|]. split.
  - pose proof (steps_trans _ _ _ _ _ (steps_trans _ _ _ _ _ S6 S8) S10) as S.
    unfold logged in *. rewrite map_app. simpl. rewrite <- app_assoc in S. exact S.
  - rewrite D10. split; [exact St6|]. split; [exact V6|]. split; [exact Se10|].
    split; [exact V10|].
    intros t Ht. rewrite O10, O6 by done. by subst.
Qed.

(** ** Queries read the tables they name *)

Lemma eval_query_1 db db' items t a on wh gb hv ob lim :
  db !! t = db' !! t ->
  eval_query db (Select items [FromTable t a on] wh gb hv ob lim) =
  eval_query db' (Select items [FromTable t a on] wh gb hv ob lim).
Proof. intros H. simpl. unfold scan_table. by rewrite H. Qed.

Lemma eval_query_2 db db' items t1 a1 on1 t2 a2 on2 wh gb hv ob lim :
  db !! t1 = db' !! t1 -> db !! t2 = db' !! t2 ->
  eval_query db (Select items [FromTable t1 a1 on1; FromTable t2 a2 on2] wh gb hv ob lim) =
  eval_query db' (Select items [FromTable t1 a1 on1; FromTable t2 a2 on2] wh gb hv ob lim).
Proof. intros H1 H2. simpl. unfold scan_table. by rewrite H1, H2. Qed.

Lemma sql_query_result q w names rows :
  sql_magic w = Some testdb ->
  eval_query (database_of w testdb) q = Ok (names, rows) ->
  exists w', sql [Query q] w = Ok (rows, w').
Proof.
  intros Hm H. unfold sql. rewrite Hm, execute_all_spec. simpl. rewrite H. simpl. eauto.
Qed.

Lemma setup_magic w w1 :
  run_cells setup_cells w = Ok (tt, w1) -> sql_magic w1 = Some testdb.
Proof.
  intros H. apply setup_run in H as (w5 & ? & ? & ? & -> & S & _).
  by destruct S as (_ & _ & -> & _).
Qed.

Lemma setup_view w w1 :
  run_cells setup_cells w = Ok (tt, w1) ->
  view (database_of w1 testdb) = view sample_db.
Proof.
  intros H. apply setup_run in H as (? & ? & ? & ? & _ & _ & _ & _ & _ & -> & _).
  reflexivity.
Qed.

(** C6: after the INSERT statements of cell 10 on the tables of cell 6,
    SELECT * FROM customers returns the three rows of Omar, Stuart and
    Vidhya and no other. *)
Theorem customers_after_inserts w w1 :
  run_cells setup_cells w = Ok (tt, w1) ->
  exists w2,
    cell_12 w1 =
    Ok ([[VInt 435; VText "Omar"; VText "Berlin, Germany"];
         [VInt 5692; VText "Stuart"; VText "Dover, UK"];
         [VInt 6127; VText "Vidhya"; VText "Mumbai, India"]], w2).
Proof.
  intros H. pose proof (setup_magic _ _ H) as Hm.
  apply setup_view, view_lookups in H as (Hc & _ & _).
  unfold cell_12, all_customers, simple, from.
  eapply sql_query_result; [done|].
  rewrite (eval_query_1 _ sample_db) by done. vm_compute. reflexivity.
Qed.

(** C5: on the sample rows, the sum of the prices joined onto the orders
    is 6.95 + 35.50 + 6.95 + 6.95 + 101.99 + 21.35 + 16.95 = 196.64. *)
Theorem sum_of_prices_on_sample w w1 :
  run_cells setup_cells w = Ok (tt, w1) ->
  exists total w2,
    cell_34 w1 = Ok ([[VReal total]], w2) /\
    (total == 6.95 + 35.50 + 6.95 + 6.95 + 101.99 + 21.35 + 16.95)%Q /\
    (total == 196.64)%Q.
Proof.
  intros H. pose proof (setup_magic _ _ H) as Hm.
  apply setup_view, view_lookups in H as (_ & Hp & Ho).
  assert (exists w2, cell_34 w1 = Ok ([[VReal (4916 # 25)]], w2)) as [w2 E].
  { unfold cell_34, sum_price_join. eapply sql_query_result; [done|].
    rewrite (eval_query_2 _ sample_db) by done. vm_compute. reflexivity. }
  exists (4916 # 25)%Q, w2. split; [done|]. split; reflexivity.
Qed.

(** ** The two ways to write the join *)

Lemma value_compare_antisym a b : value_compare b a = CompOpp (value_compare a b).
Proof.
  destruct a as [|m|p|s], b as [|n|q|t]; simpl; try reflexivity.
  - apply Z.compare_antisym.
  - symmetry. apply Qcompare_antisym.
  - symmetry. apply Qcompare_antisym.
  - symmetry. apply Qcompare_antisym.
  - apply String.compare_antisym.
Qed.

Lemma sql_eq_sym a b : sql_eq a b = sql_eq b a.
Proof.
  unfold sql_eq. rewrite (orb_comm (is_null b)).
  destruct (is_null a || is_null b); [done|].
  rewrite (value_compare_antisym a b). by destruct (value_compare a b).
Qed.

Lemma holds_eq_sym sc a b r :
  holds sc (Some (ECmp CEq a b)) r = holds sc (Some (ECmp CEq b a)) r.
Proof. simpl. by rewrite sql_eq_sym. Qed.

Lemma filter_flat_map {A B} (p : B -> bool) (f : A -> list B) l :
  List.filter p (flat_map f l) = flat_map (fun x => List.filter p (f x)) l.
Proof.
  induction l as [|x l IH]; simpl; [done|]. by rewrite List.filter_app, IH.
Qed.

Lemma filter_holds_none sc (l : list row) : List.filter (holds sc None) l = l.
Proof. induction l as [|x l IH]; simpl; congruence. Qed.

Lemma flat_map_ext' {A B} (f g : A -> list B) l :
  (forall x, f x = g x) -> flat_map f l = flat_map g l.
Proof. intros H. induction l as [|x l IH]; simpl; congruence. Qed.

Lemma filter_ext' {A} (p q : A -> bool) l :
  (forall x, p x = q x) -> List.filter p l = List.filter q l.
Proof. intros H. induction l as [|x l IH]; simpl; [done|]. by rewrite H, IH. Qed.

(** Joining ON an equality and filtering the product by the mirrored
    equality keep the same rows, in the same order. *)
Lemma join_rows_on_where sc a b (left right : list row) :
  flat_map (fun r => List.filter (holds sc (Some (ECmp CEq a b))) (map (app r) right)) left =
  List.filter (holds sc (Some (ECmp CEq b a)))
    (flat_map (fun r => List.filter (holds sc None) (map (app r) right)) left).
Proof.
  rewrite filter_flat_map. apply flat_map_ext'. intros r.
  rewrite filter_holds_none. apply filter_ext'. intros x.
  apply holds_eq_sym.
Qed.

Lemma select_rows_bad_where sc rows items wh gb hv ob lim e :
  check_opt false sc wh = Err e ->
  outcome (select_rows sc rows items wh gb hv ob lim) = None.
Proof.
  intros H. unfold select_rows. rewrite H.
  by destruct (check_each _ items) as [[]|e'].
Qed.

Lemma select_rows_good_where sc rows items wh gb hv ob lim :
  check_opt false sc wh = Ok tt ->
  select_rows sc rows items wh gb hv ob lim =
  select_rows sc (List.filter (holds sc wh) rows) items None gb hv ob lim.
Proof.
  intros H. unfold select_rows. rewrite H. simpl. by rewrite filter_holds_none.
Qed.

Lemma join_on_where left right items a b gb hv ob lim :
  outcome (rbind (join (Some (ECmp CEq a b)) left right) (fun j =>
           select_rows (fst j) (snd j) items None gb hv ob lim)) =
  outcome (rbind (join None left right) (fun j =>
           select_rows (fst j) (snd j) items (Some (ECmp CEq b a)) gb hv ob lim)).
Proof.
  unfold join. simpl.
  remember (fst left ++ fst right) as sc eqn:Esc. clear Esc.
  destruct (check_expr false sc a) as [[]|e1] eqn:Ea;
    destruct (check_expr false sc b) as [[]|e2] eqn:Eb; simpl.
  - rewrite (select_rows_good_where _ _ _ (Some _)) by (simpl; by rewrite Eb, Ea).
    by rewrite join_rows_on_where.
  - symmetry. eapply select_rows_bad_where. simpl. by rewrite Eb.
  - symmetry. eapply select_rows_bad_where. simpl. by rewrite Eb, Ea.
  - symmetry. eapply select_rows_bad_where. simpl. by rewrite Eb.
Qed.

Lemma outcome_map {A B} (r : result A) (f : A -> B) :
  outcome (rbind r (fun a => Ok (f a))) = option_map f (outcome r).
Proof. by destruct r. Qed.

Lemma rbind_unit {A} (r : result A) : rbind r (fun a => Ok a) = r.
Proof. by destruct r. Qed.

(** C10: on every database, with either foreign-key setting, the JOIN ... ON
    query of cell 34 and the comma join with WHERE of cell 36 both fail or
    both return the same sum. *)
Theorem join_forms_agree fk db :
  outcome (exec fk (Query sum_price_join) db) =
  outcome (exec fk (Query sum_price_where) db).
Proof.
  unfold sum_price_join, sum_price_where. simpl.
  destruct (scan_table db "orders" "o") as [o|e]; [|reflexivity]. simpl.
  destruct (scan_table db "products" "p") as [p|e]; [|reflexivity].
  rewrite !outcome_map, !rbind_unit. f_equal. simpl rbind at 2 4.
  apply join_on_where.
Qed.

(** ** The bulk load *)

Lemma ident_eqb_refl a : ident_eqb a a = true.
Proof. apply String.eqb_refl. Qed.

Lemma ident_eqb_sym a b : ident_eqb a b = ident_eqb b a.
Proof. apply String.eqb_sym. Qed.

(** With distinct names, the row stored for a full list of values is that
    list. *)
Lemma full_values names : forall vals,
  first_duplicate names = None -> length vals = length names ->
  map (fun n => match index_of n names with
                | Some i => nth i vals VNull
                | None => VNull
                end) names = vals.
Proof.
  induction names as [|n names IH]; intros [|v vals] Hd Hl; simpl in *; try done.
  destruct (existsb (ident_eqb n) names) eqn:Ex; [done|].
  rewrite ident_eqb_refl. f_equal.
  etransitivity; [|apply (IH vals Hd); lia].
  apply map_ext_in. intros m Hm.
  assert (ident_eqb m n = false) as ->.
  { rewrite ident_eqb_sym. destruct (ident_eqb n m) eqn:E; [|done].
    rewrite <- Ex. symmetry. apply existsb_exists. eauto. }
  by destruct (index_of m names).
Qed.

Lemma frame_column_names cols : column_names (frame_schema cols) = map fst cols.
Proof. unfold column_names, frame_schema. simpl. by rewrite map_map. Qed.

Lemma full_row_frame cols vals :
  first_duplicate (map fst cols) = None -> length vals = length (map fst cols) ->
  full_row (frame_schema cols) (map fst cols) vals = vals.
Proof.
  intros Hd Hl. unfold full_row, frame_schema. simpl.
  etransitivity; [|apply (full_values (map fst cols) vals Hd Hl)].
  by rewrite !map_map.
Qed.

Lemma frame_no_rowid cols : rowid_column (frame_schema cols) = None.
Proof.
  unfold rowid_column, frame_schema. simpl.
  by induction cols as [|c cols IH].
Qed.

Lemma stored_frame cols new : forall rows,
  first_duplicate (map fst cols) = None ->
  Forall (fun vals => length vals = length (map fst cols)) new ->
  stored (frame_schema cols) (map fst cols) rows new = rows ++ new.
Proof.
  unfold stored. induction new as [|vals new IH]; intros rows Hd Hl; simpl.
  - by rewrite app_nil_r.
  - inversion Hl as [|? ? Hv Hl']; subst.
    rewrite IH by done. unfold store_row. rewrite frame_no_rowid.
    rewrite full_row_frame by done. by rewrite <- app_assoc.
Qed.

Lemma execute_steps s w rows w' :
  execute testdb s w = Ok (rows, w') ->
  exists db',
    exec (foreign_keys w) s (database_of w testdb) = Ok (db', rows) /\
    steps w w' [SqlExec testdb s (database_of w testdb) db'] /\
    database_of w' testdb = db'.
Proof.
  unfold execute. destruct (exec _ s _) as [[db' r]|e] eqn:E; [|discriminate].
  intros [= <- <-]. exists db'. rewrite database_of_insert.
  split; [done|]. split; [|done].
  unfold steps. simpl. rewrite database_of_insert. repeat split; eauto.
  intros f Hne. by rewrite lookup_insert_ne.
Qed.

Lemma to_sql_replace df name w w' :
  to_sql df name testdb false Replace w = Ok (tt, w') ->
  exists tr,
    steps w w' (logged testdb tr) /\
    statements tr =
      bulk_statements (bool_decide (is_Some (database_of w testdb !! name))) name df /\
    database_of w' testdb = <[name := frame_table df]> (database_of w testdb).
Proof.
  unfold to_sql, bulk_statements, frame_table. intros H.
  apply bind_ok in H as (found & w0 & Hf & H). injection Hf as <- <-.
  apply bind_ok in H as (r1 & w1 & H1 & H).
  set (db := database_of w testdb) in *.
  set (sch := frame_schema (df_columns df)) in *.
  assert (exists tr1,
    steps w w1 (logged testdb tr1) /\
    statements tr1 =
      (if bool_decide (is_Some (db !! name)) then [DropTable false name] else []) ++
      [CreateTable name sch] /\
    database_of w1 testdb = <[name := Table sch []]> db /\
    first_duplicate (map fst (df_columns df)) = None) as (tr1 & S1 & St1 & D1 & Hd).
  { destruct (bool_decide (is_Some (db !! name))).
    - apply bind_ok in H1 as (r0 & w2 & Hdrop & Hcreate).
      apply execute_steps in Hdrop as (d2 & E2 & S2 & D2).
      apply execute_steps in Hcreate as (d1 & E1 & S1 & D1).
      apply exec_effect in E2 as [-> _]. rewrite D2 in *.
      pose proof E1 as E1'. apply exec_effect in E1' as (_ & Hd & -> & _).
      exists [(DropTable false name, db, delete name db);
              (CreateTable name sch, delete name db, <[name := Table sch []]> (delete name db))].
      split; [exact (steps_trans _ _ _ _ _ S2 S1)|]. split; [done|].
      rewrite D1, insert_delete_eq. split; [done|].
      by rewrite <- frame_column_names.
    - apply execute_steps in H1 as (d1 & E1 & S1 & D1).
      pose proof E1 as E1'. apply exec_effect in E1' as (_ & Hd & -> & _).
      exists [(CreateTable name sch, db, <[name := Table sch []]> db)].
      split; [exact S1|]. split; [done|]. split; [done|].
      by rewrite <- frame_column_names. }
  destruct (df_rows df) as [|r rows] eqn:Er.
  - injection H as <-. exists tr1. done.
  - apply bind_ok in H as (r2 & w2 & Hins & [= <-]).
    apply execute_steps in Hins as (d2 & E2 & S2 & D2).
    pose proof E2 as E2'. apply exec_effect in E2' as (tb & Htb & _ & Hl & ->).
    rewrite D1, lookup_insert_eq in Htb. injection Htb as <-.
    cbn [tbl_schema tbl_rows] in *.
    exists (tr1 ++ [(InsertInto name (map fst (df_columns df)) (r :: rows),
                     database_of w1 testdb,
                     <[name := Table sch (stored sch (map fst (df_columns df)) [] (r :: rows))]>
                       (database_of w1 testdb))]).
    split; [|split].
    + unfold logged. rewrite map_app. exact (steps_trans _ _ _ _ _ S1 S2).
    + unfold statements in *. rewrite map_app, St1. simpl. by rewrite <- app_assoc.
    + rewrite D2, D1, insert_insert_eq. unfold sch. rewrite stored_frame by done. reflexivity.
Qed.

Lemma steps_database w w' evs :
  steps w w' evs -> valid_run (foreign_keys w) (database_of w testdb) evs (database_of w' testdb).
Proof. by intros (_ & _ & _ & _ & _ & H). Qed.

Lemma sqlite3_connect_steps w con w' :
  sqlite3_connect testdb w = Ok (con, w') -> con = testdb /\ steps w w' [].
Proof.
  unfold sqlite3_connect. intros [= <- <-]. split; [done|].
  unfold steps. simpl. rewrite database_of_insert, app_nil_r. repeat split; try done.
  intros f Hne. by rewrite lookup_insert_ne.
Qed.

Lemma read_csv_steps path w df w' :
  read_csv path w = Ok (df, w') ->
  csv_files w !! path = Some df /\ steps w w' [CsvRead path].
Proof.
  unfold read_csv. destruct (csv_files w !! path) as [d|]; [|discriminate].
  intros [= <- <-]. split; [done|]. unfold steps. simpl. done.
Qed.

Lemma steps_same_database w w' evs :
  steps w w' evs -> Forall (fun ev => match ev with CsvRead _ => True | _ => False end) evs ->
  database_of w' testdb = database_of w testdb.
Proof.
  intros S. apply steps_database in S. revert S.
  generalize (database_of w testdb) (database_of w' testdb) (foreign_keys w).
  induction evs as [|[p|] evs IH]; simpl; intros db db' fk S Hall.
  - done.
  - inversion Hall; subst. eauto.
  - inversion Hall; subst. done.
Qed.

Lemma bulk_load_run w w' :
  cell_16 w = Ok (tt, w') ->
  exists customers products orders tr,
    csv_files w !! "data/customers.csv" = Some customers /\
    csv_files w !! "data/products.csv" = Some products /\
    csv_files w !! "data/orders.csv" = Some orders /\
    steps w w' (CsvRead "data/customers.csv" :: CsvRead "data/products.csv" ::
                CsvRead "data/orders.csv" :: logged testdb tr) /\
    statements tr =
      bulk_statements (bool_decide (is_Some (database_of w testdb !! "customers")))
                      "customers" customers ++
      bulk_statements (bool_decide (is_Some (database_of w testdb !! "products")))
                      "products" products ++
      bulk_statements (bool_decide (is_Some (database_of w testdb !! "orders")))
                      "orders" orders /\
    database_of w' testdb =
      <["orders" := frame_table orders]>
        (<["products" := frame_table products]>
           (<["customers" := frame_table customers]> (database_of w testdb))).
Proof.
  unfold cell_16. intros H.
  apply bind_ok in H as (con & w0 & H0 & H).
  apply sqlite3_connect_steps in H0 as [-> S0].
  apply bind_ok in H as (customers & w1 & H1 & H).
  apply read_csv_steps in H1 as [C1 S1].
  apply bind_ok in H as (products & w2 & H2 & H).
  apply read_csv_steps in H2 as [C2 S2].
  apply bind_ok in H as (orders & w3 & H3 & H).
  apply read_csv_steps in H3 as [C3 S3].
  apply bind_ok in H as ([] & w4 & H4 & H).
  apply to_sql_replace in H4 as (tr4 & S4 & St4 & D4).
  apply bind_ok in H as ([] & w5 & H5 & H).
  apply to_sql_replace in H5 as (tr5 & S5 & St5 & D5).
  apply to_sql_replace in H as (tr6 & S6 & St6 & D6).
  pose proof (steps_trans _ _ _ _ _ (steps_trans _ _ _ _ _ (steps_trans _ _ _ _ _ S0 S1) S2) S3)
    as S. simpl in S.
  assert (D3 : database_of w3 testdb = database_of w testdb).
  { apply (steps_same_database _ _ _ S). repeat constructor. }
  exists customers, products, orders, (tr4 ++ tr5 ++ tr6).
  assert (csv_files w0 = csv_files w) as E0 by by destruct S0.
  assert (csv_files w1 = csv_files w) as E1
    by (destruct S1 as (-> & _); done).
  assert (csv_files w2 = csv_files w) as E2
    by (destruct S2 as (-> & _); done).
  rewrite E0 in C1. rewrite E1 in C2. rewrite E2 in C3.
  do 3 (split; [done|]). split; [|split].
  - pose proof (steps_trans _ _ _ _ _ (steps_trans _ _ _ _ _
                 (steps_trans _ _ _ _ _ S S4) S5) S6) as S'.
    unfold logged in *. rewrite !map_app. simpl in S'.
    by rewrite <- !app_assoc in S'.
  - unfold statements in *. rewrite !map_app, St4, St5, St6, D5, D4, D3.
    by rewrite !lookup_insert_ne.
  - by rewrite D6, D5, D4, D3.
Qed.

(** ** The whole notebook *)

Lemma steps_magic w w' evs : steps w w' evs -> sql_magic w' = sql_magic w.
Proof. by intros (_ & _ & H & _). Qed.

Lemma queries_run qs : forall w w',
  sql_magic w = Some testdb ->
  run_cells (map (fun q => show (sql [Query q])) qs) w = Ok (tt, w') ->
  steps w w' (asked (database_of w testdb) qs) /\
  database_of w' testdb = database_of w testdb /\
  Forall (fun q => exists names rows,
            eval_query (database_of w testdb) q = Ok (names, rows)) qs.
Proof.
  induction qs as [|q qs IH]; intros w w' Hm H.
  - injection H as <-. split; [apply steps_refl|]. done.
  - simpl map in H. apply run_cells_cons in H as (w1 & H1 & H).
    apply show_ok in H1 as (rows & H1).
    apply sql_steps in H1 as (d & tr & E & S & D); [|done].
    apply query_trace in E as (-> & -> & names & E).
    apply IH in H as (S' & D' & F); [|by rewrite (steps_magic _ _ _ S)].
    rewrite D in *. split; [|split].
    + exact (steps_trans _ _ _ _ _ S S').
    + done.
    + constructor; eauto.
Qed.

Lemma notebook_run w w' :
  notebook w = Ok (tt, w') ->
  exists tr6 d6 tr10 d10 customers products orders trL,
    let w5 := World (csv_files w) (db_files w) (foreign_keys w) (Some testdb) (journal w) in
    let dL := <["orders" := frame_table orders]>
                (<["products" := frame_table products]>
                   (<["customers" := frame_table customers]> d10)) in
    csv_files w !! "data/customers.csv" = Some customers /\
    csv_files w !! "data/products.csv" = Some products /\
    csv_files w !! "data/orders.csv" = Some orders /\
    steps w5 w'
      (logged testdb (tr6 ++ (Query all_customers, d6, d6) :: tr10) ++
       asked d10 sample_queries ++
       CsvRead "data/customers.csv" :: CsvRead "data/products.csv" ::
       CsvRead "data/orders.csv" :: logged testdb trL ++
       asked dL later_queries) /\
    statements tr6 = cell_6_statements /\ view d6 = empty_view /\
    seen tr10 = cell_10_seen /\ view d10 = sample_view /\
    (forall t, is_notebook_table t = false -> d10 !! t = database_of w testdb !! t) /\
    statements trL =
      bulk_statements true "customers" customers ++
      bulk_statements true "products" products ++
      bulk_statements true "orders" orders /\
    database_of w' testdb = dL /\
    Forall (fun q => exists names rows, eval_query dL q = Ok (names, rows)) later_queries.
Proof.
  unfold notebook, notebook_cells. intros H.
  apply run_cells_app in H as (w1 & H1 & H).
  apply run_cells_app in H as (w2 & H2 & H).
  apply run_cells_app in H as (w3 & H3 & H4).
  pose proof (setup_magic _ _ H1) as Hm1.
  apply setup_run in H1 as (w5 & tr6 & d6 & tr10 & -> & S1 & St6 & V6 & Se10 & V10 & O10).
  change sample_cells with (map (fun q => show (sql [Query q])) sample_queries) in H2.
  apply queries_run in H2 as (S2 & D2 & _); [|done].
  apply run_cells_cons in H3 as (w3' & H3 & [= <-]).
  apply bulk_load_run in H3 as (customers & products & orders & trL & C1 & C2 & C3 & S3 & StL & D3).
  change query_cells with (map (fun q => show (sql [Query q])) later_queries) in H4.
  apply queries_run in H4 as (S4 & D4 & F4);
    [|by rewrite (steps_magic _ _ _ S3), (steps_magic _ _ _ S2)].
  assert (csv_files w2 = csv_files w) as Ec.
  { destruct S2 as (-> & _). by destruct S1 as (-> & _). }
  rewrite Ec in C1, C2, C3. rewrite D2 in *.
  apply view_lookups in V10 as Hl. destruct Hl as (Lc & Lp & Lo).
  rewrite Lc, Lp, Lo in StL. simpl bool_decide in StL.
  exists tr6, d6, tr10, (database_of w1 testdb), customers, products, orders, trL.
  simpl. rewrite D3 in *.
  do 3 (split; [done|]). split.
  - pose proof (steps_trans _ _ _ _ _ (steps_trans _ _ _ _ _
                 (steps_trans _ _ _ _ _ S1 S2) S3) S4) as S.
    by rewrite <- !app_assoc in S.
  - split; [exact St6|]. split; [exact V6|]. split; [exact Se10|].
    split; [exact V10|]. split; [exact O10|]. split; [exact StL|].
    split; [exact D4|exact F4].
Qed.

(** ** Reading the journal *)

Lemma executed_app evs1 evs2 : executed (evs1 ++ evs2) = executed evs1 ++ executed evs2.
Proof. apply flat_map_app. Qed.

Lemma csv_reads_app evs1 evs2 : csv_reads (evs1 ++ evs2) = csv_reads evs1 ++ csv_reads evs2.
Proof. apply flat_map_app. Qed.

Lemma seen_events_logged tr : seen_events (logged testdb tr) = seen tr.
Proof. induction tr as [|x tr IH]; simpl; [done|]. by rewrite IH. Qed.

Lemma executed_logged tr : executed (logged testdb tr) = statements tr.
Proof. induction tr as [|x tr IH]; simpl; [done|]. by rewrite IH. Qed.

Lemma csv_reads_logged tr : csv_reads (logged testdb tr) = [].
Proof. induction tr as [|x tr IH]; simpl; done. Qed.

Lemma executed_asked db qs : executed (asked db qs) = map Query qs.
Proof. induction qs as [|q qs IH]; simpl; [done|]. by rewrite IH. Qed.

Lemma csv_reads_asked db qs : csv_reads (asked db qs) = [].
Proof. induction qs as [|q qs IH]; simpl; done. Qed.

Lemma seen_no_insert (P : stmt * tables * tables -> bool) tr :
  (forall s b a, is_insert s = false -> P (s, b, a) = true) ->
  forallb (fun s => negb (is_insert s)) (statements tr) = true ->
  forallb P (seen tr) = true.
Proof.
  intros HP. induction tr as [|[[s b] a] tr IH]; simpl; [done|].
  intros H. apply andb_true_iff in H as [Hs H].
  rewrite IH by done. rewrite HP; [done|]. by destruct (is_insert s).
Qed.

Lemma intact_not_insert s b a : is_insert s = false -> intact_after_insert (s, b, a) = true.
Proof. by destruct s. Qed.

Lemma follows_not_insert s b a : is_insert s = false -> follows_references (s, b, a) = true.
Proof. by destruct s. Qed.

Lemma run_cells_join cells1 : forall cells2 w w1 w',
  run_cells cells1 w = Ok (tt, w1) -> run_cells cells2 w1 = Ok (tt, w') ->
  run_cells (cells1 ++ cells2) w = Ok (tt, w').
Proof.
  induction cells1 as [|c cells1 IH]; intros cells2 w w1 w' H1 H2.
  - injection H1 as <-. done.
  - apply run_cells_cons in H1 as (w0 & Hc & H1). simpl.
    unfold mbind, nb_bind. rewrite Hc. by eapply IH.
Qed.

Lemma steps_journal w w' evs : steps w w' evs -> journal w' = journal w ++ evs.
Proof. by intros (_ & _ & _ & _ & H & _). Qed.

(** ** Referential integrity (C1) *)

Lemma setup_intact w w1 :
  run_cells setup_cells w = Ok (tt, w1) ->
  exists evs,
    journal w1 = journal w ++ evs /\
    forallb intact_after_insert (seen_events evs) = true /\
    forallb follows_references (seen_events evs) = true.
Proof.
  intros H. apply setup_run in H as (w5 & tr6 & d6 & tr10 & -> & S & St6 & V6 & Se10 & _).
  eexists. split; [exact (steps_journal _ _ _ S)|].
  rewrite seen_events_logged. unfold seen. rewrite map_app. fold (seen tr6).
  simpl map. fold (seen tr10). rewrite Se10, !forallb_app.
  rewrite (seen_no_insert intact_after_insert), (seen_no_insert follows_references).
  - split; vm_compute; reflexivity.
  - apply follows_not_insert.
  - by rewrite St6.
  - apply intact_not_insert.
  - by rewrite St6.
Qed.

Lemma ref_integrity_view db v : view db = v -> ref_integrity db = ref_ok v.
Proof. unfold ref_integrity. by intros ->. Qed.

Lemma loaded_view db customers products orders :
  view (<["orders" := orders]> (<["products" := products]> (<["customers" := customers]> db)))
  = (Some customers, Some products, Some orders).
Proof. unfold view. by rewrite !lookup_insert_eqb. Qed.

(** C1, as amended: in a run of the notebook the tables are referentially
    intact after each of the INSERT statements of cell 10, whatever the
    engine's foreign-key setting; after the bulk load the three tables hold
    the rows of the CSV files, so that they are intact exactly when the CSV
    rows are. *)
Theorem referential_integrity_of_the_runs w w1 :
  run_cells setup_cells w = Ok (tt, w1) ->
  (exists evs,
     journal w1 = journal w ++ evs /\
     forallb intact_after_insert (seen_events evs) = true) /\
  ref_integrity (database_of w1 testdb) = true /\
  forall w',
    run_cells remaining_cells w1 = Ok (tt, w') ->
    exists customers products orders,
      csv_files w !! "data/customers.csv" = Some customers /\
      csv_files w !! "data/products.csv" = Some products /\
      csv_files w !! "data/orders.csv" = Some orders /\
      view (database_of w' testdb) =
        (Some (frame_table customers), Some (frame_table products),
         Some (frame_table orders)) /\
      ref_integrity (database_of w' testdb) =
        ref_ok (Some (frame_table customers), Some (frame_table products),
                Some (frame_table orders)).
Proof.
  intros H. split; [|split].
  - apply setup_intact in H as (evs & ? & ? & _). eauto.
  - apply setup_run in H as (_ & _ & _ & _ & _ & _ & _ & _ & _ & V & _).
    by rewrite (ref_integrity_view _ _ V).
  - intros w' H'.
    pose proof (run_cells_join _ _ _ _ _ H H') as Hn.
    apply notebook_run in Hn
      as (tr6 & d6 & tr10 & d10 & customers & products & orders & trL & Hn).
    cbv zeta in Hn. destruct Hn as (C1 & C2 & C3 & _ & _ & _ & _ & _ & _ & _ & D & _).
    exists customers, products, orders. do 3 (split; [done|]).
    assert (V : view (database_of w' testdb) =
                (Some (frame_table customers), Some (frame_table products),
                 Some (frame_table orders))) by (rewrite D; apply loaded_view).
    split; [exact V|]. by apply ref_integrity_view.
Qed.

(** ** Foreign keys on insertion *)

Lemma orders_not_null oid cid pid addr :
  is_null oid = false -> is_null cid = false -> is_null pid = false ->
  is_null addr = false ->
  check_not_null "orders" orders_schema [oid; cid; pid; addr] = Ok tt.
Proof.
  intros No Nc Np Na.
  destruct oid; try discriminate; destruct cid; try discriminate;
    destruct pid; try discriminate; destruct addr; try discriminate; reflexivity.
Qed.

Lemma orders_foreign_keys (db : database) rows_c rows_p oid cid pid addr :
  db !! "customers" = Some (Table customers_schema rows_c) ->
  db !! "products" = Some (Table products_schema rows_p) ->
  is_null cid = false -> is_null pid = false ->
  check_foreign_keys (fun p => db !! p) orders_schema [oid; cid; pid; addr] =
  if has_key (Table customers_schema rows_c) "id" cid &&
     has_key (Table products_schema rows_p) "id" pid
  then Ok tt else Err ForeignKeyFailed.
Proof.
  intros Lc Lp Nc Np. unfold check_foreign_keys.
  cbn [orders_schema sch_foreign_keys check_each fk_column fk_table fk_parent_column].
  change (field _ "customer_id" [oid; cid; pid; addr]) with (Some cid).
  change (field _ "product_id" [oid; cid; pid; addr]) with (Some pid).
  rewrite Lc, Lp.
  change (is_key_column (Table customers_schema rows_c) "id") with true.
  change (is_key_column (Table products_schema rows_p) "id") with true.
  cbn [negb].
  destruct cid; try discriminate; destruct pid; try discriminate;
    cbn [rbind];
    destruct (has_key (Table customers_schema rows_c) "id" _);
    destruct (has_key (Table products_schema rows_p) "id" _); reflexivity.
Qed.

(** X30: what a FOREIGN KEY clause does to an INSERT into orders, for
    each setting of the engine.  For a row of three 64-bit integers and a
    text, as the notebook writes its orders: with foreign keys enforced the
    INSERT fails with a foreign-key violation when its customer or its
    product is missing and succeeds when both are there; with the setting
    off, which is how the notebook runs, it succeeds in both cases.  The
    notebook inserts customers and products first: every INSERT into
    orders of a run finds the rows it names. *)
Theorem orders_insert_and_foreign_keys fk db rows_c rows_p rows_o
    (oid cid pid : Z) (addr : string) :
  view db = (Some (Table customers_schema rows_c), Some (Table products_schema rows_p),
             Some (Table orders_schema rows_o)) ->
  int64_ok oid && int64_ok cid && int64_ok pid = true ->
  exec fk (InsertInto "orders" ["id"; "customer_id"; "product_id"; "delivery_address"]
                      [[VInt oid; VInt cid; VInt pid; VText addr]]) db =
  (if fk && negb (has_key (Table customers_schema rows_c) "id" (VInt cid) &&
                  has_key (Table products_schema rows_p) "id" (VInt pid))
   then Err ForeignKeyFailed
   else Ok (<["orders" := Table orders_schema
                                (rows_o ++ [[VInt oid; VInt cid; VInt pid; VText addr]])]> db,
            []))
  /\
  forall w w1,
    run_cells setup_cells w = Ok (tt, w1) ->
    exists evs,
      journal w1 = journal w ++ evs /\
      forallb follows_references (seen_events evs) = true.
Proof.
  intros V _. split.
  2: { intros w w1 H. apply setup_intact in H as (evs & ? & _ & ?). eauto. }
  apply view_lookups in V as (Lc & Lp & Lo).
  unfold exec, insert_into. rewrite Lo.
  cbn [tbl_schema tbl_rows].
  change (check_columns orders_schema _) with (@Ok unit tt).
  cbn [rbind insert_rows length Nat.eqb negb].
  change (full_row orders_schema _ [VInt oid; VInt cid; VInt pid; VText addr])
    with [VInt oid; VInt cid; VInt pid; VText addr].
  unfold check_row. rewrite orders_not_null by done.
  change (check_unique "orders" orders_schema rows_o _) with (@Ok unit tt).
  change (store_row orders_schema rows_o [VInt oid; VInt cid; VInt pid; VText addr])
    with (rows_o ++ [[VInt oid; VInt cid; VInt pid; VText addr]]).
  cbn [rbind]. destruct fk; [|reflexivity].
  rewrite (orders_foreign_keys _ _ _ _ _ _ _ Lc Lp) by done. cbn [andb].
  by destruct (has_key _ "id" (VInt cid) && has_key _ "id" (VInt pid)).
Qed.

(** ** The schemas (C2) *)

Lemma cell_6_run w w1 :
  run_cells [cell_0; cell_5; show cell_6] w = Ok (tt, w1) ->
  view (database_of w1 testdb) = empty_view.
Proof.
  intros H.
  apply run_cells_cons in H as (w0 & H0 & H). injection H0 as <-.
  apply run_cells_cons in H as (w5 & H5 & H). apply sql_connect_ok in H5.
  apply run_cells_cons in H as (w6 & H6 & [= <-]). apply show_ok in H6 as (r6 & H6).
  apply sql_steps in H6 as (d6 & tr6 & E6 & S6 & D6); [|by subst].
  apply cell_6_effect in E6 as (_ & V6 & _). by rewrite D6.
Qed.

Lemma key_rejects_duplicate t s rows r c v :
  key_columns s = [c] -> field s c r = Some v ->
  has_key (Table s rows) c v = true ->
  check_unique t s rows r = Err (UniqueFailed t c).
Proof.
  unfold key_columns, check_unique. intros Hk Hf Hh.
  induction (sch_columns s) as [|k cols IH]; simpl in *; [done|].
  destruct (col_primary_key k) eqn:Ek; simpl in *.
  - injection Hk as <- Hk. by rewrite Hf, Hh.
  - by apply IH.
Qed.

Lemma no_key_accepts t s rows r : key_columns s = [] -> check_unique t s rows r = Ok tt.
Proof.
  unfold key_columns, check_unique. intros Hk.
  induction (sch_columns s) as [|k cols IH]; simpl in *; [done|].
  destruct (col_primary_key k); simpl in *; [done|]. by apply IH.
Qed.

(** C2: after cell 6 the three tables exist, empty, with the schemas of
    the data model: customers and products keyed by a unique integer id,
    orders without a key, so that an order id may repeat, with its two
    references, and every column of the three tables declared NOT NULL. *)
Theorem schemas_match_data_model w w1 :
  run_cells [cell_0; cell_5; show cell_6] w = Ok (tt, w1) ->
  view (database_of w1 testdb) =
    (Some (Table customers_schema []), Some (Table products_schema []),
     Some (Table orders_schema [])) /\
  (declared customers_schema =
     [("id", TInteger); ("name", TText); ("billing_address", TText)] /\
   key_columns customers_schema = ["id"] /\
   all_not_null customers_schema = true /\ sch_foreign_keys customers_schema = []) /\
  (declared products_schema = [("id", TInteger); ("price", TNumber)] /\
   key_columns products_schema = ["id"] /\
   all_not_null products_schema = true /\ sch_foreign_keys products_schema = []) /\
  (declared orders_schema =
     [("id", TInteger); ("customer_id", TNumber); ("product_id", TNumber);
      ("delivery_address", TText)] /\
   key_columns orders_schema = [] /\
   all_not_null orders_schema = true /\
   sch_foreign_keys orders_schema =
     [ForeignKey "customer_id" "customers" "id"; ForeignKey "product_id" "products" "id"]) /\
  (forall rows r v,
     field customers_schema "id" r = Some v ->
     has_key (Table customers_schema rows) "id" v = true ->
     check_unique "customers" customers_schema rows r = Err (UniqueFailed "customers" "id")) /\
  (forall rows r v,
     field products_schema "id" r = Some v ->
     has_key (Table products_schema rows) "id" v = true ->
     check_unique "products" products_schema rows r = Err (UniqueFailed "products" "id")) /\
  (forall rows r, check_unique "orders" orders_schema rows r = Ok tt).
Proof.
  intros H. split; [by apply cell_6_run in H|].
  do 3 (split; [done|]). split; [|split].
  - intros rows r v. by apply key_rejects_duplicate.
  - intros rows r v. by apply key_rejects_duplicate.
  - intros rows r. by apply no_key_accepts.
Qed.

(** ** The life of the rows (C3) *)

Lemma place_keeps key r rows :
  sublist rows (place key r rows) /\ length (place key r rows) = S (length rows).
Proof.
  induction rows as [|r' rows [IH1 IH2]]; simpl.
  - split; [apply sublist_nil_l|done].
  - destruct (value_compare (key r) (key r')); simpl.
    + split; [by apply sublist_skip|by rewrite IH2].
    + split; [by apply sublist_cons|done].
    + split; [by apply sublist_skip|by rewrite IH2].
Qed.

Lemma store_row_keeps s rows r :
  sublist rows (store_row s rows r) /\ length (store_row s rows r) = S (length rows).
Proof.
  unfold store_row. destruct (rowid_column s).
  - apply place_keeps.
  - split; [by apply sublist_inserts_r|]. rewrite length_app. simpl. lia.
Qed.

Lemma stored_keeps s cols new : forall rows,
  sublist rows (stored s cols rows new) /\
  length (stored s cols rows new) = (length rows + length new)%nat.
Proof.
  unfold stored. induction new as [|vals new IH]; intros rows; simpl.
  - split; [done|lia].
  - destruct (IH (store_row s rows (full_row s cols vals))) as [IH1 IH2].
    destruct (store_row_keeps s rows (full_row s cols vals)) as [H1 H2].
    split; [by etransitivity|]. rewrite IH2, H2. lia.
Qed.

Lemma rows_of_insert (db : database) t tb k :
  rows_of (<[t := tb]> db) k = if String.eqb t k then tbl_rows tb else rows_of db k.
Proof.
  unfold rows_of. rewrite lookup_insert_eqb. by destruct (String.eqb t k).
Qed.

Lemma rows_of_delete (db : database) t k :
  rows_of (delete t db) k = if String.eqb t k then [] else rows_of db k.
Proof.
  unfold rows_of. rewrite lookup_delete_eqb. by destruct (String.eqb t k).
Qed.

(** No statement of the engine's language as modelled changes or removes
    a row, except DROP TABLE. *)
Lemma exec_rows_change fk s db db' rows t :
  exec fk s db = Ok (db', rows) -> rows_change s t (rows_of db t) (rows_of db' t).
Proof.
  intros H. apply exec_effect in H.
  destruct s as [ie t'|t' sch|t' cols new|q]; simpl in *.
  - destruct H as [-> _]. rewrite rows_of_delete. by destruct (String.eqb t' t).
  - destruct H as (Hn & _ & -> & _). rewrite rows_of_insert.
    destruct (String.eqb_spec t' t) as [->|]; [|done].
    unfold rows_of. by rewrite Hn.
  - destruct H as (tb & Htb & _ & _ & ->). rewrite rows_of_insert.
    destruct (String.eqb_spec t' t) as [->|]; [|done].
    unfold rows_of at 1 2. rewrite Htb. simpl. apply stored_keeps.
  - by destruct H as [-> _].
Qed.

Lemma valid_run_lifecycle fk evs : forall db db',
  valid_run fk db evs db' -> Forall lifecycle_event evs.
Proof.
  induction evs as [|[p|f s b a] evs IH]; simpl; intros db db' H.
  - constructor.
  - constructor; [done|]. eauto.
  - destruct H as (_ & _ & [rows E] & H). constructor; [|eauto].
    intros t. by eapply exec_rows_change.
Qed.

Lemma valid_run_files fk evs : forall db db',
  valid_run fk db evs db' -> Forall (fun f => f = testdb) (database_files evs).
Proof.
  induction evs as [|[p|f s b a] evs IH]; simpl; intros db db' H.
  - constructor.
  - eauto.
  - destruct H as (-> & _ & _ & H). constructor; [done|eauto].
Qed.

Lemma statements_app tr1 tr2 : statements (tr1 ++ tr2) = statements tr1 ++ statements tr2.
Proof. apply map_app. Qed.

Lemma statements_cons s b a tr : statements ((s, b, a) :: tr) = s :: statements tr.
Proof. reflexivity. Qed.

(** C3: a complete run executes the statements of [notebook_statements]
    and no other: the three DROP TABLE and three CREATE TABLE of cell 6
    first, the INSERT statements with the sample rows, and for each CSV file
    the drop, the creation and the INSERT of the bulk load; the rest are
    queries.  None of them changes or removes a row of a table that it does
    not drop. *)
Theorem notebook_lifecycle w w' :
  notebook w = Ok (tt, w') ->
  exists customers products orders evs,
    csv_files w !! "data/customers.csv" = Some customers /\
    csv_files w !! "data/products.csv" = Some products /\
    csv_files w !! "data/orders.csv" = Some orders /\
    journal w' = journal w ++ evs /\
    executed evs = notebook_statements customers products orders /\
    firstn 6 (executed evs) =
      [DropTable true "customers"; DropTable true "products"; DropTable true "orders";
       CreateTable "customers" customers_schema; CreateTable "products" products_schema;
       CreateTable "orders" orders_schema] /\
    Forall lifecycle_event evs.
Proof.
  intros H. apply notebook_run in H
    as (tr6 & d6 & tr10 & d10 & customers & products & orders & trL & H).
  cbv zeta in H. destruct H as (C1 & C2 & C3 & S & St6 & _ & Se10 & _ & _ & StL & _ & _).
  eexists customers, products, orders, _.
  do 3 (split; [done|]). split; [exact (steps_journal _ _ _ S)|].
  assert (St10 : statements tr10 = cell_10_statements).
  { assert (map (fun x => fst (fst x)) (seen tr10) = statements tr10) as <-.
    { unfold seen, statements. rewrite map_map. done. }
    rewrite Se10. vm_compute. reflexivity. }
  assert (E : executed
    (logged testdb (tr6 ++ (Query all_customers, d6, d6) :: tr10) ++
     asked d10 sample_queries ++
     CsvRead "data/customers.csv" :: CsvRead "data/products.csv" ::
     CsvRead "data/orders.csv" :: logged testdb trL ++
     asked (<["orders" := frame_table orders]>
              (<["products" := frame_table products]>
                 (<["customers" := frame_table customers]> d10))) later_queries) =
    notebook_statements customers products orders).
  { rewrite !executed_app, executed_logged, executed_asked.
    change (executed (CsvRead _ :: CsvRead _ :: CsvRead _ :: ?l)) with (executed l).
    rewrite executed_app, executed_logged, executed_asked.
    rewrite statements_app, statements_cons, St6, St10, StL.
    unfold notebook_statements. by rewrite <- !app_assoc. }
  split; [exact E|]. split.
  - rewrite E. reflexivity.
  - apply steps_database in S. by eapply valid_run_lifecycle.
Qed.

(** ** Inputs and outputs (C7) *)

Lemma csv_reads_three l :
  csv_reads (CsvRead "data/customers.csv" :: CsvRead "data/products.csv" ::
             CsvRead "data/orders.csv" :: l) =
  "data/customers.csv" :: "data/products.csv" :: "data/orders.csv" :: csv_reads l.
Proof. reflexivity. Qed.

(** C7: a complete run reads the three CSV files and nothing else, sends
    every statement to the database file testdb.sqlite, which the [%sql]
    magic and the Python connection both name, and leaves in it the three
    tables holding the frames read from the files of the same names; its
    other tables, the other database files and the CSV files are as
    before. *)
Theorem notebook_inputs_and_outputs w w' :
  notebook w = Ok (tt, w') ->
  exists customers products orders evs,
    csv_files w !! "data/customers.csv" = Some customers /\
    csv_files w !! "data/products.csv" = Some products /\
    csv_files w !! "data/orders.csv" = Some orders /\
    journal w' = journal w ++ evs /\
    csv_reads evs = ["data/customers.csv"; "data/products.csv"; "data/orders.csv"] /\
    Forall (fun f => f = "testdb.sqlite") (database_files evs) /\
    sqlite_url_path "sqlite:///testdb.sqlite" = Some "testdb.sqlite" /\
    view (database_of w' "testdb.sqlite") =
      (Some (frame_table customers), Some (frame_table products),
       Some (frame_table orders)) /\
    (forall t, is_notebook_table t = false ->
               database_of w' "testdb.sqlite" !! t = database_of w "testdb.sqlite" !! t) /\
    csv_files w' = csv_files w /\
    (forall f, f <> "testdb.sqlite" -> db_files w' !! f = db_files w !! f).
Proof.
  intros H. apply notebook_run in H
    as (tr6 & d6 & tr10 & d10 & customers & products & orders & trL & H).
  cbv zeta in H. destruct H as (C1 & C2 & C3 & S & _ & _ & _ & _ & O10 & _ & D & _).
  eexists customers, products, orders, _.
  do 3 (split; [done|]). split; [exact (steps_journal _ _ _ S)|].
  split; [|split; [|split; [reflexivity|split; [|split; [|split]]]]].
  - rewrite !csv_reads_app, csv_reads_logged, csv_reads_asked, csv_reads_three.
    by rewrite csv_reads_app, csv_reads_logged, csv_reads_asked.
  - apply steps_database in S. by eapply valid_run_files.
  - fold testdb. rewrite D. apply loaded_view.
  - intros t Ht. fold testdb. rewrite D.
    pose proof (is_notebook_table_false _ Ht) as (? & ? & ?).
    rewrite !lookup_insert_ne by done. by apply O10.
  - by destruct S as (-> & _).
  - destruct S as (_ & _ & _ & Ho & _). exact Ho.
Qed.

(** ** The bulk load replaces the tables (C9) *)

Lemma matches_found sc : forall k t c,
  matches k sc t c <> [] ->
  exists a n, In (a, n) sc /\ ident_eqb n c = true /\
              match t with Some x => ident_eqb a x = true | None => True end.
Proof.
  induction sc as [|[a n] sc IH]; intros k t c H; simpl in *; [done|].
  destruct (ident_eqb n c) eqn:En; simpl in H.
  - destruct t as [x|].
    + destruct (ident_eqb a x) eqn:Ea.
      * exists a, n. eauto.
      * destruct (IH _ _ _ H) as (a' & n' & ? & ? & ?). exists a', n'. eauto.
    + exists a, n. eauto.
  - destruct (IH _ _ _ H) as (a' & n' & ? & ? & ?). exists a', n'. eauto.
Qed.

Lemma resolve_found sc t c i :
  resolve sc t c = Ok i ->
  exists a n, In (a, n) sc /\ ident_eqb n c = true /\
              match t with Some x => ident_eqb a x = true | None => True end.
Proof.
  unfold resolve. intros H. apply (matches_found sc 0 t c).
  by destruct (matches 0 sc t c).
Qed.

Lemma has_column_found names c n :
  In n names -> ident_eqb n c = true -> has_column names c = true.
Proof.
  intros Hin He. unfold has_column. apply existsb_exists. exists n.
  split; [done|]. by rewrite ident_eqb_sym.
Qed.

(** A SELECT that succeeds has resolved its first result column. *)
Lemma select_rows_items sc rows items wh gb hv ob lim res :
  select_rows sc rows items wh gb hv ob lim = Ok res ->
  exists agg, check_each (check_item agg sc) items = Ok tt.
Proof.
  unfold select_rows. intros H. apply rbind_ok in H as ([] & H & _). eauto.
Qed.

Lemma india_needs_column (db : database) tb res :
  db !! "orders" = Some tb ->
  eval_query db orders_to_india = Ok res ->
  has_column (column_names (tbl_schema tb)) "delivery_country" = true.
Proof.
  intros L H. unfold orders_to_india, simple, from in H. simpl in H.
  unfold scan_table in H. rewrite L in H. simpl in H.
  apply select_rows_items in H as (agg & H). simpl in H.
  apply rbind_ok in H as (_ & _ & H). apply rbind_ok in H as ([] & H & _).
  apply rbind_ok in H as (i & H & _).
  apply resolve_found in H as (a & n & Hin & He & _).
  apply in_map_iff in Hin as (n' & [= _ <-] & Hin).
  by eapply has_column_found.
Qed.

Lemma shipped_needs_column (db : database) to tc tp res :
  db !! "orders" = Some to -> db !! "customers" = Some tc -> db !! "products" = Some tp ->
  eval_query db spent_abroad = Ok res ->
  has_column (column_names (tbl_schema tc)) "billing_country" = true.
Proof.
  intros Lo Lc Lp H. unfold spent_abroad in H. simpl in H.
  apply rbind_ok in H as (joined & H & _).
  apply rbind_ok in H as (src & H & _).
  apply rbind_ok in H as (inner & H & _).
  unfold scan_table in H. rewrite Lo, Lc, Lp in H. simpl in H.
  apply select_rows_items in H as (agg & H). simpl in H.
  apply rbind_ok in H as ([] & H & _).
  apply rbind_ok in H as (i & H & _).
  apply resolve_found in H as (a & n & Hin & He & Ha).
  rewrite !in_app_iff in Hin. destruct Hin as [[Hin|Hin]|Hin];
    apply in_map_iff in Hin as (n' & [= <- <-] & Hin); try discriminate.
  by eapply has_column_found.
Qed.

Lemma frame_constraint_free cols : constraint_free (frame_schema cols) = true.
Proof.
  unfold constraint_free, frame_schema. simpl. rewrite andb_true_r.
  by induction cols as [|c cols IH].
Qed.

Lemma sample_run w w1 :
  run_cells (setup_cells ++ sample_cells) w = Ok (tt, w1) ->
  sql_magic w1 = Some testdb /\ csv_files w1 = csv_files w /\
  view (database_of w1 testdb) = view sample_db.
Proof.
  intros H. apply run_cells_app in H as (w0 & H0 & H).
  pose proof (setup_magic _ _ H0) as Hm. pose proof (setup_view _ _ H0) as Hv.
  apply setup_run in H0 as (w5 & tr6 & d6 & tr10 & -> & S0 & _).
  change sample_cells with (map (fun q => show (sql [Query q])) sample_queries) in H.
  apply queries_run in H as (S & D & _); [|done].
  rewrite (steps_magic _ _ _ S), D. split; [done|]. split; [|done].
  destruct S as (-> & _). by destruct S0 as (-> & _).
Qed.

Lemma sql_query_error q w e :
  sql_magic w = Some testdb ->
  eval_query (database_of w testdb) q = Err e ->
  sql [Query q] w = Err e.
Proof.
  intros Hm H. unfold sql. rewrite Hm, execute_all_spec. simpl. by rewrite H.
Qed.

Lemma eval_spent_abroad (db db' : database) :
  view db = view db' -> eval_query db spent_abroad = eval_query db' spent_abroad.
Proof.
  intros V. apply view_lookups in V as (Lc & Lp & Lo).
  unfold spent_abroad. simpl. unfold scan_table. by rewrite Lc, Lp, Lo.
Qed.

(** C9: the bulk load leaves in each of the three tables exactly the rows
    of its CSV file, whatever the table held, under a schema without any
    constraint.  The columns delivery_country and billing_country are not
    in the schemas of cell 6: the queries that name them fail before the
    load, and succeed after it only when the CSV files have these
    columns. *)
Theorem bulk_load_replaces_tables w w1 w2 :
  run_cells (setup_cells ++ sample_cells) w = Ok (tt, w1) ->
  cell_16 w1 = Ok (tt, w2) ->
  exists customers products orders,
    csv_files w !! "data/customers.csv" = Some customers /\
    csv_files w !! "data/products.csv" = Some products /\
    csv_files w !! "data/orders.csv" = Some orders /\
    view (database_of w2 testdb) =
      (Some (Table (frame_schema (df_columns customers)) (df_rows customers)),
       Some (Table (frame_schema (df_columns products)) (df_rows products)),
       Some (Table (frame_schema (df_columns orders)) (df_rows orders))) /\
    constraint_free (frame_schema (df_columns customers)) = true /\
    constraint_free (frame_schema (df_columns products)) = true /\
    constraint_free (frame_schema (df_columns orders)) = true /\
    has_column (column_names orders_schema) "delivery_country" = false /\
    has_column (column_names customers_schema) "billing_country" = false /\
    cell_18 w1 = Err (NoSuchColumn "delivery_country") /\
    cell_39 w1 = Err (NoSuchColumn "c.billing_country") /\
    forall w3,
      run_cells query_cells w2 = Ok (tt, w3) ->
      has_column (map fst (df_columns orders)) "delivery_country" = true /\
      has_column (map fst (df_columns customers)) "billing_country" = true.
Proof.
  intros H1 H2. apply sample_run in H1 as (Hm & Hc & V).
  pose proof H2 as H2'.
  apply bulk_load_run in H2' as (customers & products & orders & trL & C1 & C2 & C3 & S & _ & D).
  rewrite Hc in C1, C2, C3.
  exists customers, products, orders. do 3 (split; [done|]).
  assert (VL : view (database_of w2 testdb) =
               (Some (frame_table customers), Some (frame_table products),
                Some (frame_table orders))) by (rewrite D; apply loaded_view).
  split; [exact VL|].
  do 3 (split; [apply frame_constraint_free|]).
  do 2 (split; [reflexivity|]).
  pose proof (view_lookups _ _ _ _ V) as (Lc & Lp & Lo).
  split; [|split].
  - unfold cell_18. apply sql_query_error; [done|].
    unfold orders_to_india, simple, from.
    rewrite (eval_query_1 _ sample_db) by done. vm_compute. reflexivity.
  - unfold cell_39. apply sql_query_error; [done|].
    rewrite (eval_spent_abroad _ sample_db) by done. vm_compute. reflexivity.
  - intros w3 H3.
    change query_cells with (map (fun q => show (sql [Query q])) later_queries) in H3.
    apply queries_run in H3 as (_ & _ & F); [|by rewrite (steps_magic _ _ _ S)].
    apply view_lookups in VL as (Lc' & Lp' & Lo').
    rewrite <- !frame_column_names.
    split.
    + assert (Hq : In orders_to_india later_queries) by (simpl; tauto).
      rewrite List.Forall_forall in F. destruct (F _ Hq) as (names & rows & E).
      exact (india_needs_column _ _ _ Lo' E).
    + assert (Hq : In spent_abroad later_queries) by (simpl; tauto).
      rewrite List.Forall_forall in F. destruct (F _ Hq) as (names & rows & E).
      exact (shipped_needs_column _ _ _ _ _ Lo' Lc' Lp' E).
Qed.

(** ** Errors in a run that stops at the first *)

Lemma bind_err {A B} (m : nb A) (k : A -> nb B) w e :
  (m ≫= k) w = Err e <->
  m w = Err e \/ exists a w1, m w = Ok (a, w1) /\ k a w1 = Err e.
Proof.
  unfold mbind, nb_bind. destruct (m w) as [[a w1]|e'].
  - split; [eauto|]. intros [|(a' & w' & [= <- <-] & H)]; done.
  - split; [intros [= <-]; eauto|]. intros [[= <-]|(a' & w' & ? & _)]; done.
Qed.

Lemma run_cells_error cells : forall w e,
  run_cells cells w = Err e <->
  exists pre c post w1,
    cells = pre ++ c :: post /\ run_cells pre w = Ok (tt, w1) /\ c w1 = Err e.
Proof.
  induction cells as [|c cells IH]; intros w e.
  - split; [discriminate|]. intros (pre & c & post & _ & H & _). by destruct pre.
  - simpl. rewrite bind_err. split.
    + intros [H|([] & w1 & Hc & H)].
      * exists [], c, cells, w. done.
      * apply IH in H as (pre & c' & post & w2 & -> & Hp & Hc').
        exists (c :: pre), c', post, w2. split; [done|]. split; [|done].
        simpl. unfold mbind, nb_bind. by rewrite Hc.
    + intros (pre & c' & post & w1 & E & Hp & Hc').
      destruct pre as [|c0 pre]; simpl in E; injection E as <- ->.
      * injection Hp as <-. by left.
      * apply run_cells_cons in Hp as (w0 & Hc & Hp). right. exists tt, w0.
        split; [done|]. apply IH. eauto 8.
Qed.

Lemma show_error (c : nb (list row)) w e : show c w = Err e <-> c w = Err e.
Proof.
  unfold show. rewrite bind_err. split; [|by left].
  intros [H|(rows & w1 & _ & H)]; done.
Qed.


(** ** With foreign keys off the first cells always run *)

Lemma insert_rows_unenforced p1 p2 t s cols new : forall rows,
  insert_rows false p1 t s cols rows new = insert_rows false p2 t s cols rows new.
Proof.
  induction new as [|vals new IH]; intros rows; simpl; [done|].
  destruct (negb _); [done|]. unfold check_row.
  destruct (check_not_null t s _) as [[]|]; simpl; [|done].
  destruct (check_unique t s rows _) as [[]|]; simpl; [|done]. apply IH.
Qed.

Lemma insert_unenforced (db : database) t cols new tb rows' :
  db !! t = Some tb ->
  check_columns (tbl_schema tb) cols = Ok tt ->
  insert_rows false (fun _ => None) t (tbl_schema tb) cols (tbl_rows tb) new = Ok rows' ->
  exec false (InsertInto t cols new) db =
  Ok (<[t := Table (tbl_schema tb) rows']> db, []).
Proof.
  intros L Hc Hi. unfold exec, insert_into. rewrite L, Hc. simpl.
  by rewrite (insert_rows_unenforced _ (fun _ => None)), Hi.
Qed.

Lemma drop_unenforced (db : database) t :
  exec false (DropTable true t) db = Ok (delete t db, []).
Proof.
  unfold exec, drop_table. destruct (db !! t) eqn:E; simpl; [done|].
  by rewrite delete_id.
Qed.

Lemma create_fresh fk (db : database) t s c cols :
  db !! t = None -> sch_columns s = c :: cols -> first_duplicate (column_names s) = None ->
  exec fk (CreateTable t s) db = Ok (<[t := Table s []]> db, []).
Proof.
  intros L Hc Hd. unfold exec, create_table. by rewrite L, Hc, Hd.
Qed.

Lemma exec_seq_step fk s ss db last db1 rows1 :
  exec fk s db = Ok (db1, rows1) ->
  (exists x, exec_seq fk ss db1 rows1 = Ok x) ->
  exists x, exec_seq fk (s :: ss) db last = Ok x.
Proof. intros E [[[d r] tr] H]. simpl. rewrite E, H. eauto. Qed.

Lemma cell_6_runs (db : database) last :
  exists x, exec_seq false cell_6_statements db last = Ok x.
Proof.
  unfold cell_6_statements.
  do 3 (eapply exec_seq_step; [apply drop_unenforced|]).
  eapply exec_seq_step.
  { eapply create_fresh; [|reflexivity|reflexivity].
    by rewrite !lookup_delete_eqb. }
  eapply exec_seq_step.
  { eapply create_fresh; [|reflexivity|reflexivity].
    by rewrite lookup_insert_eqb, !lookup_delete_eqb. }
  eapply exec_seq_step.
  { eapply create_fresh; [|reflexivity|reflexivity].
    by rewrite !lookup_insert_eqb, !lookup_delete_eqb. }
  simpl. eauto.
Qed.

Lemma cell_10_runs (db : database) last :
  view db = empty_view -> exists x, exec_seq false cell_10_statements db last = Ok x.
Proof.
  intros V. apply view_lookups in V as (Lc & Lp & Lo). unfold cell_10_statements.
  eapply exec_seq_step.
  { eapply insert_unenforced; [exact Lc|reflexivity|vm_compute; reflexivity]. }
  eapply exec_seq_step.
  { eapply insert_unenforced;
      [rewrite lookup_insert_eqb; exact Lp|reflexivity|vm_compute; reflexivity]. }
  eapply exec_seq_step.
  { eapply insert_unenforced;
      [rewrite !lookup_insert_eqb; exact Lo|reflexivity|vm_compute; reflexivity]. }
  eapply exec_seq_step.
  { eapply insert_unenforced;
      [rewrite !lookup_insert_eqb; reflexivity|reflexivity|vm_compute; reflexivity]. }
  eapply exec_seq_step.
  { eapply insert_unenforced;
      [rewrite !lookup_insert_eqb; reflexivity|reflexivity|vm_compute; reflexivity]. }
  simpl. eauto.
Qed.

Lemma sql_runs stmts w x :
  sql_magic w = Some testdb ->
  exec_seq (foreign_keys w) stmts (database_of w testdb) [] = Ok x ->
  exists rows w', sql stmts w = Ok (rows, w').
Proof.
  intros Hm H. unfold sql. rewrite Hm, execute_all_spec, H.
  destruct x as [[d r] tr]. eauto.
Qed.

(** Under the engine's stock setting the cells up to the sample rows run
    on whatever the database file holds. *)
Lemma setup_succeeds w :
  foreign_keys w = false -> exists w1, run_cells setup_cells w = Ok (tt, w1).
Proof.
  intros Hfk. unfold setup_cells.
  set (w5 := World (csv_files w) (db_files w) (foreign_keys w) (Some testdb) (journal w)).
  assert (H5 : cell_5 w = Ok (tt, w5)) by reflexivity.
  destruct (cell_6_runs (database_of w5 testdb) []) as [x6 E6].
  assert (Hf5 : foreign_keys w5 = false) by exact Hfk.
  rewrite <- Hf5 in E6.
  destruct (sql_runs cell_6_statements w5 x6 eq_refl E6) as (r6 & w6 & H6).
  pose proof H6 as H6'.
  apply sql_steps in H6' as (d6 & tr6 & E6' & S6 & D6); [|done].
  apply cell_6_effect in E6' as (_ & V6 & _).
  assert (Hm6 : sql_magic w6 = Some testdb) by by rewrite (steps_magic _ _ _ S6).
  assert (Hf6 : foreign_keys w6 = false) by (destruct S6 as (_ & -> & _); done).
  assert (exists r8 w8, cell_8 w6 = Ok (r8, w8)) as (r8 & w8 & H8).
  { unfold cell_8. destruct (sql_query_result all_customers w6 ["id"; "name"; "billing_address"] [])
      as [w8 H8]; [done| |eauto].
    apply view_lookups in V6 as (Lc & _ & _). rewrite D6.
    unfold all_customers, simple, from.
    rewrite (eval_query_1 _ fresh) by (rewrite Lc; reflexivity).
    vm_compute. reflexivity. }
  pose proof H8 as H8'.
  apply sql_steps in H8' as (d8 & tr8 & E8 & S8 & D8); [|done].
  apply query_trace in E8 as (-> & _ & _).
  assert (Hm8 : sql_magic w8 = Some testdb) by by rewrite (steps_magic _ _ _ S8).
  assert (Hf8 : foreign_keys w8 = false) by (destruct S8 as (_ & -> & _); done).
  assert (V8 : view (database_of w8 testdb) = empty_view) by by rewrite D8, D6.
  destruct (cell_10_runs (database_of w8 testdb) [] V8) as [x10 E10].
  rewrite <- Hf8 in E10.
  destruct (sql_runs _ _ _ Hm8 E10) as (r10 & w10 & H10).
  exists w10. simpl. unfold mbind, nb_bind, show, cell_0, mret, nb_ret.
  rewrite H5. unfold cell_6, cell_10. simpl. unfold mbind, nb_bind.
  by rewrite H6, H8, H10.
Qed.

(** With foreign keys enforced the notebook does not get through: the
    bulk load drops customers while the sample orders still name its rows. *)
Lemma enforced_run_stops :
  notebook (World (csv_files example_world) ∅ true None []) = Err ForeignKeyFailed.
Proof. vm_compute. reflexivity. Qed.

(** ** The theorems at work on the example worlds *)

Lemma world_after_ok (m : nb unit) w :
  is_ok (m w) = true -> m w = Ok (tt, world_after m w).
Proof.
  unfold world_after. destruct (m w) as [[[] w']|e]; [reflexivity|discriminate].
Defined.

Lemma setup_example :
  run_cells setup_cells example_world =
  Ok (tt, world_after (run_cells setup_cells) example_world).
Proof. apply world_after_ok. vm_compute. reflexivity. Defined.

Lemma notebook_example :
  notebook example_world = Ok (tt, world_after notebook example_world).
Proof. apply world_after_ok. vm_compute. reflexivity. Defined.

Lemma referential_integrity_witness :
  run_cells setup_cells example_world =
    Ok (tt, world_after (run_cells setup_cells) example_world) /\
  ref_integrity (database_of (world_after (run_cells setup_cells) example_world) testdb)
  = true.
Proof.
  split; [exact setup_example|].
  exact (proj1 (proj2 (referential_integrity_of_the_runs _ _ setup_example))).
Defined.

(** The claim C1 fails on a run whose orders file names a customer that
    the customers file lacks: the run completes and leaves an order
    without its customer. *)
Lemma load_breaks_referential_integrity :
  notebook orphan_world = Ok (tt, world_after notebook orphan_world) /\
  ref_integrity (database_of (world_after notebook orphan_world) testdb) = false.
Proof.
  split; [apply world_after_ok|]; vm_compute; reflexivity.
Qed.

Lemma schemas_witness :
  run_cells [cell_0; cell_5; show cell_6] example_world =
    Ok (tt, world_after (run_cells [cell_0; cell_5; show cell_6]) example_world) /\
  view (database_of (world_after (run_cells [cell_0; cell_5; show cell_6]) example_world)
                    testdb) =
    (Some (Table customers_schema []), Some (Table products_schema []),
     Some (Table orders_schema [])).
Proof.
  assert (H : run_cells [cell_0; cell_5; show cell_6] example_world =
              Ok (tt, world_after (run_cells [cell_0; cell_5; show cell_6]) example_world))
    by (apply world_after_ok; vm_compute; reflexivity).
  split; [exact H|]. exact (proj1 (schemas_match_data_model _ _ H)).
Defined.

Lemma lifecycle_witness :
  notebook example_world = Ok (tt, world_after notebook example_world) /\
  exists evs,
    journal (world_after notebook example_world) = journal example_world ++ evs /\
    Forall lifecycle_event evs.
Proof.
  split; [exact notebook_example|].
  destruct (notebook_lifecycle _ _ notebook_example)
    as (c & p & o & evs & _ & _ & _ & Hj & _ & _ & Hl).
  exists evs. split; assumption.
Defined.

(** C4: the notebook does not enforce its foreign keys.  Cell 6 declares
    the FOREIGN KEY clauses, but the notebook never switches their
    enforcement on: under the engine's stock setting, with which it runs,
    an order for customer 999, who is not in customers, is accepted after
    the sample rows are in. *)
Lemma orphan_order_accepted :
  foreign_keys example_world = false /\
  has_key sample_customers "id" (VInt 999) = false /\
  is_ok ((run_cells setup_cells;; sql [orphan_insert]) example_world) = true.
Proof. repeat split; vm_compute; reflexivity. Qed.

Lemma orders_insert_witness :
  view sample_db = (Some sample_customers, Some sample_products, Some sample_orders) /\
  exec true orphan_insert sample_db = Err ForeignKeyFailed /\
  is_ok (exec false orphan_insert sample_db) = true.
Proof.
  split; [reflexivity|]. split.
  - exact (proj1 (orders_insert_and_foreign_keys true sample_db _ _ _
                    70000 999 103 "Nowhere" eq_refl eq_refl)).
  - vm_compute. reflexivity.
Defined.

Lemma sum_of_prices_witness :
  run_cells setup_cells example_world =
    Ok (tt, world_after (run_cells setup_cells) example_world) /\
  exists total w2,
    cell_34 (world_after (run_cells setup_cells) example_world) = Ok ([[VReal total]], w2) /\
    (total == 196.64)%Q.
Proof.
  split; [exact setup_example|].
  destruct (sum_of_prices_on_sample _ _ setup_example) as (total & w2 & H & _ & Ht).
  exists total, w2. split; assumption.
Defined.

Lemma customers_witness :
  run_cells setup_cells example_world =
    Ok (tt, world_after (run_cells setup_cells) example_world) /\
  exists w2,
    cell_12 (world_after (run_cells setup_cells) example_world) =
    Ok ([[VInt 435; VText "Omar"; VText "Berlin, Germany"];
         [VInt 5692; VText "Stuart"; VText "Dover, UK"];
         [VInt 6127; VText "Vidhya"; VText "Mumbai, India"]], w2).
Proof.
  split; [exact setup_example|].
  exact (customers_after_inserts _ _ setup_example).
Defined.

Lemma inputs_and_outputs_witness :
  notebook example_world = Ok (tt, world_after notebook example_world) /\
  view (database_of (world_after notebook example_world) "testdb.sqlite") =
    (Some (frame_table example_customers), Some (frame_table example_products),
     Some (frame_table example_orders)).
Proof.
  split; [exact notebook_example|].
  destruct (notebook_inputs_and_outputs _ _ notebook_example)
    as (c & p & o & evs & C1 & C2 & C3 & _ & _ & _ & _ & V & _).
  vm_compute in C1, C2, C3.
  injection C1 as <-. injection C2 as <-. injection C3 as <-. exact V.
Defined.

Lemma bulk_load_witness :
  run_cells (setup_cells ++ sample_cells) example_world =
    Ok (tt, world_after (run_cells (setup_cells ++ sample_cells)) example_world) /\
  cell_16 (world_after (run_cells (setup_cells ++ sample_cells)) example_world) =
    Ok (tt, world_after cell_16
              (world_after (run_cells (setup_cells ++ sample_cells)) example_world)) /\
  cell_18 (world_after (run_cells (setup_cells ++ sample_cells)) example_world) =
    Err (NoSuchColumn "delivery_country").
Proof.
  assert (H1 : run_cells (setup_cells ++ sample_cells) example_world =
               Ok (tt, world_after (run_cells (setup_cells ++ sample_cells)) example_world))
    by (apply world_after_ok; vm_compute; reflexivity).
  assert (H2 : cell_16 (world_after (run_cells (setup_cells ++ sample_cells)) example_world) =
               Ok (tt, world_after cell_16
                         (world_after (run_cells (setup_cells ++ sample_cells))
                                      example_world)))
    by (apply world_after_ok; vm_compute; reflexivity).
  split; [exact H1|]. split; [exact H2|].
  destruct (bulk_load_replaces_tables _ _ _ H1 H2)
    as (c & p & o & _ & _ & _ & _ & _ & _ & _ & _ & _ & E & _).
  exact E.
Defined.

(** * The cells one by one *)

(** ** Cells 6 and 10 run again *)

Lemma cell_6_again w :
  sql_magic w = Some testdb -> foreign_keys w = false ->
  exists w', cell_6 w = Ok ([], w') /\
    view (database_of w' testdb) = empty_view /\
    (forall t, is_notebook_table t = false ->
               database_of w' testdb !! t = database_of w testdb !! t) /\
    sql_magic w' = Some testdb /\ foreign_keys w' = false.
Proof.
  intros Hm Hfk.
  destruct (cell_6_runs (database_of w testdb) []) as [x E].
  rewrite <- Hfk in E.
  destruct (sql_runs _ _ _ Hm E) as (r & w' & H).
  pose proof H as H'.
  apply sql_steps in H' as (d & tr & E' & S & D); [|done].
  apply cell_6_effect in E' as (-> & V & O & _).
  exists w'. rewrite D. split; [exact H|]. split; [exact V|]. split; [exact O|].
  split; [by rewrite (steps_magic _ _ _ S)|].
  destruct S as (_ & -> & _). exact Hfk.
Qed.

(** X1: with foreign keys not enforced, cell 6 runs on whatever tables
    the database file holds, as long as none of them is named customers,
    products or orders in another case of the letters: it leaves the
    three tables empty under their declared schemas and every other table
    as it was, and running it again changes nothing.  Run after cell 10 it
    discards the sample rows. *)
Theorem tables_are_reset w :
  sql_magic w = Some testdb -> foreign_keys w = false ->
  plainly_named (database_of w testdb) = true ->
  exists w',
    cell_6 w = Ok ([], w') /\
    view (database_of w' testdb) =
      (Some (Table customers_schema []), Some (Table products_schema []),
       Some (Table orders_schema [])) /\
    (forall t, is_notebook_table t = false ->
               database_of w' testdb !! t = database_of w testdb !! t) /\
    exists w'', cell_6 w' = Ok ([], w'') /\
                database_of w'' testdb = database_of w' testdb.
Proof.
  intros Hm Hfk _.
  destruct (cell_6_again w Hm Hfk) as (w' & H & V & O & Hm' & Hfk').
  exists w'. do 3 (split; [done|]).
  destruct (cell_6_again w' Hm' Hfk') as (w'' & H' & V' & O' & _).
  exists w''. split; [done|].
  apply map_eq. intros t.
  apply view_lookups in V as (Lc & Lp & Lo).
  apply view_lookups in V' as (Lc' & Lp' & Lo').
  destruct (decide (t = "customers")) as [->|Nc]; [by rewrite Lc, Lc'|].
  destruct (decide (t = "products")) as [->|Np]; [by rewrite Lp, Lp'|].
  destruct (decide (t = "orders")) as [->|No]; [by rewrite Lo, Lo'|].
  apply O'. unfold is_notebook_table.
  apply String.eqb_neq in Nc, Np, No. by rewrite Nc, Np, No.
Qed.

(** X2: cell 10 cannot be run twice.  Once the sample rows are in, its
    first INSERT meets the key 435 again and the cell fails on the
    primary key of customers, with either foreign-key setting. *)
Theorem sample_rows_go_in_once w w1 :
  run_cells setup_cells w = Ok (tt, w1) ->
  cell_10 w1 = Err (UniqueFailed "customers" "id").
Proof.
  intros H. pose proof (setup_magic _ _ H) as Hm.
  apply setup_run in H as (_ & _ & _ & _ & _ & _ & _ & _ & _ & V & _).
  apply view_lookups in V as (Lc & _ & _).
  unfold cell_10, sql. rewrite Hm. unfold cell_10_statements.
  cbn [execute_all]. unfold mbind, nb_bind, execute.
  cbn [exec]. unfold insert_into. rewrite Lc.
  destruct (foreign_keys w1); vm_compute; reflexivity.
Qed.

(** ** Cells on a database without the tables *)

Ltac unfold_queries :=
  cbv delta [all_customers all_products all_orders orders_to_india products_over_20
             orders_to_s orders_of_three orders_of_three_elsewhere cheap_or_dear
             orders_by_customer orders_by_customer_product price_stats
             orders_per_country sum_price_join sum_price_where total_per_customer
             shipped spent_abroad simple from].

Lemma no_table_no_answer (db : database) :
  view db = (None, None, None) ->
  Forall (fun q => exists t, is_notebook_table t = true /\
                             eval_query db q = Err (NoSuchTable t)) notebook_queries.
Proof.
  intros V. apply view_lookups in V as (Lc & Lp & Lo).
  unfold notebook_queries, sample_queries, later_queries. cbn [app].
  repeat apply List.Forall_cons; try apply List.Forall_nil;
    unfold_queries; cbn [eval_query]; unfold scan_table;
    first [ rewrite Lo; exists "orders"; split; reflexivity
          | rewrite Lc; exists "customers"; split; reflexivity
          | rewrite Lp; exists "products"; split; reflexivity ].
Qed.

(** X3: the cells depend on the tables being there.  On a database file
    without the three tables every query cell of the notebook fails with
    "no such table", and so does the INSERT cell. *)
Theorem tables_must_exist w :
  sql_magic w = Some testdb ->
  view (database_of w testdb) = (None, None, None) ->
  Forall (fun q => exists t, is_notebook_table t = true /\
                             show (sql [Query q]) w = Err (NoSuchTable t)) notebook_queries /\
  cell_10 w = Err (NoSuchTable "customers").
Proof.
  intros Hm V. split.
  - eapply Forall_impl; [apply (no_table_no_answer _ V)|].
    intros q (t & Ht & E). exists t. split; [done|].
    apply show_error. by apply sql_query_error.
  - apply view_lookups in V as (Lc & _ & _).
    unfold cell_10, sql. rewrite Hm. unfold cell_10_statements.
    cbn [execute_all]. unfold mbind, nb_bind, execute.
    cbn [exec]. unfold insert_into. by rewrite Lc.
Qed.

(** ** The bulk load on its own *)

Lemma check_each_all {A} (f : A -> result unit) l :
  Forall (fun a => f a = Ok tt) l -> check_each f l = Ok tt.
Proof. induction 1 as [|a l Ha _ IH]; simpl; [done|]. by rewrite Ha. Qed.

Lemma index_of_in c names : In c names -> exists i, index_of c names = Some i.
Proof.
  induction names as [|n names IH]; simpl; [done|].
  destruct (ident_eqb c n) eqn:E; [eauto|].
  intros [->|Hin]; [by rewrite ident_eqb_refl in E|].
  destruct (IH Hin) as [i ->]. simpl. eauto.
Qed.

Lemma check_columns_incl s cols :
  incl cols (column_names s) -> check_columns s cols = Ok tt.
Proof.
  induction cols as [|c cols IH]; intros Hi; simpl; [done|].
  destruct (index_of_in c (column_names s)) as [i ->]; [apply Hi; by left|].
  apply IH. intros x Hx. apply Hi. by right.
Qed.

Lemma frame_check_row parents t cols rows r :
  check_row false parents t (frame_schema cols) rows r = Ok tt.
Proof.
  unfold check_row, check_not_null, check_unique.
  rewrite !check_each_all; [done| |].
  - apply List.Forall_forall. intros c Hc. unfold frame_schema in Hc. simpl in Hc.
    apply in_map_iff in Hc as (x & <- & _). done.
  - apply List.Forall_forall. intros c Hc. unfold frame_schema in Hc. simpl in Hc.
    apply in_map_iff in Hc as (x & <- & _). simpl.
    by destruct (field _ _ r) as [[]|].
Qed.

Lemma frame_insert_rows parents t cols new : forall rows,
  first_duplicate (map fst cols) = None ->
  Forall (fun vals => length vals = length (map fst cols)) new ->
  insert_rows false parents t (frame_schema cols) (map fst cols) rows new = Ok (rows ++ new).
Proof.
  induction new as [|vals new IH]; intros rows Hd Hl; simpl.
  - by rewrite app_nil_r.
  - inversion Hl as [|? ? Hv Hl']; subst.
    rewrite Hv, Nat.eqb_refl. simpl. rewrite frame_check_row. simpl.
    unfold store_row. rewrite frame_no_rowid, full_row_frame by done.
    rewrite IH by done. by rewrite <- app_assoc.
Qed.

Lemma loadable_inv df :
  loadable df = true ->
  df_columns df <> [] /\ first_duplicate (map fst (df_columns df)) = None /\
  Forall (fun vals => length vals = length (map fst (df_columns df))) (df_rows df).
Proof.
  unfold loadable. intros H.
  apply andb_prop in H as [H Hl]. apply andb_prop in H as [Hc Hd].
  split; [by destruct (df_columns df)|].
  split; [by destruct (first_duplicate _)|].
  apply List.Forall_forall. intros r Hr.
  rewrite forallb_forall in Hl. specialize (Hl r Hr).
  apply Nat.eqb_eq in Hl. by rewrite length_map.
Qed.

Lemma loadable_intro df :
  df_columns df <> [] -> first_duplicate (map fst (df_columns df)) = None ->
  Forall (fun vals => length vals = length (map fst (df_columns df))) (df_rows df) ->
  loadable df = true.
Proof.
  intros Hc Hd Hl. unfold loadable. rewrite Hd.
  rewrite List.Forall_forall in Hl.
  destruct (df_columns df) as [|c cols] eqn:E; [done|]. cbn [andb].
  apply forallb_forall. intros r Hr. specialize (Hl r Hr).
  apply Nat.eqb_eq. rewrite Hl. apply length_map.
Qed.

Lemma execute_ok s w db' rows :
  exec (foreign_keys w) s (database_of w testdb) = Ok (db', rows) ->
  exists w', execute testdb s w = Ok (rows, w') /\
             database_of w' testdb = db' /\ foreign_keys w' = foreign_keys w.
Proof.
  intros E. unfold execute. rewrite E. eexists. split; [reflexivity|].
  by rewrite database_of_insert.
Qed.

Lemma frame_create fk (db : database) name df :
  loadable df = true -> db !! name = None ->
  exec fk (CreateTable name (frame_schema (df_columns df))) db =
  Ok (<[name := Table (frame_schema (df_columns df)) []]> db, []).
Proof.
  intros Hl L. apply loadable_inv in Hl as (Hc & Hd & _).
  destruct (df_columns df) as [|c cols] eqn:E; [done|].
  eapply create_fresh; [done|reflexivity|]. by rewrite frame_column_names.
Qed.

Lemma to_sql_runs df name w :
  foreign_keys w = false -> loadable df = true ->
  exists w', to_sql df name testdb false Replace w = Ok (tt, w').
Proof.
  intros Hfk Hl. pose proof (loadable_inv _ Hl) as (Hc & Hd & Hlen).
  set (db := database_of w testdb).
  set (sch := frame_schema (df_columns df)).
  assert (exists r1 w1,
    (if bool_decide (is_Some (db !! name))
     then execute testdb (DropTable false name) ≫= (fun _ => execute testdb (CreateTable name sch))
     else execute testdb (CreateTable name sch)) w = Ok (r1, w1) /\
    database_of w1 testdb = <[name := Table sch []]> db /\ foreign_keys w1 = false)
    as (r1 & w1 & H1 & D1 & F1).
  { case_bool_decide as Hs.
    - destruct Hs as [tb Htb].
      destruct (execute_ok (DropTable false name) w (delete name db) []) as (w2 & E2 & D2 & F2).
      { rewrite Hfk. unfold exec, drop_table. fold db. by rewrite Htb. }
      destruct (execute_ok (CreateTable name sch) w2 (<[name := Table sch []]> (delete name db)) [])
        as (w1 & E1 & D1 & F1).
      { rewrite D2. apply frame_create; [done|]. by rewrite lookup_delete_eq. }
      exists [], w1. unfold mbind, nb_bind. rewrite E2, E1.
      split; [done|]. rewrite D1, insert_delete_eq. split; [done|]. congruence.
    - destruct (execute_ok (CreateTable name sch) w (<[name := Table sch []]> db) [])
        as (w1 & E1 & D1 & F1).
      { apply frame_create; [done|]. fold db. by apply eq_None_not_Some. }
      exists [], w1. split; [done|]. split; [done|]. congruence. }
  unfold to_sql. fold sch. unfold mbind at 1. unfold nb_bind at 1.
  unfold has_table at 1. fold db.
  unfold mbind at 1. unfold nb_bind at 1.
  rewrite H1.
  destruct (df_rows df) as [|r rows] eqn:Er; [eauto|].
  destruct (execute_ok (InsertInto name (map fst (df_columns df)) (r :: rows)) w1
              (<[name := Table sch ([] ++ r :: rows)]> (database_of w1 testdb)) [])
    as (w2 & E2 & _).
  { rewrite F1. apply (insert_unenforced _ _ _ _ (Table sch [])).
    - by rewrite D1, lookup_insert_eq.
    - apply check_columns_incl. unfold sch. cbn [tbl_schema].
      rewrite frame_column_names. apply incl_refl.
    - by apply frame_insert_rows. }
  unfold mbind, nb_bind. rewrite E2. eauto.
Qed.

Lemma steps_setting w w' evs : steps w w' evs -> foreign_keys w' = foreign_keys w.
Proof. by intros (_ & -> & _). Qed.

Lemma steps_files w w' evs : steps w w' evs -> csv_files w' = csv_files w.
Proof. by intros (-> & _). Qed.

Lemma bulk_load_succeeds w customers products orders :
  foreign_keys w = false ->
  csv_files w !! "data/customers.csv" = Some customers ->
  csv_files w !! "data/products.csv" = Some products ->
  csv_files w !! "data/orders.csv" = Some orders ->
  loadable customers = true -> loadable products = true -> loadable orders = true ->
  exists w', cell_16 w = Ok (tt, w').
Proof.
  intros Hfk C1 C2 C3 L1 L2 L3.
  set (w3 := World (csv_files w) (<[testdb := database_of w testdb]> (db_files w))
                   (foreign_keys w) (sql_magic w)
                   (((journal w ++ [CsvRead "data/customers.csv"]) ++
                     [CsvRead "data/products.csv"]) ++ [CsvRead "data/orders.csv"])).
  destruct (to_sql_runs customers "customers" w3 Hfk L1) as (w4 & H4).
  pose proof H4 as S4. apply to_sql_replace in S4 as (tr4 & S4 & _).
  destruct (to_sql_runs products "products" w4) as (w5 & H5); [|done|].
  { by rewrite (steps_setting _ _ _ S4). }
  pose proof H5 as S5. apply to_sql_replace in S5 as (tr5 & S5 & _).
  destruct (to_sql_runs orders "orders" w5) as (w6 & H6); [|done|].
  { by rewrite (steps_setting _ _ _ S5), (steps_setting _ _ _ S4). }
  exists w6. unfold cell_16, mbind, nb_bind, sqlite3_connect, read_csv.
  cbn [csv_files db_files foreign_keys sql_magic journal].
  rewrite C1. cbn [csv_files db_files foreign_keys sql_magic journal].
  rewrite C2. cbn [csv_files db_files foreign_keys sql_magic journal].
  rewrite C3. change "testdb.sqlite" with testdb. fold w3. by rewrite H4, H5, H6.
Qed.

Lemma valid_run_executed fk tr : forall db db',
  valid_run fk db (logged testdb tr) db' ->
  Forall (fun s => exists b a rows, exec fk s b = Ok (a, rows)) (statements tr).
Proof.
  induction tr as [|[[s b] a] tr IH]; intros db db' H; simpl in *; [constructor|].
  destruct H as (_ & _ & [rows E] & H). constructor; eauto.
Qed.

Lemma create_table_columns t s db db' : create_table t s db = Ok db' -> sch_columns s <> [].
Proof.
  unfold create_table. destruct (db !! t); [done|]. by destruct (sch_columns s).
Qed.

Lemma bulk_statements_loadable fk found name df :
  Forall (fun s => exists b a rows, exec fk s b = Ok (a, rows)) (bulk_statements found name df) ->
  loadable df = true.
Proof.
  unfold bulk_statements. intros H.
  apply Forall_app in H as [_ H]. apply Forall_cons in H as [H1 H2].
  destruct H1 as (b & a & rows & E).
  unfold exec in E. apply rbind_ok in E as (d & E & _).
  pose proof (create_table_columns _ _ _ _ E) as Hc.
  apply create_table_inv in E as (_ & Hd & _). rewrite frame_column_names in Hd.
  apply loadable_intro; [| done |].
  - intros E0. apply Hc. unfold frame_schema. simpl. by rewrite E0.
  - destruct (df_rows df) as [|r rs]; [constructor|].
    apply Forall_cons in H2 as [(b' & a' & rows' & E') _].
    unfold exec in E'. apply rbind_ok in E' as (d' & E' & _).
    by apply insert_into_inv in E' as (tb & _ & Hl & _).
Qed.

Lemma bulk_load_loadable w w' :
  cell_16 w = Ok (tt, w') ->
  exists customers products orders,
    csv_files w !! "data/customers.csv" = Some customers /\
    csv_files w !! "data/products.csv" = Some products /\
    csv_files w !! "data/orders.csv" = Some orders /\
    loadable customers = true /\ loadable products = true /\ loadable orders = true.
Proof.
  intros H. apply bulk_load_run in H as (c & p & o & tr & C1 & C2 & C3 & S & St & _).
  exists c, p, o. do 3 (split; [done|]).
  apply steps_database in S. simpl in S.
  apply valid_run_executed in S. rewrite St in S.
  apply Forall_app in S as [S1 S]. apply Forall_app in S as [S2 S3].
  split; [|split]; eapply bulk_statements_loadable; eassumption.
Qed.


(** X5: the bulk load can be repeated.  With foreign keys not enforced, a
    second run of cell 16 succeeds whenever the first did and leaves the
    whole database file as the first run left it. *)
Theorem bulk_load_twice w w1 :
  foreign_keys w = false ->
  cell_16 w = Ok (tt, w1) ->
  exists w2, cell_16 w1 = Ok (tt, w2) /\ database_of w2 testdb = database_of w1 testdb.
Proof.
  intros Hfk H. pose proof H as HL.
  apply bulk_load_loadable in HL as (c & p & o & C1 & C2 & C3 & L1 & L2 & L3).
  apply bulk_load_run in H as (c' & p' & o' & tr & C1' & C2' & C3' & S & _ & D).
  rewrite C1 in C1'. rewrite C2 in C2'. rewrite C3 in C3'.
  injection C1' as <-. injection C2' as <-. injection C3' as <-.
  pose proof (steps_files _ _ _ S) as Ef. pose proof (steps_setting _ _ _ S) as Es.
  destruct (bulk_load_succeeds w1 c p o) as [w2 H2]; try done; try congruence.
  exists w2. split; [done|].
  apply bulk_load_run in H2 as (c' & p' & o' & tr' & C1' & C2' & C3' & _ & _ & D2).
  rewrite Ef in C1', C2', C3'.
  rewrite C1 in C1'. rewrite C2 in C2'. rewrite C3 in C3'.
  injection C1' as <-. injection C2' as <-. injection C3' as <-.
  rewrite D2, D. apply map_eq. intros t. rewrite !lookup_insert_eqb.
  by repeat destruct (String.eqb _ t).
Qed.

(** X6: cell 16 reads its three files before it writes anything.  If one
    of them is missing the cell fails with "file not found" for the first
    missing one, in the order customers, products, orders, whatever the
    database holds. *)
Theorem bulk_load_needs_files w path :
  first_missing w = Some path -> cell_16 w = Err (FileNotFound path).
Proof.
  unfold first_missing, csv_paths. cbn [find].
  unfold cell_16, mbind, nb_bind, sqlite3_connect, read_csv. cbn [csv_files].
  case_bool_decide as H1; [intros [= <-]; by rewrite H1|].
  destruct (csv_files w !! "data/customers.csv") as [c|]; [|done]. cbn [csv_files].
  case_bool_decide as H2; [intros [= <-]; by rewrite H2|].
  destruct (csv_files w !! "data/products.csv") as [p|]; [|done]. cbn [csv_files].
  case_bool_decide as H3; [intros [= <-]; by rewrite H3|done].
Qed.

(** ** Queries in closed form *)

Lemma filter_ext_in' {A} (p q : A -> bool) l :
  (forall x, In x l -> p x = q x) -> List.filter p l = List.filter q l.
Proof.
  induction l as [|x l IH]; intros H; cbn [List.filter]; [done|].
  rewrite H by (by left). rewrite IH; [done|]. intros y Hy. apply H. by right.
Qed.

Lemma map_app_nil (rows : list row) : map (app []) rows = rows.
Proof. induction rows as [|r rows IH]; cbn [map]; [done|]. by rewrite IH. Qed.

(** A query on one table works on the rows of that table. *)
Lemma eval_single (db : database) t a tb items wh gb hv ob lim :
  db !! t = Some tb ->
  eval_query db (Select items [FromTable t a None] wh gb hv ob lim) =
  select_rows (scope_of a tb) (tbl_rows tb) items wh gb hv ob lim.
Proof.
  intros L. cbn [eval_query]. unfold scan_table. rewrite L. cbn [rbind].
  unfold join. cbn [check_opt rbind fst snd app flat_map].
  by rewrite map_app_nil, filter_holds_none, app_nil_r.
Qed.

Lemma eval_group_scalar sc r e :
  has_agg e = false -> eval_group sc [r] e = Ok (eval_scalar sc r e).
Proof.
  induction e as [v|t c|op a IHa b IHb|a IHa b IHb|a IHa b IHb|a IHa vs|a IHa vs|a IHa p|f a IHa];
    cbn [has_agg eval_group eval_scalar hd]; intros H; try done;
    try (apply orb_false_elim in H as [Ha Hb]; rewrite (IHa Ha), (IHb Hb); done);
    try (rewrite (IHa H); done).
Qed.

Lemma rmapM_ok {A B} (f : A -> result B) (g : A -> B) l :
  Forall (fun a => f a = Ok (g a)) l -> rmapM f l = Ok (map g l).
Proof. induction 1 as [|a l Ha _ IH]; simpl; [done|]. by rewrite Ha, IH. Qed.

Lemma rmapM_map_ok {A B C} (f : B -> result C) (h : A -> B) (g : A -> C) l :
  (forall a, f (h a) = Ok (g a)) -> rmapM f (map h l) = Ok (map g l).
Proof. intros H. induction l as [|a l IH]; simpl; [done|]. by rewrite H, IH. Qed.

Lemma existsb_false_forall {A} (p : A -> bool) l :
  existsb p l = false -> Forall (fun a => p a = false) l.
Proof.
  induction l as [|a l IH]; simpl; [constructor|].
  intros H. apply orb_false_elim in H as [Ha Hl]. constructor; eauto.
Qed.

Lemma eval_item_plain sc r it :
  item_has_agg it = false ->
  eval_item sc [r] it = Ok (match it with Star => r | Item e _ => [eval_scalar sc r e] end).
Proof.
  destruct it as [|e a]; simpl; [done|]. intros H. by rewrite eval_group_scalar.
Qed.

Lemma sort_insert_last (x : list value * row) l : sort_insert [] x l = l ++ [x].
Proof. induction l as [|y l IH]; simpl; [done|]. by rewrite IH. Qed.

Lemma sort_rows_unordered l : sort_rows [] l = map snd l.
Proof.
  unfold sort_rows. f_equal.
  assert (forall acc, fold_left (fun acc x => sort_insert [] x acc) l acc = acc ++ l) as ->;
    [|done].
  induction l as [|x l IH]; intros acc; simpl; [by rewrite app_nil_r|].
  by rewrite IH, sort_insert_last, <- app_assoc.
Qed.

Lemma filter_fst_kept {A B} (f : A -> B) (l : list A) :
  map snd (List.filter fst (map (fun a => (true, f a)) l)) = map f l.
Proof. induction l as [|a l IH]; simpl; [done|]. by rewrite IH. Qed.

(** A SELECT without aggregates, GROUP BY and HAVING: once its names
    resolve, it filters the rows, sorts them and shows the items of each. *)
Lemma select_plain sc rows items wh ob lim :
  existsb item_has_agg items = false ->
  existsb has_agg (map (fun k => expand true sc items (fst k)) ob) = false ->
  select_rows sc rows items wh [] None ob lim =
  rbind (check_each (check_item false sc) items) (fun _ =>
  rbind (check_opt false sc wh) (fun _ =>
  rbind (check_each (check_expr false sc)
                    (map (fun k => expand true sc items (fst k)) ob)) (fun _ =>
  Ok (item_names sc items,
      limit_rows lim
        (sort_rows (map snd ob)
           (map (fun r => (map (eval_scalar sc r)
                               (map (fun k => expand true sc items (fst k)) ob),
                           project sc items r))
                (List.filter (holds sc wh) rows))))))).
Proof.
  intros Hi Ho. unfold select_rows. cbn [map option_map].
  rewrite Hi, Ho. cbn [orb check_each check_opt rbind].
  destruct (check_each (check_item false sc) items) as [[]|]; [|done]. cbn [rbind].
  destruct (check_opt false sc wh) as [[]|]; [|done]. cbn [rbind].
  destruct (check_each (check_expr false sc) _) as [[]|]; [|done]. cbn [rbind].
  set (ob' := map (fun k => expand true sc items (fst k)) ob) in *.
  rewrite (rmapM_map_ok _ _
             (fun r => (true, (map (eval_scalar sc r) ob', project sc items r)))).
  - cbn [rbind]. by rewrite filter_fst_kept.
  - intros r. unfold output_row. cbn [eval_having rbind].
    rewrite (rmapM_ok _ (eval_scalar sc r)).
    + cbn [rbind].
      rewrite (rmapM_ok _ (fun it => match it with
                                     | Star => r
                                     | Item e _ => [eval_scalar sc r e]
                                     end)).
      * cbn [rbind]. unfold project. by rewrite flat_map_concat_map.
      * eapply Forall_impl; [apply (existsb_false_forall _ _ Hi)|].
        intros it. apply eval_item_plain.
    + eapply Forall_impl; [apply (existsb_false_forall _ _ Ho)|].
      intros e. apply eval_group_scalar.
Qed.

Lemma expand_plain af sc items e :
  (forall c, find_alias c items = None) -> expand af sc items e = e.
Proof.
  intros H.
  induction e as [v|t c|op a IHa b IHb|a IHa b IHb|a IHa b IHb|a IHa vs|a IHa vs|a IHa p|f a IHa];
    cbn [expand]; try congruence.
  destruct t; [done|]. by rewrite H.
Qed.

(** A column of the table, named without or with the table's alias. *)
Lemma matches_index a names c : forall k,
  matches k (map (fun n => (a, n)) names) None c <> [] ->
  exists i, index_of c names = Some i /\
            hd 0%nat (matches k (map (fun n => (a, n)) names) None c) = (k + i)%nat.
Proof.
  induction names as [|n names IH]; intros k; cbn [map matches index_of]; [done|].
  rewrite andb_true_r, (ident_eqb_sym c n).
  destruct (ident_eqb n c).
  - intros _. exists 0%nat. split; [done|]. simpl. lia.
  - intros H. destruct (IH (S k) H) as (i & -> & E). exists (S i). split; [done|].
    rewrite E. lia.
Qed.

Lemma matches_alias a names t c k :
  ident_eqb a t = true ->
  matches k (map (fun n => (a, n)) names) (Some t) c =
  matches k (map (fun n => (a, n)) names) None c.
Proof.
  intros Ha. revert k. induction names as [|n names IH]; intros k; cbn [map matches]; [done|].
  by rewrite Ha, IH.
Qed.

Lemma resolve_cell a tb c i r :
  resolve (scope_of a tb) None c = Ok i -> nth i r VNull = cell_of tb c r.
Proof.
  unfold resolve, scope_of, cell_of, field. intros H.
  destruct (matches 0 _ None c) as [|j [|]] eqn:E; try done.
  injection H as ->.
  destruct (matches_index a (column_names (tbl_schema tb)) c 0) as (k & -> & Ek).
  { by rewrite E. }
  rewrite E in Ek. simpl in Ek. by subst.
Qed.

Lemma eval_column a tb c r e :
  check_expr false (scope_of a tb) (ECol None c) = Ok e ->
  eval_scalar (scope_of a tb) r (ECol None c) = cell_of tb c r.
Proof.
  cbn [check_expr eval_scalar]. destruct (resolve _ None c) as [i|] eqn:E; [|done].
  intros _. exact (resolve_cell _ _ _ _ r E).
Qed.

(** ** LIMIT *)

Lemma select_rows_limit sc rows items wh gb hv ob n names out :
  select_rows sc rows items wh gb hv ob (Some n) = Ok (names, out) ->
  (length out <= n)%nat.
Proof.
  unfold select_rows. intros H.
  do 6 (apply rbind_ok in H as (? & _ & H)).
  injection H as _ <-. apply firstn_le_length.
Qed.

Lemma eval_query_limit db items src wh gb hv ob n names out :
  eval_query db (Select items src wh gb hv ob (Some n)) = Ok (names, out) ->
  (length out <= n)%nat.
Proof.
  cbn [eval_query]. intros H. apply rbind_ok in H as (j & _ & H).
  by apply select_rows_limit in H.
Qed.

Lemma sql_query_inv q w rows w' :
  sql [Query q] w = Ok (rows, w') ->
  exists file names,
    sql_magic w = Some file /\
    eval_query (database_of w file) q = Ok (names, rows) /\
    database_of w' file = database_of w file.
Proof.
  unfold sql. destruct (sql_magic w) as [file|]; [|done].
  cbn [execute_all]. unfold mbind, nb_bind, execute. cbn [exec].
  destruct (eval_query _ q) as [[names out]|] eqn:E; [|done].
  cbn [rbind snd]. intros [= <- <-]. exists file, names.
  split; [done|]. split; [done|].
  unfold database_of at 1. cbn [db_files]. by rewrite lookup_insert_eq.
Qed.

(** X7: a cell whose query ends in LIMIT 10 never shows more than ten
    rows, whatever the tables hold. *)
Theorem limit_is_kept w q rows w' :
  In q limited_queries ->
  sql [Query q] w = Ok (rows, w') ->
  (length rows <= 10)%nat.
Proof.
  intros Hq H. apply sql_query_inv in H as (file & names & _ & E & _).
  unfold limited_queries in Hq. cbn [In] in Hq.
  repeat (destruct Hq as [<-|Hq]; [exact (eval_query_limit _ _ _ _ _ _ _ _ _ _ E)|]).
  done.
Qed.

(** ** The filters of cells 18 to 25 *)

Lemma truth_of_bool b : truth (of_bool b) = b.
Proof. by destruct b as [[]|]. Qed.

Lemma star_names a tb : item_names (scope_of a tb) [Star] = column_names (tbl_schema tb).
Proof.
  unfold item_names, scope_of. cbn [flat_map]. rewrite app_nil_r, map_map. cbn [snd].
  apply map_id.
Qed.

Lemma project_star {K} sc (k : row -> K) (rows : list row) :
  map snd (map (fun r => (k r, project sc [Star] r)) rows) = rows.
Proof.
  unfold project. cbn [flat_map].
  induction rows as [|r rows IH]; cbn [map snd]; [done|]. by rewrite app_nil_r, IH.
Qed.

(** SELECT * FROM one table WHERE ...: the rows of the table that satisfy
    the condition, in table order, cut at the limit. *)
Lemma select_star (db : database) t tb wh lim :
  db !! t = Some tb ->
  eval_query db (simple [Star] [from t] wh lim) =
  rbind (check_opt false (scope_of t tb) wh) (fun _ =>
  Ok (column_names (tbl_schema tb),
      limit_rows lim (List.filter (holds (scope_of t tb) wh) (tbl_rows tb)))).
Proof.
  intros L. unfold simple, from. rewrite (eval_single _ _ _ _ _ _ _ _ _ _ L).
  rewrite select_plain by done. cbn [check_each check_item rbind map].
  destruct (check_opt _ _ wh) as [[]|]; [|done]. cbn [rbind].
  by rewrite sort_rows_unordered, star_names, project_star.
Qed.

Lemma in_list_true v vs : in_list v vs = Some true <-> existsb (same_value v) vs = true.
Proof.
  unfold in_list. destruct (is_null v) eqn:Ev.
  - split; [done|]. destruct v; try done. intros H.
    apply existsb_exists in H as (x & _ & Hx). done.
  - destruct (existsb (same_value v) vs); [done|]. by destruct (existsb is_null vs).
Qed.

Lemma holds_true sc e r :
  holds sc (Some e) r = true <-> truth (eval_scalar sc r e) = Some true.
Proof. unfold holds. by destruct (truth _) as [[]|]. Qed.

Lemma bool_eq_iff (a b : bool) : (a = true <-> b = true) -> a = b.
Proof. destruct a, b; intros [H1 H2]; try done; [by rewrite H1|by rewrite H2]. Qed.

Lemma holds_in sc c vs r :
  holds sc (Some (EIn (col c) vs)) r = existsb (same_value (eval_scalar sc r (col c))) vs.
Proof.
  apply bool_eq_iff. rewrite holds_true. cbn [eval_scalar]. rewrite truth_of_bool.
  apply in_list_true.
Qed.

(** X8: on a customer_id column of numbers, cell 22 shows exactly the
    orders of the customers 10, 200 and 400: every row of orders whose
    customer_id equals one of the three numbers, whole and in table order,
    and no other row. *)
Theorem orders_of_the_three_customers (db : database) tb names rows :
  db !! "orders" = Some tb ->
  numeric tb "customer_id" ->
  eval_query db orders_of_three = Ok (names, rows) ->
  names = column_names (tbl_schema tb) /\
  rows = List.filter
           (fun r => existsb (same_value (cell_of tb "customer_id" r))
                             [VInt 10; VInt 200; VInt 400])
           (tbl_rows tb).
Proof.
  intros L _ H. unfold orders_of_three in H. rewrite (select_star _ _ _ _ _ L) in H.
  apply rbind_ok in H as ([] & Hc & [= <- <-]). split; [done|].
  cbn [limit_rows]. apply filter_ext'. intros r.
  rewrite holds_in. by rewrite (eval_column _ _ _ _ _ Hc).
Qed.

Lemma string_compare_refl s : String.compare s s = Eq.
Proof.
  pose proof (String.compare_antisym s s) as H. by destruct (String.compare s s).
Qed.

Lemma same_value_text v s : same_value v (VText s) = is_text s v.
Proof.
  destruct v as [|n|q|t]; try done. unfold same_value, sql_eq. cbn.
  destruct (String.eqb_spec t s) as [->|Hne]; [by rewrite string_compare_refl|].
  destruct (String.compare t s) eqn:E; try done.
  by apply String.compare_eq_iff in E.
Qed.

Lemma is_text_eq s v : is_text s v = true -> v = VText s.
Proof. destruct v; try done. simpl. by intros ->%String.eqb_eq. Qed.

Lemma holds_and sc a b r :
  holds sc (Some (EAnd a b)) r = holds sc (Some a) r && holds sc (Some b) r.
Proof.
  unfold holds. cbn [eval_scalar]. rewrite truth_of_bool.
  by destruct (truth (eval_scalar sc r a)) as [[]|], (truth (eval_scalar sc r b)) as [[]|].
Qed.

Lemma holds_or sc a b r :
  holds sc (Some (EOr a b)) r = holds sc (Some a) r || holds sc (Some b) r.
Proof.
  unfold holds. cbn [eval_scalar]. rewrite truth_of_bool.
  by destruct (truth (eval_scalar sc r a)) as [[]|], (truth (eval_scalar sc r b)) as [[]|].
Qed.

Lemma holds_not_in sc c vs r :
  existsb is_null vs = false ->
  holds sc (Some (ENotIn (col c) vs)) r =
  negb (is_null (eval_scalar sc r (col c))) &&
  negb (existsb (same_value (eval_scalar sc r (col c))) vs).
Proof.
  intros Hn. unfold holds. cbn [eval_scalar]. rewrite truth_of_bool.
  unfold in_list. rewrite Hn.
  destruct (is_null _); [reflexivity|].
  destruct (existsb (same_value _) vs); reflexivity.
Qed.

Lemma holds_eq sc c v r :
  holds sc (Some (ECmp CEq (col c) (ELit v))) r = same_value (eval_scalar sc r (col c)) v.
Proof.
  unfold holds, same_value. cbn [eval_scalar compare_values]. rewrite truth_of_bool.
  by destruct (sql_eq _ v) as [[]|].
Qed.

Lemma holds_gt sc c n r :
  is_numeric (eval_scalar sc r (col c)) = true ->
  holds sc (Some (ECmp CGt (col c) (ELit (VInt n)))) r =
  greater_than n (eval_scalar sc r (col c)).
Proof.
  unfold holds. cbn [eval_scalar compare_values]. rewrite truth_of_bool.
  destruct (eval_scalar sc r (col c)) as [|m|q|t]; [reflexivity| | |done]; intros _.
  - unfold sql_lt, greater_than, Z.ltb. cbn. by destruct (n ?= m)%Z.
  - unfold sql_lt, greater_than. cbn. by destruct (inject_Z n ?= q)%Q.
Qed.

Lemma holds_lt sc c n r :
  is_numeric (eval_scalar sc r (col c)) = true ->
  holds sc (Some (ECmp CLt (col c) (ELit (VInt n)))) r =
  less_than n (eval_scalar sc r (col c)).
Proof.
  unfold holds. cbn [eval_scalar compare_values]. rewrite truth_of_bool.
  destruct (eval_scalar sc r (col c)) as [|m|q|t]; [reflexivity| | |reflexivity]; intros _.
  - unfold sql_lt, less_than, Z.ltb. cbn. by destruct (m ?= n)%Z.
  - unfold sql_lt, less_than. cbn. by destruct (q ?= inject_Z n)%Q.
Qed.

Lemma numeric_in tb c r :
  numeric tb c -> In r (tbl_rows tb) -> is_numeric (cell_of tb c r) = true.
Proof. unfold numeric. rewrite forallb_forall. auto. Qed.

Lemma filter_filter {A} (p q : A -> bool) l :
  List.filter p (List.filter q l) = List.filter (fun x => q x && p x) l.
Proof.
  induction l as [|x l IH]; simpl; [done|].
  destruct (q x); simpl; [|done]. destruct (p x); by rewrite IH.
Qed.

Lemma filter_all {A} (p : A -> bool) l : Forall (fun x => p x = true) (List.filter p l).
Proof. apply List.Forall_forall. intros x Hx. by apply filter_In in Hx as [_ ?]. Qed.

(** X9: cell 24 narrows cell 22.  On a customer_id column of numbers, it
    shows the rows of cell 22 whose delivery_country is known and is
    neither Madagascar nor Canada; a row without a delivery_country is
    left out. *)
Theorem orders_of_the_three_elsewhere (db : database) tb names rows :
  db !! "orders" = Some tb ->
  numeric tb "customer_id" ->
  eval_query db orders_of_three_elsewhere = Ok (names, rows) ->
  exists rows3,
    eval_query db orders_of_three = Ok (names, rows3) /\
    rows = List.filter
             (fun r => negb (is_null (cell_of tb "delivery_country" r)) &&
                       negb (is_text "Madagascar" (cell_of tb "delivery_country" r)) &&
                       negb (is_text "Canada" (cell_of tb "delivery_country" r)))
             rows3.
Proof.
  intros L _ H. unfold orders_of_three_elsewhere in H.
  rewrite (select_star _ _ _ _ _ L) in H.
  apply rbind_ok in H as ([] & Hc & [= <- <-]).
  cbn [check_opt check_expr] in Hc. apply rbind_ok in Hc as ([] & Hc1 & Hc2).
  unfold orders_of_three. rewrite (select_star _ _ _ _ _ L).
  cbn [check_opt check_expr]. fold (col "customer_id"). rewrite Hc1. cbn [rbind].
  eexists. split; [reflexivity|].
  cbn [limit_rows]. rewrite filter_filter. apply filter_ext'. intros r.
  rewrite holds_and, holds_not_in by done. f_equal.
  unfold col in *. rewrite (eval_column _ _ _ _ _ Hc2).
  cbn [existsb]. rewrite !same_value_text, orb_false_r, negb_orb. by rewrite andb_assoc.
Qed.

(** X10: on a price column of numbers, cell 19 shows the first ten
    products, in table order, whose price is greater than 20; a product
    without a price is never shown. *)
Theorem products_over_twenty (db : database) tb names rows :
  db !! "products" = Some tb ->
  numeric tb "price" ->
  eval_query db products_over_20 = Ok (names, rows) ->
  names = column_names (tbl_schema tb) /\
  rows = firstn 10 (List.filter (fun r => greater_than 20 (cell_of tb "price" r))
                                (tbl_rows tb)) /\
  Forall (fun r => forall q, cell_of tb "price" r = VReal q -> (20 < q)%Q) rows.
Proof.
  intros L Hn H. unfold products_over_20 in H. rewrite (select_star _ _ _ _ _ L) in H.
  apply rbind_ok in H as ([] & Hc & [= <- <-]). split; [done|].
  cbn [check_opt check_expr] in Hc. apply rbind_ok in Hc as ([] & Hc & _).
  cbn [limit_rows].
  assert (E : List.filter (holds (scope_of "products" tb)
                (Some (ECmp CGt (col "price") (ELit (VInt 20))))) (tbl_rows tb) =
              List.filter (fun r => greater_than 20 (cell_of tb "price" r)) (tbl_rows tb)).
  { apply filter_ext_in'. intros r Hr. pose proof (numeric_in _ _ _ Hn Hr) as Hnum.
    unfold col in *. rewrite <- (eval_column _ _ _ r _ Hc) in Hnum |- *.
    by apply (holds_gt _ "price"). }
  rewrite E. split; [done|].
  apply Forall_take. eapply Forall_impl; [apply filter_all|].
  intros r Hr q Hq. cbv beta in Hr. rewrite Hq in Hr. unfold greater_than in Hr.
  apply Qlt_alt. unfold inject_Z in Hr. by destruct (_ ?= q)%Q.
Qed.

(** X11: on a price column of numbers, cell 25 shows the first ten
    products, in table order, whose price is less than 10 or greater
    than 30. *)
Theorem products_cheap_or_dear (db : database) tb names rows :
  db !! "products" = Some tb ->
  numeric tb "price" ->
  eval_query db cheap_or_dear = Ok (names, rows) ->
  names = column_names (tbl_schema tb) /\
  rows = firstn 10 (List.filter (fun r => less_than 10 (cell_of tb "price" r) ||
                                          greater_than 30 (cell_of tb "price" r))
                                (tbl_rows tb)) /\
  Forall (fun r => forall q, cell_of tb "price" r = VReal q -> (q < 10 \/ 30 < q)%Q) rows.
Proof.
  intros L Hn H. unfold cheap_or_dear in H. rewrite (select_star _ _ _ _ _ L) in H.
  apply rbind_ok in H as ([] & Hc & [= <- <-]). split; [done|].
  cbn [check_opt check_expr] in Hc. apply rbind_ok in Hc as ([] & Hc & _).
  apply rbind_ok in Hc as ([] & Hc & _).
  cbn [limit_rows].
  assert (E : List.filter (holds (scope_of "products" tb)
                (Some (EOr (ECmp CLt (col "price") (ELit (VInt 10)))
                           (ECmp CGt (col "price") (ELit (VInt 30)))))) (tbl_rows tb) =
              List.filter (fun r => less_than 10 (cell_of tb "price" r) ||
                                    greater_than 30 (cell_of tb "price" r)) (tbl_rows tb)).
  { apply filter_ext_in'. intros r Hr. pose proof (numeric_in _ _ _ Hn Hr) as Hnum.
    unfold col in *. rewrite <- (eval_column _ _ _ r _ Hc) in Hnum |- *.
    rewrite holds_or. f_equal; [by apply (holds_lt _ "price")|by apply (holds_gt _ "price")]. }
  rewrite E. split; [done|].
  apply Forall_take. eapply Forall_impl; [apply filter_all|].
  intros r Hr q Hq. cbv beta in Hr. rewrite Hq in Hr.
  unfold less_than, greater_than in Hr. apply orb_prop in Hr as [Hr|Hr].
  - left. apply Qlt_alt. unfold inject_Z in Hr. by destruct (q ?= _)%Q.
  - right. apply Qlt_alt. unfold inject_Z in Hr. by destruct (_ ?= q)%Q.
Qed.

(** SELECT c1, c2 FROM one table WHERE ...: the two columns of the rows
    that satisfy the condition. *)
Lemma select_two_columns (db : database) t tb c1 c2 wh lim :
  db !! t = Some tb ->
  eval_query db (simple [plain (col c1); plain (col c2)] [from t] wh lim) =
  rbind (check_expr false (scope_of t tb) (col c1)) (fun _ =>
  rbind (check_expr false (scope_of t tb) (col c2)) (fun _ =>
  rbind (check_opt false (scope_of t tb) wh) (fun _ =>
  Ok ([c1; c2],
      limit_rows lim
        (map (fun r => [cell_of tb c1 r; cell_of tb c2 r])
             (List.filter (holds (scope_of t tb) wh) (tbl_rows tb))))))).
Proof.
  intros L. unfold simple, from. rewrite (eval_single _ _ _ _ _ _ _ _ _ _ L).
  rewrite select_plain by done. cbn [check_each check_item plain rbind map].
  destruct (check_expr false _ (col c1)) as [[]|] eqn:E1; [|done]. cbn [rbind].
  destruct (check_expr false _ (col c2)) as [[]|] eqn:E2; [|done]. cbn [rbind].
  destruct (check_opt _ _ wh) as [[]|]; [|done]. cbn [rbind].
  rewrite sort_rows_unordered, map_map. cbn [snd]. do 3 f_equal.
  apply map_ext. intros r. unfold project, plain. cbn [flat_map app].
  unfold col in *. by rewrite (eval_column _ _ _ _ _ E1), (eval_column _ _ _ _ _ E2).
Qed.

Lemma in_firstn {A} (x : A) n : forall l, In x (firstn n l) -> In x l.
Proof.
  induction n as [|n IH]; intros [|y l]; simpl; try done.
  intros [->|H]; [by left|right; eauto].
Qed.

(** X12: cell 18 shows the id of the first ten orders, in table order,
    whose delivery_country is the text India, spelled exactly so, each
    with that text beside it. *)
Theorem orders_delivered_to_india (db : database) tb names rows :
  db !! "orders" = Some tb ->
  eval_query db orders_to_india = Ok (names, rows) ->
  names = ["id"; "delivery_country"] /\
  rows = map (fun r => [cell_of tb "id" r; VText "India"])
             (firstn 10 (List.filter
                           (fun r => is_text "India" (cell_of tb "delivery_country" r))
                           (tbl_rows tb))).
Proof.
  intros L H. unfold orders_to_india in H. rewrite (select_two_columns _ _ _ _ _ _ _ L) in H.
  apply rbind_ok in H as ([] & _ & H). apply rbind_ok in H as ([] & Hc & H).
  apply rbind_ok in H as ([] & _ & [= <- <-]). split; [done|].
  cbn [limit_rows]. rewrite firstn_map.
  assert (E : List.filter (holds (scope_of "orders" tb)
                (Some (ECmp CEq (col "delivery_country") (ELit (VText "India")))))
                (tbl_rows tb) =
              List.filter (fun r => is_text "India" (cell_of tb "delivery_country" r))
                          (tbl_rows tb)).
  { apply filter_ext'. intros r. rewrite holds_eq, same_value_text.
    unfold col in *. by rewrite (eval_column _ _ _ _ _ Hc). }
  rewrite E. apply map_ext_in. intros r Hr.
  apply in_firstn, filter_In in Hr as [_ Hr]. by rewrite (is_text_eq _ _ Hr).
Qed.

Lemma like_any s : like ["%"%char] s = true.
Proof.
  induction s as [|c s IH]; [reflexivity|].
  cbn in *. by rewrite IH.
Qed.

Lemma lower_s c :
  Ascii.eqb (lower_ascii "S") (lower_ascii c) = Ascii.eqb c "S" || Ascii.eqb c "s".
Proof. by destruct c as [[] [] [] [] [] [] [] []]. Qed.

Lemma pretty_N_go_no_s x : forall s, no_s s -> no_s (pretty_N_go x s).
Proof.
  induction (N.lt_wf_0 x) as [x _ IH]. intros s Hs.
  destruct (decide (x = 0)%N) as [->|Hx]; [by rewrite pretty_N_go_0|].
  rewrite pretty_N_go_step by lia. apply IH.
  - apply N.div_lt; lia.
  - unfold pretty_N_char. by repeat case_match.
Qed.

Lemma pretty_Z_no_s (n : Z) : no_s (pretty n).
Proof.
  destruct n as [|p|p]; [done| |done].
  unfold pretty, pretty_Z, pretty, pretty_positive, pretty, pretty_N.
  case_decide; [done|]. by apply pretty_N_go_no_s.
Qed.

Lemma like_s v : sql_like "S%" v = Some true <-> begins_with_s v = true.
Proof.
  destruct v as [|n|q|s]; cbn [sql_like begins_with_s]; try done.
  - pose proof (pretty_Z_no_s n) as H. destruct (pretty n) as [|c s]; [done|].
    simpl in H. change (list_ascii_of_string "S%") with ["S"%char; "%"%char].
    cbn [list_ascii_of_string like Ascii.eqb Bool.eqb orb]. cbn [Ascii.eqb Bool.eqb].
    rewrite lower_s, H. done.
  - destruct s as [|c s]; [done|].
    change (list_ascii_of_string "S%") with ["S"%char; "%"%char].
    cbn [list_ascii_of_string]. 
    change (like ["S"%char; "%"%char] (c :: list_ascii_of_string s)) with
      ((Ascii.eqb "S" "_" || Ascii.eqb (lower_ascii "S") (lower_ascii c)) &&
       like ["%"%char] (list_ascii_of_string s)).
    rewrite like_any, lower_s, andb_true_r.
    change (Ascii.eqb "S" "_") with false. cbn [orb].
    split; [by intros [= ->]|by intros ->].
Qed.

Lemma holds_like_s sc c r :
  holds sc (Some (ELike (col c) "S%")) r = begins_with_s (eval_scalar sc r (col c)).
Proof.
  apply bool_eq_iff. rewrite holds_true. cbn [eval_scalar]. rewrite truth_of_bool.
  apply like_s.
Qed.

(** X13: cell 21 shows id and delivery_country of the first ten orders, in
    table order, whose delivery_country is a text that begins with S or
    with s: LIKE does not tell the two apart. *)
Theorem orders_delivered_to_s (db : database) tb names rows :
  db !! "orders" = Some tb ->
  eval_query db orders_to_s = Ok (names, rows) ->
  names = ["id"; "delivery_country"] /\
  rows = map (fun r => [cell_of tb "id" r; cell_of tb "delivery_country" r])
             (firstn 10 (List.filter
                           (fun r => begins_with_s (cell_of tb "delivery_country" r))
                           (tbl_rows tb))).
Proof.
  intros L H. unfold orders_to_s in H. rewrite (select_two_columns _ _ _ _ _ _ _ L) in H.
  apply rbind_ok in H as ([] & _ & H). apply rbind_ok in H as ([] & Hc & H).
  apply rbind_ok in H as ([] & _ & [= <- <-]). split; [done|].
  cbn [limit_rows]. rewrite firstn_map. do 2 f_equal.
  apply filter_ext'. intros r. rewrite holds_like_s.
  unfold col in *. by rewrite (eval_column _ _ _ _ _ Hc).
Qed.

(** ** The engine's order on values *)

Lemma ascii_compare_trans a b c :
  Ascii.compare a b = Lt -> Ascii.compare b c = Lt -> Ascii.compare a c = Lt.
Proof.
  unfold Ascii.compare. rewrite !N.compare_lt_iff. apply N.lt_trans.
Qed.

Lemma string_compare_trans s : forall t u,
  String.compare s t = Lt -> String.compare t u = Lt -> String.compare s u = Lt.
Proof.
  induction s as [|a s IH]; intros [|b t] [|c u]; cbn [String.compare]; try done.
  destruct (Ascii.compare a b) eqn:Eab; try done.
  - apply Ascii.compare_eq_iff in Eab as ->.
    destruct (Ascii.compare b c); try done. apply IH.
  - intros _. destruct (Ascii.compare b c) eqn:Ebc; try done.
    + apply Ascii.compare_eq_iff in Ebc as <-. by rewrite Eab.
    + by rewrite (ascii_compare_trans _ _ _ Eab Ebc).
Qed.

Lemma compare_numbers a b :
  rank a = 1%nat -> rank b = 1%nat ->
  value_compare a b = (number a ?= number b)%Q.
Proof.
  destruct a as [|m|p|s], b as [|n|q|t]; try done. intros _ _.
  cbn [value_compare number]. unfold Qcompare, inject_Z. cbn [Qnum Qden].
  by rewrite !Z.mul_1_r.
Qed.

Lemma compare_ranks a b :
  (rank a < rank b)%nat -> value_compare a b = Lt.
Proof. destruct a, b; cbn; try done; lia. Qed.

Lemma compare_lt_rank a b : value_compare a b = Lt -> (rank a <= rank b)%nat.
Proof. destruct a, b; cbn; try done; lia. Qed.

Lemma value_compare_refl a : value_compare a a = Eq.
Proof.
  pose proof (value_compare_antisym a a) as H. by destruct (value_compare a a).
Qed.

Lemma value_compare_lt_trans a b c :
  value_compare a b = Lt -> value_compare b c = Lt -> value_compare a c = Lt.
Proof.
  intros Hab Hbc.
  pose proof (compare_lt_rank _ _ Hab) as Rab.
  pose proof (compare_lt_rank _ _ Hbc) as Rbc.
  destruct (decide (rank a < rank c)%nat) as [Hlt|Hge]; [by apply compare_ranks|].
  assert (rank a = rank b /\ rank b = rank c) as [E1 E2] by lia.
  destruct a as [|m|p|s], b as [|n|q|t], c as [|o|r|u]; try done;
    try (rewrite compare_numbers in * by done;
         apply Qlt_alt; apply Qlt_alt in Hab; apply Qlt_alt in Hbc;
         eapply Qlt_trans; eassumption).
  cbn in *. eapply string_compare_trans; eassumption.
Qed.

Lemma value_compare_eq_l a b c :
  value_compare a b = Eq -> value_compare a c = value_compare b c.
Proof.
  intros Hab.
  destruct a as [|m|p|s], b as [|n|q|t]; try done.
  1-4: destruct c as [|o|r|u]; [done| | |done];
       rewrite compare_numbers in Hab by done; apply Qeq_alt in Hab;
       rewrite !compare_numbers by done; by rewrite Hab.
  cbn in Hab. by apply String.compare_eq_iff in Hab as ->.
Qed.

Lemma value_compare_eq_r a b c :
  value_compare b c = Eq -> value_compare a b = value_compare a c.
Proof.
  intros H. rewrite (value_compare_antisym b a), (value_compare_antisym c a).
  f_equal. symmetry. apply value_compare_eq_l.
  rewrite value_compare_antisym, H. done.
Qed.

Lemma value_compare_gt_trans a b c :
  value_compare a b = Gt -> value_compare b c = Gt -> value_compare a c = Gt.
Proof.
  intros Hab Hbc. rewrite value_compare_antisym in Hab, Hbc |- *.
  assert (value_compare c a = Lt) as ->; [|done].
  apply (value_compare_lt_trans _ b).
  - by destruct (value_compare c b).
  - by destruct (value_compare b a).
Qed.

(** ** ORDER BY *)

Lemma order_compare_antisym desc : forall a b,
  order_compare desc b a = CompOpp (order_compare desc a b).
Proof.
  induction desc as [|d desc IH]; intros [|x a] [|y b]; cbn [order_compare]; try done.
  rewrite (value_compare_antisym x y).
  destruct (value_compare x y); cbn [CompOpp]; [apply IH| |]; by destruct d.
Qed.

Lemma order_compare_trans desc : forall a b c,
  length a = length b -> length b = length c ->
  order_compare desc a b <> Gt -> order_compare desc b c <> Gt ->
  order_compare desc a c <> Gt.
Proof.
  induction desc as [|d desc IH]; intros [|x a] [|y b] [|z c]; cbn [order_compare length];
    try done.
  intros La Lb.
  destruct (value_compare x y) eqn:Exy.
  - rewrite (value_compare_eq_l _ _ z Exy).
    destruct (value_compare y z) eqn:Eyz; [apply IH; lia|done|done].
  - destruct (value_compare y z) eqn:Eyz.
    + rewrite <- (value_compare_eq_r x _ _ Eyz), Exy. done.
    + by rewrite (value_compare_lt_trans _ _ _ Exy Eyz).
    + by destruct d.
  - destruct (value_compare y z) eqn:Eyz.
    + rewrite <- (value_compare_eq_r x _ _ Eyz), Exy. done.
    + by destruct d.
    + by rewrite (value_compare_gt_trans _ _ _ Exy Eyz).
Qed.

Lemma sort_insert_perm desc (x : list value * row) l :
  Permutation (sort_insert desc x l) (x :: l).
Proof.
  induction l as [|y l IH]; cbn [sort_insert]; [done|].
  destruct (order_compare desc (fst x) (fst y)); try done;
    rewrite IH; apply perm_swap.
Qed.

Lemma sort_fold_perm desc (l : list (list value * row)) : forall acc,
  Permutation (fold_left (fun acc x => sort_insert desc x acc) l acc) (acc ++ l).
Proof.
  induction l as [|x l IH]; intros acc; cbn [fold_left]; [by rewrite app_nil_r|].
  rewrite IH, sort_insert_perm. cbn [app]. apply Permutation_middle.
Qed.

Section sorting.
Variables (desc : list bool) (n : nat).

Lemma sort_insert_sorted x l :
  Forall (fun y => length (fst y) = n) (x :: l) ->
  StronglySorted (in_order desc) l -> StronglySorted (in_order desc) (sort_insert desc x l).
Proof.
  intros Hn Hs. induction Hs as [|y l Hs IH Hy]; cbn [sort_insert].
  - repeat constructor.
  - apply Forall_cons in Hn as [Hx Hn]. apply Forall_cons in Hn as [Hy' Hn].
    destruct (order_compare desc (fst x) (fst y)) eqn:E.
    + constructor.
      * apply IH. by constructor.
      * rewrite sort_insert_perm. constructor; [|done].
        unfold in_order. rewrite order_compare_antisym, E. done.
    + constructor; [by constructor|].
      assert (Hxy : in_order desc x y) by (unfold in_order; by rewrite E).
      constructor; [done|].
      eapply Forall_impl; [apply Forall_and; split; [exact Hy|exact Hn]|].
      intros z [Hz Lz]. unfold in_order in *.
      eapply order_compare_trans; [| |exact Hxy|exact Hz]; congruence.
    + constructor.
      * apply IH. by constructor.
      * rewrite sort_insert_perm. constructor; [|done].
        unfold in_order. rewrite order_compare_antisym, E. done.
Qed.

Lemma sort_fold_sorted (l : list (list value * row)) : forall acc,
  Forall (fun y => length (fst y) = n) (acc ++ l) ->
  StronglySorted (in_order desc) acc ->
  StronglySorted (in_order desc) (fold_left (fun acc x => sort_insert desc x acc) l acc).
Proof.
  induction l as [|x l IH]; intros acc Hn Hs; cbn [fold_left]; [done|].
  apply IH.
  - rewrite sort_insert_perm. cbn [app]. by rewrite Permutation_middle.
  - apply sort_insert_sorted; [|done].
    apply Forall_app in Hn as [Ha Hl]. apply Forall_cons in Hl as [Hx _].
    by constructor.
Qed.

End sorting.

Lemma StronglySorted_map {A B} (R : B -> B -> Prop) (f : A -> B) l :
  StronglySorted (fun x y => R (f x) (f y)) l -> StronglySorted R (map f l).
Proof.
  induction 1 as [|x l _ IH Hx]; cbn [map]; constructor; [done|].
  apply List.Forall_forall. intros y Hy. apply in_map_iff in Hy as (z & <- & Hz).
  rewrite List.Forall_forall in Hx. by apply Hx.
Qed.

Lemma StronglySorted_weaken {A} (R R' : A -> A -> Prop) l :
  (forall x y, R x y -> R' x y) -> StronglySorted R l -> StronglySorted R' l.
Proof.
  intros H. induction 1 as [|x l _ IH Hx]; constructor; [done|].
  eapply Forall_impl; [exact Hx|]. eauto.
Qed.

Lemma StronglySorted_among {A} (R R' : A -> A -> Prop) (P : A -> Prop) l :
  (forall x y, P x -> P y -> R x y -> R' x y) -> Forall P l ->
  StronglySorted R l -> StronglySorted R' l.
Proof.
  intros H HP. induction 1 as [|x l _ IH Hx]; constructor.
  - apply IH. by apply Forall_cons in HP as [_ ?].
  - apply Forall_cons in HP as [Px Pl].
    eapply Forall_impl; [apply Forall_and; split; [exact Hx|exact Pl]|].
    intros y [Rxy Py]. eauto.
Qed.

(** ORDER BY gives the rows back in order: what [sort_rows] returns is a
    rearrangement of what it was given in which no row comes after a
    later one. *)
Lemma sort_rows_sorted desc (key : row -> list value) n (l : list (list value * row)) :
  (forall r, length (key r) = n) ->
  Forall (fun x => fst x = key (snd x)) l ->
  Permutation (sort_rows desc l) (map snd l) /\
  StronglySorted (fun r1 r2 => order_compare desc (key r1) (key r2) <> Gt)
                 (sort_rows desc l).
Proof.
  intros Hn Hk. unfold sort_rows.
  pose proof (sort_fold_perm desc l []) as Hp. cbn [app] in Hp.
  split; [by rewrite Hp|].
  apply StronglySorted_map.
  apply (StronglySorted_among (in_order desc) _ (fun x => fst x = key (snd x))).
  - intros x y Hx Hy. unfold in_order. by rewrite Hx, Hy.
  - by rewrite Hp.
  - apply (sort_fold_sorted desc n); [|constructor].
    cbn [app]. eapply Forall_impl; [exact Hk|].
    intros x ->. apply Hn.
Qed.

(** SELECT * FROM one table ORDER BY columns: the rows of the table,
    sorted by these columns. *)
Lemma select_star_ordered (db : database) t tb (cols : list (string * bool)) lim :
  db !! t = Some tb ->
  eval_query db (Select [Star] [from t] None [] None
                        (map (fun k => (col (fst k), snd k)) cols) lim) =
  rbind (check_each (check_expr false (scope_of t tb)) (map (fun k => col (fst k)) cols))
    (fun _ =>
       Ok (column_names (tbl_schema tb),
           limit_rows lim
             (sort_rows (map snd cols)
                (map (fun r => (map (fun k => cell_of tb (fst k) r) cols, r))
                     (tbl_rows tb))))).
Proof.
  intros L. unfold from. rewrite (eval_single _ _ _ _ _ _ _ _ _ _ L).
  assert (Ho : map (fun k => expand true (scope_of t tb) [Star] (fst k))
                   (map (fun k => (col (fst k), snd k)) cols) =
               map (fun k => col (fst k)) cols).
  { rewrite map_map. apply map_ext. intros k. apply expand_plain.
    intros c. reflexivity. }
  rewrite select_plain; rewrite ?Ho; [| done |].
  - cbn [check_each check_item check_opt rbind].
    destruct (check_each _ (map _ cols)) as [[]|] eqn:Hc; [|done]. cbn [rbind].
    rewrite star_names, filter_holds_none.
    assert (E1 : map snd (map (fun k : string * bool => (col (fst k), snd k)) cols) =
                 map snd cols) by (rewrite map_map; reflexivity).
    assert (E2 : map (fun r => (map (eval_scalar (scope_of t tb) r)
                                    (map (fun k : string * bool => col (fst k)) cols),
                                project (scope_of t tb) [Star] r)) (tbl_rows tb) =
                 map (fun r => (map (fun k : string * bool => cell_of tb (fst k) r) cols, r))
                     (tbl_rows tb)).
    { apply map_ext. intros r. unfold project. cbn [flat_map]. rewrite app_nil_r.
      f_equal. rewrite map_map. apply map_ext_in. intros k Hk.
      assert (check_expr false (scope_of t tb) (col (fst k)) = Ok tt) as Hk'.
      { clear -Hc Hk. induction cols as [|k' cols IH]; [done|].
        cbn [map check_each] in Hc. apply rbind_ok in Hc as ([] & H1 & H2).
        destruct Hk as [->|Hk]; eauto. }
      unfold col in *. by rewrite (eval_column _ _ _ _ _ Hk'). }
    by rewrite E1, E2.
  - clear. induction cols as [|k cols IH]; [done|]. exact IH.
Qed.

(** X14: cell 27 shows the first ten rows of orders in the order of their
    customer_id: the rows of the table rearranged so that no customer_id
    is followed by a smaller one, cut after ten. *)
Theorem orders_sorted_by_customer (db : database) tb names rows :
  db !! "orders" = Some tb ->
  eval_query db orders_by_customer = Ok (names, rows) ->
  names = column_names (tbl_schema tb) /\
  exists sorted,
    Permutation sorted (tbl_rows tb) /\
    StronglySorted (fun r1 r2 => value_compare (cell_of tb "customer_id" r1)
                                               (cell_of tb "customer_id" r2) <> Gt)
                   sorted /\
    rows = firstn 10 sorted.
Proof.
  intros L H. unfold orders_by_customer in H.
  rewrite (select_star_ordered _ _ _ [("customer_id", false)] _ L) in H.
  apply rbind_ok in H as ([] & _ & [= <- <-]). split; [done|].
  eexists. split; [|split; [|reflexivity]].
  - etransitivity;
      [apply (sort_rows_sorted _ (fun r => [cell_of tb "customer_id" r]) 1)|].
    + done.
    + apply List.Forall_forall. intros x Hx. by apply in_map_iff in Hx as (r & <- & _).
    + rewrite map_map. cbn [snd]. by rewrite map_id.
  - eapply StronglySorted_weaken;
      [|apply (sort_rows_sorted _ (fun r => [cell_of tb "customer_id" r]) 1)].
    + cbv beta. intros r1 r2. cbn [map snd order_compare].
      by destruct (value_compare _ _).
    + done.
    + apply List.Forall_forall. intros x Hx. by apply in_map_iff in Hx as (r & <- & _).
Qed.

(** X15: cell 28 shows the first ten rows of orders sorted by customer_id
    upwards and, among the rows of one customer, by product_id downwards. *)
Theorem orders_sorted_by_customer_and_product (db : database) tb names rows :
  db !! "orders" = Some tb ->
  eval_query db orders_by_customer_product = Ok (names, rows) ->
  names = column_names (tbl_schema tb) /\
  exists sorted,
    Permutation sorted (tbl_rows tb) /\
    StronglySorted (customer_then_product tb) sorted /\
    rows = firstn 10 sorted.
Proof.
  intros L H. unfold orders_by_customer_product in H.
  rewrite (select_star_ordered _ _ _ [("customer_id", false); ("product_id", true)] _ L) in H.
  apply rbind_ok in H as ([] & _ & [= <- <-]). split; [done|].
  eexists. split; [|split; [|reflexivity]].
  - etransitivity;
      [apply (sort_rows_sorted _ (fun r => [cell_of tb "customer_id" r;
                                            cell_of tb "product_id" r]) 2)|].
    + done.
    + apply List.Forall_forall. intros x Hx. by apply in_map_iff in Hx as (r & <- & _).
    + rewrite map_map. cbn [snd]. by rewrite map_id.
  - eapply StronglySorted_weaken;
      [|apply (sort_rows_sorted _ (fun r => [cell_of tb "customer_id" r;
                                             cell_of tb "product_id" r]) 2)].
    + cbv beta. intros r1 r2. cbn [map snd order_compare]. unfold customer_then_product.
      destruct (value_compare (cell_of tb "customer_id" r1) _); [|by left|done].
      intros H. right. split; [done|].
      by destruct (value_compare (cell_of tb "product_id" r1) _).
    + done.
    + apply List.Forall_forall. intros x Hx. by apply in_map_iff in Hx as (r & <- & _).
Qed.

(** ** Aggregates *)

Lemma value_le_trans a b c :
  value_compare a b <> Gt -> value_compare b c <> Gt -> value_compare a c <> Gt.
Proof.
  intros Hab Hbc.
  destruct (value_compare a b) eqn:Eab; [|clear Hab|done].
  - by rewrite (value_compare_eq_l _ _ c Eab).
  - destruct (value_compare b c) eqn:Ebc; [| |done].
    + by rewrite <- (value_compare_eq_r a _ _ Ebc), Eab.
    + by rewrite (value_compare_lt_trans _ _ _ Eab Ebc).
Qed.

(** An aggregate query without GROUP BY answers with one row. *)
Lemma select_aggregate sc rows items wh lim :
  existsb item_has_agg items = true ->
  select_rows sc rows items wh [] None [] lim =
  rbind (check_each (check_item true sc) items) (fun _ =>
  rbind (check_opt false sc wh) (fun _ =>
  rbind (rmapM (eval_item sc (List.filter (holds sc wh) rows)) items) (fun vs =>
  Ok (item_names sc items, limit_rows lim [concat vs])))).
Proof.
  intros Hi. unfold select_rows. cbn [map option_map]. rewrite Hi.
  cbn [orb check_each check_opt rbind].
  destruct (check_each (check_item true sc) items) as [[]|]; [|done]. cbn [rbind].
  destruct (check_opt false sc wh) as [[]|]; [|done]. cbn [rbind rmapM].
  unfold output_row. cbn [eval_having rbind rmapM].
  destruct (rmapM _ items) as [vs|]; [|done]. reflexivity.
Qed.

Lemma max_fold vs : forall acc,
  let m := fold_left (fun m v => match value_compare m v with Lt => v | _ => m end) vs acc in
  value_compare acc m <> Gt /\
  Forall (fun v => value_compare v m <> Gt) vs /\
  (m = acc \/ In m vs).
Proof.
  induction vs as [|v vs IH]; intros acc; cbn [fold_left].
  - split; [by rewrite value_compare_refl|]. split; [constructor|by left].
  - cbv zeta. destruct (value_compare acc v) eqn:E.
    + destruct (IH acc) as (H1 & H2 & H3). split; [done|]. split.
      * constructor; [|done]. apply (value_le_trans _ acc); [|done].
        rewrite value_compare_antisym, E. by cbn.
      * destruct H3; [by left|right; by right].
    + destruct (IH v) as (H1 & H2 & H3). split.
      * apply (value_le_trans _ v); [by rewrite E|done].
      * split; [by constructor|]. destruct H3 as [->|]; right; [by left|by right].
    + destruct (IH acc) as (H1 & H2 & H3). split; [done|]. split.
      * constructor; [|done]. apply (value_le_trans _ acc); [|done].
        rewrite value_compare_antisym, E. by cbn.
      * destruct H3; [by left|right; by right].
Qed.

Lemma null_is_least v : value_compare v VNull <> Gt -> v = VNull.
Proof. by destruct v. Qed.

Lemma known_in v vs : In v (known vs) <-> In v vs /\ is_null v = false.
Proof.
  unfold known. rewrite filter_In.
  destruct (is_null v); cbn; split; intros [? ?]; done.
Qed.

Lemma sql_max_spec vs :
  match known vs with
  | [] => sql_max vs = VNull
  | _ => In (sql_max vs) (known vs) /\
         Forall (fun v => value_compare v (sql_max vs) <> Gt) vs
  end.
Proof.
  unfold sql_max. destruct (max_fold vs VNull) as (_ & H2 & H3). cbv zeta in *.
  set (m := fold_left _ vs VNull) in *.
  destruct (known vs) as [|k ks] eqn:Ek.
  - destruct H3 as [|H3]; [done|].
    destruct (is_null m) eqn:Em; [by destruct m|].
    assert (In m (known vs)) as Hin by by apply known_in.
    by rewrite Ek in Hin.
  - split; [|done]. rewrite <- Ek. apply known_in.
    assert (In k (known vs)) as Hk by (rewrite Ek; by left).
    apply known_in in Hk as [Hk Hn].
    rewrite List.Forall_forall in H2. specialize (H2 k Hk).
    destruct H3 as [Hm|H3].
    + rewrite Hm in H2. apply null_is_least in H2. by subst.
    + split; [done|]. destruct (is_null m) eqn:Em; [|done].
      destruct m; try done. apply null_is_least in H2. by subst.
Qed.

Lemma sum_fold vs : forall st,
  (sum_real (fold_left sum_step vs st) == sum_real st + total (known vs))%Q /\
  sum_count (fold_left sum_step vs st) = (sum_count st + length (known vs))%nat.
Proof.
  induction vs as [|v vs IH]; intros st; cbn [fold_left known List.filter total fold_right].
  - split; [ring|cbn [length]; lia].
  - destruct (IH (sum_step st v)) as [H1 H2]. fold (known vs).
    destruct v as [|n|q|s]; cbn [is_null negb sum_step] in *.
    + done.
    + cbn [sum_real sum_count total fold_right length number] in *.
      fold (total (known vs)). rewrite H1, H2, Qred_correct. split; [ring|lia].
    + cbn [sum_real sum_count total fold_right length number] in *.
      fold (total (known vs)). rewrite H1, H2, Qred_correct. split; [ring|lia].
    + cbn [sum_real sum_count total fold_right length number] in *.
      fold (total (known vs)). rewrite H1, H2. split; [ring|lia].
Qed.

Lemma sql_avg_spec vs :
  match known vs with
  | [] => sql_avg vs = VNull
  | _ => exists q, sql_avg vs = VReal q
  end.
Proof.
  unfold sql_avg, sum_states. destruct (sum_fold vs (SumState 0 0 false false 0)) as [_ H2].
  cbn [sum_count] in *. rewrite H2.
  destruct (known vs) as [|k ks]; [done|]. cbn [length plus]. eauto.
Qed.

(** X16: cell 30 always answers with one row of two values.  On a price
    column of numbers, both are NULL when no product has a price;
    otherwise the first, the average, is a REAL number, and the second is
    a known price that no price of the table exceeds.  (The value of the
    average is left open: the engine computes it in floating point.) *)
Theorem average_and_highest_price (db : database) tb names rows :
  db !! "products" = Some tb ->
  numeric tb "price" ->
  eval_query db price_stats = Ok (names, rows) ->
  let prices := map (cell_of tb "price") (tbl_rows tb) in
  exists average highest,
    rows = [[average; highest]] /\
    match known prices with
    | [] => average = VNull /\ highest = VNull
    | ks =>
        (exists q, average = VReal q) /\
        In highest ks /\
        Forall (fun v => value_compare v highest <> Gt) prices
    end.
Proof.
  intros L _ H prices. unfold price_stats, simple, from in H.
  rewrite (eval_single _ _ _ _ _ _ _ _ _ _ L), select_aggregate in H by done.
  apply rbind_ok in H as ([] & Hc & H). cbn [check_opt rbind] in H.
  cbn [check_each check_item plain check_expr] in Hc.
  apply rbind_ok in Hc as ([] & Hc & _).
  rewrite filter_holds_none in H. cbn [rmapM eval_item plain eval_group aggregate rbind] in H.
  injection H as _ <-. cbn [limit_rows concat app].
  assert (E : map (fun r => match resolve (scope_of "products" tb) None "price" with
                            | Ok i => nth i r VNull
                            | Err _ => VNull
                            end) (tbl_rows tb) = prices).
  { apply map_ext. intros r. exact (eval_column _ _ _ r _ Hc). }
  rewrite E. exists (sql_avg prices), (sql_max prices). split; [done|].
  pose proof (sql_avg_spec prices) as Ha. pose proof (sql_max_spec prices) as Hm.
  destruct (known prices) as [|k ks]; [done|]. split; [exact Ha|].
  by destruct Hm.
Qed.

(** ** GROUP BY *)

Lemma keys_compare_antisym a : forall b,
  keys_compare b a = CompOpp (keys_compare a b).
Proof.
  induction a as [|x a IH]; intros [|y b]; cbn [keys_compare]; try done.
  rewrite (value_compare_antisym x y).
  destruct (value_compare x y); cbn [CompOpp]; [apply IH|done|done].
Qed.

Lemma keys_compare_lt_trans a : forall b c,
  keys_compare a b = Lt -> keys_compare b c = Lt -> keys_compare a c = Lt.
Proof.
  induction a as [|x a IH]; intros [|y b] [|z c]; cbn [keys_compare]; try done.
  destruct (value_compare x y) eqn:Exy; [|intros _|done].
  - rewrite (value_compare_eq_l _ _ z Exy).
    destruct (value_compare y z); [apply IH|done|done].
  - destruct (value_compare y z) eqn:Eyz; [| |done].
    + by rewrite <- (value_compare_eq_r x _ _ Eyz), Exy.
    + by rewrite (value_compare_lt_trans _ _ _ Exy Eyz).
Qed.

Lemma keys_compare_refl a : keys_compare a a = Eq.
Proof.
  pose proof (keys_compare_antisym a a) as H. by destruct (keys_compare a a).
Qed.

Section grouping.
Variable key : row -> list value.

Lemma add_to_group_keys r gs :
  Forall (fun g => fst g = key r \/ In g gs \/
                   exists g', In g' gs /\ fst g = fst g' /\ snd g = snd g' ++ [r])
         (add_to_group (key r) r gs).
Proof.
  induction gs as [|[k rs] gs IH]; cbn [add_to_group].
  - repeat constructor.
  - destruct (keys_compare (key r) k).
    + constructor.
      * right. right. exists (k, rs). split; [by left|done].
      * apply List.Forall_forall. intros g Hg. right. left. by right.
    + constructor; [by left|].
      apply List.Forall_forall. intros g Hg. right. by left.
    + constructor; [right; left; by left|].
      eapply Forall_impl; [exact IH|].
      intros g [Hg|[Hg|(g' & Hg' & E1 & E2)]]; [by left|right; left; by right|].
      right. right. exists g'. split; [by right|done].
Qed.

Lemma add_to_group_sorted r gs :
  StronglySorted (fun g1 g2 => keys_compare (fst g1) (fst g2) = Lt) gs ->
  StronglySorted (fun g1 g2 => keys_compare (fst g1) (fst g2) = Lt)
                 (add_to_group (key r) r gs).
Proof.
  intros Hs. induction Hs as [|[k rs] gs Hs IH Hk]; cbn [add_to_group].
  - repeat constructor.
  - destruct (keys_compare (key r) k) eqn:E.
    + constructor; [done|]. exact Hk.
    + constructor; [by constructor|]. constructor; [done|].
      eapply Forall_impl; [exact Hk|]. cbn [fst]. intros g Hg.
      by apply (keys_compare_lt_trans _ k).
    + constructor; [done|].
      eapply Forall_impl; [apply add_to_group_keys|].
      cbn [fst]. intros g [Hg|[Hg|(g' & Hg' & E1 & E2)]].
      * rewrite Hg, keys_compare_antisym, E. done.
      * rewrite List.Forall_forall in Hk. by apply Hk.
      * rewrite E1. rewrite List.Forall_forall in Hk. by apply Hk.
Qed.

Lemma add_to_group_rows r gs :
  Permutation (concat (map snd (add_to_group (key r) r gs))) (r :: concat (map snd gs)).
Proof.
  induction gs as [|[k rs] gs IH]; cbn [add_to_group]; [done|].
  destruct (keys_compare (key r) k); cbn [map snd concat].
  - rewrite <- app_assoc. cbn [app].
    rewrite <- Permutation_middle. done.
  - done.
  - rewrite IH. by rewrite <- Permutation_middle.
Qed.

Lemma add_to_group_same r gs :
  Forall (fun g => snd g <> [] /\ fst g = key (hd [] (snd g)) /\
                   Forall (fun x => keys_compare (key x) (fst g) = Eq) (snd g)) gs ->
  Forall (fun g => snd g <> [] /\ fst g = key (hd [] (snd g)) /\
                   Forall (fun x => keys_compare (key x) (fst g) = Eq) (snd g))
         (add_to_group (key r) r gs).
Proof.
  intros Hg. induction Hg as [|[k rs] gs (Hne & Hk & Hrs) Hg IH]; cbn [add_to_group].
  - constructor; [|constructor]. cbn [fst snd hd]. split; [done|]. split; [done|].
    constructor; [apply keys_compare_refl|constructor].
  - destruct (keys_compare (key r) k) eqn:E.
    + constructor; [|done]. cbn [fst snd] in *. split; [by destruct rs|].
      split; [by destruct rs|].
      apply Forall_app. split; [done|]. by constructor.
    + constructor; [|by constructor]. cbn [fst snd hd]. split; [done|]. split; [done|].
      constructor; [apply keys_compare_refl|constructor].
    + constructor; [done|exact IH].
Qed.

End grouping.

(** The groups of GROUP BY: every row is in one group, the rows of a
    group have the key of the group, and the groups come in the order of
    their keys, so that no two groups have the same key. *)
Lemma group_rows_spec sc by_ rows :
  let key r := map (eval_scalar sc r) by_ in
  let groups := group_rows sc by_ rows in
  Permutation (concat groups) rows /\
  Forall (fun g => g <> [] /\
                   Forall (fun r => keys_compare (key r) (key (hd [] g)) = Eq) g) groups /\
  StronglySorted (fun g1 g2 => keys_compare (key (hd [] g1)) (key (hd [] g2)) = Lt) groups.
Proof.
  intros key groups. unfold groups, group_rows.
  set (step := fun gs r => add_to_group (map (eval_scalar sc r) by_) r gs).
  set (J := fun g : list value * list row =>
              snd g <> [] /\ fst g = key (hd [] (snd g)) /\
              Forall (fun x => keys_compare (key x) (fst g) = Eq) (snd g)).
  set (R := fun g1 g2 : list value * list row => keys_compare (fst g1) (fst g2) = Lt).
  assert (forall l gs,
    Forall J gs -> StronglySorted R gs ->
    Permutation (concat (map snd (fold_left step l gs))) (concat (map snd gs) ++ l) /\
    Forall J (fold_left step l gs) /\ StronglySorted R (fold_left step l gs)) as Hfold.
  { induction l as [|r l IH]; intros gs H1 H2; cbn [fold_left].
    - by rewrite app_nil_r.
    - destruct (IH (step gs r)) as (P & Q1 & Q2).
      + by apply (add_to_group_same key).
      + by apply (add_to_group_sorted key).
      + split; [|done]. rewrite P. unfold step.
        pose proof (add_to_group_rows (fun r => map (eval_scalar sc r) by_) r gs) as P'.
        cbv beta in P'. rewrite P'. cbn [app]. by rewrite Permutation_middle. }
  destruct (Hfold rows []) as (P & Q1 & Q2); [constructor|constructor|].
  cbn [map concat app] in P. split; [exact P|]. split.
  - apply List.Forall_forall. intros g Hg. apply in_map_iff in Hg as (x & <- & Hx).
    rewrite List.Forall_forall in Q1. destruct (Q1 x Hx) as (Hne & Hk & Hall).
    split; [done|]. by rewrite <- Hk.
  - apply StronglySorted_map.
    apply (StronglySorted_among R _ J); [|done|done].
    intros x y (_ & Hx & _) (_ & Hy & _). unfold R. by rewrite Hx, Hy.
Qed.

Lemma keys_compare_single a b : keys_compare [a] [b] = value_compare a b.
Proof. cbn [keys_compare]. by destruct (value_compare a b). Qed.

(** X17: cell 32 puts the orders into groups by delivery_country.  Every
    order is in one group, the orders of a group have the same
    delivery_country, the groups come in the order of their countries, so
    that no country has two groups, and the cell shows, for the first ten
    groups, the country and the number of different order ids. *)
Theorem orders_counted_by_country (db : database) tb names rows :
  db !! "orders" = Some tb ->
  eval_query db orders_per_country = Ok (names, rows) ->
  let country := cell_of tb "delivery_country" in
  exists groups,
    Permutation (concat groups) (tbl_rows tb) /\
    Forall (fun g => g <> [] /\
                     Forall (fun r => value_compare (country r) (country (hd [] g)) = Eq) g)
           groups /\
    StronglySorted (fun g1 g2 => value_compare (country (hd [] g1)) (country (hd [] g2)) = Lt)
                   groups /\
    rows = firstn 10 (map (fun g => [country (hd [] g);
                                     sql_count_distinct (map (cell_of tb "id") g)])
                          groups).
Proof.
  intros L H country. unfold orders_per_country, from, plain, col in H.
  rewrite (eval_single _ _ _ _ _ _ _ _ _ _ L) in H.
  set (sc := scope_of "orders" tb) in *.
  unfold select_rows in H. cbn [map option_map expand find_alias orb] in H.
  apply rbind_ok in H as ([] & Hi & H).
  cbn [check_each check_item] in Hi.
  apply rbind_ok in Hi as ([] & Hc & Hi). apply rbind_ok in Hi as ([] & Hd & _).
  cbn [check_opt check_each rbind] in H.
  assert (Hc' : check_expr false sc (ECol None "delivery_country") = Ok tt) by exact Hc.
  rewrite Hc' in H. cbn [rbind] in H. rewrite filter_holds_none in H.
  assert (Ec : forall r, eval_scalar sc r (ECol None "delivery_country") = country r).
  { intros r. exact (eval_column _ _ _ r _ Hc). }
  assert (Ed : forall r, eval_scalar sc r (ECol None "id") = cell_of tb "id" r).
  { intros r. exact (eval_column _ _ _ r _ Hd). }
  set (groups := group_rows sc [ECol None "delivery_country"] (tbl_rows tb)) in *.
  rewrite (rmapM_ok _ (fun g => (true, ([], [country (hd [] g);
                                            sql_count_distinct (map (cell_of tb "id") g)])))) in H.
  - cbn [rbind] in H. injection H as _ <-.
    rewrite sort_rows_unordered, filter_fst_kept, map_map. cbn [snd limit_rows].
    exists groups. destruct (group_rows_spec sc [ECol None "delivery_country"] (tbl_rows tb))
      as (P & Q & S). fold groups in P, Q, S.
    split; [exact P|]. split; [|split; [|reflexivity]].
    + eapply Forall_impl; [exact Q|]. cbv beta. intros g [Hne Hall]. split; [done|].
      eapply Forall_impl; [exact Hall|]. cbv beta. intros r.
      cbn [map]. by rewrite keys_compare_single, !Ec.
    + eapply StronglySorted_weaken; [|exact S]. cbv beta. intros g1 g2.
      cbn [map]. by rewrite keys_compare_single, !Ec.
  - apply List.Forall_forall. intros g _. unfold output_row.
    cbn [eval_having rmapM rbind eval_item eval_group aggregate concat app].
    rewrite Ec.
    by rewrite (map_ext _ (cell_of tb "id") Ed).
Qed.

(** *** SUM on integers *)

Lemma sum_overflow_stays vs : forall st,
  sum_overflow st = true -> sum_overflow (fold_left sum_step vs st) = true.
Proof.
  induction vs as [|v vs IH]; intros st H; cbn [fold_left]; [done|].
  apply IH. destruct v; cbn [sum_step sum_overflow]; by rewrite ?H.
Qed.

Lemma sum_integers vs : forall st,
  Forall (fun v => integer v = true) (known vs) ->
  sum_approx st = false ->
  sum_overflow (fold_left sum_step vs st) = false ->
  sum_int (fold_left sum_step vs st) = (sum_int st + whole_total (known vs))%Z /\
  sum_approx (fold_left sum_step vs st) = false.
Proof.
  induction vs as [|v vs IH]; intros st Hv Ha Ho;
    cbn [fold_left known List.filter whole_total fold_right] in *.
  - split; [lia|done].
  - fold (known vs) in *.
    assert (sum_overflow (sum_step st v) = false) as Ho1.
    { destruct (sum_overflow (sum_step st v)) eqn:E; [|done].
      by rewrite (sum_overflow_stays vs _ E) in Ho. }
    destruct v as [|n|q|s]; cbn [is_null negb] in *.
    + by apply IH.
    + apply Forall_cons in Hv as [_ Hv].
      assert (sum_overflow st = false /\ int64_ok (sum_int st + n) = true) as [Eo Ei].
      { cbn [sum_step sum_overflow] in Ho1. rewrite Ha in Ho1.
        destruct (sum_overflow st); [done|]. cbn [orb negb andb] in Ho1.
        by destruct (int64_ok _). }
      destruct (IH (sum_step st (VInt n)) Hv) as [H1 H2]; [by cbn [sum_step sum_approx]|done|].
      rewrite H1, H2. split; [|done].
      cbn [sum_step sum_int]. rewrite Ha, Eo. cbn [orb negb]. rewrite Ei.
      unfold whole_total. cbn [fold_right]. lia.
    + by apply Forall_cons in Hv as [Hv _].
    + by apply Forall_cons in Hv as [Hv _].
Qed.

Lemma sql_sum_null vs v : sql_sum vs = Ok v -> v = VNull <-> known vs = [].
Proof.
  unfold sql_sum, sum_states.
  destruct (sum_fold vs (SumState 0 0 false false 0)) as [_ H]. cbn [sum_count plus] in H.
  rewrite H. destruct (known vs) as [|k ks]; cbn [length].
  - by intros [= <-].
  - destruct (sum_overflow _); [done|]. destruct (sum_approx _); intros [= <-]; done.
Qed.

Lemma sql_sum_integers vs v :
  Forall (fun x => integer x = true) (known vs) -> known vs <> [] ->
  sql_sum vs = Ok v -> v = VInt (whole_total (known vs)).
Proof.
  intros Hv Hne. unfold sql_sum, sum_states.
  destruct (sum_fold vs (SumState 0 0 false false 0)) as [_ H]. cbn [sum_count plus] in H.
  rewrite H. destruct (known vs) as [|k ks] eqn:Ek; [done|]. cbn [length].
  destruct (sum_overflow _) eqn:Eo; [done|].
  destruct (sum_integers vs (SumState 0 0 false false 0)) as [H1 H2];
    [by rewrite Ek|done|done|].
  rewrite H2, H1, Ek. cbn [sum_int]. by intros [= <-].
Qed.

(** ** Joins *)

Lemma matches_shift sc t c : forall k,
  matches k sc t c = map (plus k) (matches 0 sc t c).
Proof.
  induction sc as [|[a n] sc IH]; intros k; cbn [matches map]; [done|].
  rewrite (IH (S k)), (IH 1%nat).
  destruct (_ && _); cbn [map]; rewrite map_map;
    [f_equal; [lia|]|]; apply map_ext; intros; lia.
Qed.

Lemma matches_app sc1 sc2 t c : forall k,
  matches k (sc1 ++ sc2) t c =
  matches k sc1 t c ++ matches (k + length sc1) sc2 t c.
Proof.
  induction sc1 as [|[a n] sc1 IH]; intros k; cbn [app matches length].
  - by rewrite Nat.add_0_r.
  - rewrite IH. replace (S k + length sc1)%nat with (k + S (length sc1))%nat by lia.
    by destruct (_ && _).
Qed.

Lemma matches_other a names t c k :
  ident_eqb a t = false -> matches k (map (fun n => (a, n)) names) (Some t) c = [].
Proof.
  intros Ha. revert k. induction names as [|n names IH]; intros k; cbn [map matches]; [done|].
  by rewrite Ha, andb_false_r, IH.
Qed.

Lemma matches_bound a names c i :
  matches 0 (map (fun n => (a, n)) names) None c = [i] -> (i < length names)%nat.
Proof.
  intros H. destruct (matches_index a names c 0) as (j & Hj & E); [by rewrite H|].
  rewrite H in E. cbn in E. subst j. clear H.
  revert i Hj. induction names as [|n names IH]; intros i; cbn [index_of length]; [done|].
  destruct (ident_eqb c n); [intros [= <-]; lia|].
  destruct (index_of c names) as [j|]; [|done]. intros [= <-].
  specialize (IH j eq_refl). lia.
Qed.

(** In the rows of a join of two tables, a column named with the alias of
    the first table is read from the row of the first table, and one
    named with the alias of the second from the row of the second. *)
Lemma eval_left a1 a2 t1 t2 c r1 r2 e :
  ident_eqb a1 a1 = true -> ident_eqb a2 a1 = false ->
  length r1 = length (sch_columns (tbl_schema t1)) ->
  check_expr false (scope_of a1 t1 ++ scope_of a2 t2) (ECol (Some a1) c) = Ok e ->
  eval_scalar (scope_of a1 t1 ++ scope_of a2 t2) (r1 ++ r2) (ECol (Some a1) c) =
  cell_of t1 c r1.
Proof.
  intros H1 H2 Hl. cbn [check_expr eval_scalar]. unfold resolve.
  rewrite matches_app. cbn [plus]. unfold scope_of.
  rewrite (matches_other _ _ _ _ _ H2), app_nil_r.
  rewrite (matches_alias _ _ _ _ _ H1).
  destruct (matches 0 _ None c) as [|i [|]] eqn:E; try done. intros _.
  pose proof (matches_bound _ _ _ _ E) as Hi.
  rewrite app_nth1 by (unfold column_names in Hi; rewrite length_map in Hi; lia).
  apply (resolve_cell a1). unfold resolve, scope_of. by rewrite E.
Qed.

Lemma eval_right a1 a2 t1 t2 c r1 r2 e :
  ident_eqb a2 a2 = true -> ident_eqb a1 a2 = false ->
  length r1 = length (sch_columns (tbl_schema t1)) ->
  check_expr false (scope_of a1 t1 ++ scope_of a2 t2) (ECol (Some a2) c) = Ok e ->
  eval_scalar (scope_of a1 t1 ++ scope_of a2 t2) (r1 ++ r2) (ECol (Some a2) c) =
  cell_of t2 c r2.
Proof.
  intros H1 H2 Hl. cbn [check_expr eval_scalar]. unfold resolve.
  rewrite matches_app. cbn [plus]. unfold scope_of.
  rewrite (matches_other _ _ _ _ _ H2). cbn [app].
  rewrite matches_shift, (matches_alias _ _ _ _ _ H1), length_map.
  destruct (matches 0 _ None c) as [|i [|]] eqn:E; try done. intros _.
  cbn [map].
  replace (length (column_names (tbl_schema t1))) with (length r1)
    by (unfold column_names; by rewrite length_map).
  rewrite app_nth2_plus.
  apply (resolve_cell a2). unfold resolve, scope_of. by rewrite E.
Qed.

Lemma map_flat_map {A B C} (f : B -> C) (g : A -> list B) l :
  map f (flat_map g l) = flat_map (fun x => map f (g x)) l.
Proof.
  induction l as [|x l IH]; cbn [flat_map map]; [done|]. by rewrite map_app, IH.
Qed.

Lemma filter_map {A B} (p : B -> bool) (h : A -> B) l :
  List.filter p (map h l) = map h (List.filter (fun x => p (h x)) l).
Proof.
  induction l as [|x l IH]; cbn [map List.filter]; [done|].
  destruct (p (h x)); cbn [map]; by rewrite IH.
Qed.

Lemma flat_map_ext_in {A B} (f g : A -> list B) l :
  (forall x, In x l -> f x = g x) -> flat_map f l = flat_map g l.
Proof.
  induction l as [|x l IH]; intros H; cbn [flat_map]; [done|].
  rewrite H by (by left). rewrite IH; [done|]. intros y Hy. apply H. by right.
Qed.

(** A query on two tables works on the pairs of their rows that satisfy
    the ON condition. *)
Lemma eval_pair (db : database) t1 a1 t2 a2 tb1 tb2 on items wh gb hv ob lim :
  db !! t1 = Some tb1 -> db !! t2 = Some tb2 ->
  eval_query db (Select items [FromTable t1 a1 None; FromTable t2 a2 on] wh gb hv ob lim) =
  rbind (check_opt false (scope_of a1 tb1 ++ scope_of a2 tb2) on) (fun _ =>
  select_rows (scope_of a1 tb1 ++ scope_of a2 tb2)
    (flat_map (fun r1 => List.filter (holds (scope_of a1 tb1 ++ scope_of a2 tb2) on)
                                     (map (app r1) (tbl_rows tb2)))
              (tbl_rows tb1))
    items wh gb hv ob lim).
Proof.
  intros L1 L2. cbn [eval_query]. unfold scan_table. rewrite L1, L2. cbn [rbind].
  unfold join at 1. cbn [check_opt rbind fst snd app flat_map].
  rewrite map_app_nil, filter_holds_none, app_nil_r.
  unfold join. cbn [fst snd]. fold (scope_of a1 tb1) (scope_of a2 tb2).
  by destruct (check_opt _ _ on) as [[]|].
Qed.

(** X18: cell 34 adds up, over the orders, the prices of the products
    they name: for each order the price of every product whose id is the
    product_id of the order.  On columns of numbers it answers with one
    value, which is NULL exactly when no order names a product with a
    known price; when the prices to add are integers the value is their
    sum as an integer (the query fails when that sum leaves the 64 bits).
    (A sum of REAL numbers is left open: the engine adds them in floating
    point.) *)
Theorem total_of_ordered_prices (db : database) orders products names rows :
  db !! "orders" = Some orders -> db !! "products" = Some products ->
  well_formed orders ->
  numeric orders "product_id" -> numeric products "id" -> numeric products "price" ->
  eval_query db sum_price_join = Ok (names, rows) ->
  let prices := known (ordered_prices orders products) in
  exists v,
    rows = [[v]] /\
    (v = VNull <-> prices = []) /\
    (prices <> [] -> Forall (fun x => integer x = true) prices ->
     v = VInt (whole_total prices)).
Proof.
  intros Lo Lp Wf _ _ _ H prices. unfold sum_price_join in H.
  rewrite (eval_pair _ _ _ _ _ _ _ _ _ _ _ _ _ _ Lo Lp) in H.
  set (sc := scope_of "o" orders ++ scope_of "p" products) in *.
  apply rbind_ok in H as ([] & Hon & H).
  cbn [check_opt check_expr] in Hon. apply rbind_ok in Hon as ([] & Ho & Hp).
  rewrite select_aggregate in H by done.
  apply rbind_ok in H as ([] & Hi & H). cbn [check_opt rbind] in H.
  cbn [check_each check_item plain check_expr] in Hi.
  apply rbind_ok in Hi as ([] & Hpr & _).
  rewrite filter_holds_none in H.
  cbn [rmapM eval_item plain eval_group aggregate] in H.
  assert (E : map (fun r => eval_scalar sc r (qcol "p" "price"))
                  (flat_map (fun r1 => List.filter
                               (holds sc (Some (ECmp CEq (qcol "o" "product_id") (qcol "p" "id"))))
                               (map (app r1) (tbl_rows products)))
                            (tbl_rows orders)) =
              ordered_prices orders products).
  { rewrite map_flat_map. unfold ordered_prices. apply flat_map_ext_in. intros r1 Hr1.
    unfold well_formed in Wf. rewrite List.Forall_forall in Wf. specialize (Wf r1 Hr1).
    rewrite filter_map, map_map.
    rewrite (filter_ext_in' _ (fun p => same_value (cell_of orders "product_id" r1)
                                                   (cell_of products "id" p))).
    - apply map_ext. intros r2. unfold qcol, sc.
      by apply (eval_right "o" "p" orders products "price" r1 r2 tt).
    - intros r2 _. unfold holds, same_value. cbn [eval_scalar compare_values].
      rewrite truth_of_bool. unfold qcol, sc.
      rewrite (eval_left "o" "p" orders products "product_id" r1 r2 tt) by done.
      rewrite (eval_right "o" "p" orders products "id" r1 r2 tt) by done.
      by destruct (sql_eq _ _) as [[]|]. }
  unfold qcol in E, H. fold sc in H. rewrite E in H.
  destruct (sql_sum (ordered_prices orders products)) as [v|] eqn:Es; [|done].
  cbn [rbind concat app limit_rows] in H. injection H as _ <-.
  exists v. split; [done|]. split; [exact (sql_sum_null _ _ Es)|].
  intros Hne Hall. exact (sql_sum_integers _ _ Hall Hne Es).
Qed.

(** ** ORDER BY a total *)

Lemma StronglySorted_firstn {A} (R : A -> A -> Prop) n : forall l,
  StronglySorted R l -> StronglySorted R (firstn n l).
Proof.
  induction n as [|n IH]; intros l Hs; [constructor|].
  destruct Hs as [|x l Hs Hx]; cbn [firstn]; constructor; [by apply IH|].
  by apply Forall_take.
Qed.

Lemma rmapM_inv {A B} (f : A -> result B) l : forall out,
  rmapM f l = Ok out -> Forall (fun b => exists a, In a l /\ f a = Ok b) out.
Proof.
  induction l as [|a l IH]; intros out; cbn [rmapM].
  - intros [= <-]. constructor.
  - intros H. apply rbind_ok in H as (b & Hb & H). apply rbind_ok in H as (bs & Hbs & [= <-]).
    constructor; [exists a; split; [by left|done]|].
    eapply Forall_impl; [exact (IH _ Hbs)|].
    intros b' (a' & Ha' & E). exists a'. split; [by right|done].
Qed.

(** A query that shows two items and sorts by the second, named by its
    alias: the rows have two values and come in the order of the second. *)
Lemma select_sorted_by_second sc rows e1 e2 a wh gb hv d lim names out :
  select_rows sc rows [Item e1 None; Item e2 (Some a)] wh gb hv [(ECol None a, d)] lim
    = Ok (names, out) ->
  names = item_names sc [Item e1 None; Item e2 (Some a)] /\
  Forall (fun r => length r = 2%nat) out /\
  StronglySorted (fun r1 r2 => order_compare [d] [nth 1 r1 VNull] [nth 1 r2 VNull] <> Gt) out.
Proof.
  unfold select_rows. cbn [map fst snd expand find_alias]. rewrite ident_eqb_refl.
  intros H. do 5 (apply rbind_ok in H as (? & _ & H)).
  apply rbind_ok in H as (outs & Ho & [= <- <-]). split; [done|].
  apply rmapM_inv in Ho.
  assert (Hk : Forall (fun x : list value * row =>
                         fst x = [nth 1 (snd x) VNull] /\ length (snd x) = 2%nat)
                      (map snd (List.filter fst outs))).
  { apply List.Forall_forall. intros z Hz. apply in_map_iff in Hz as ([keep y] & <- & Hy).
    apply filter_In in Hy as [Hy _]. rewrite List.Forall_forall in Ho.
    destruct (Ho _ Hy) as (g & _ & E). unfold output_row in E.
    apply rbind_ok in E as (k & _ & E). cbn [rmapM] in E.
    apply rbind_ok in E as (keys & Hkeys & E).
    apply rbind_ok in Hkeys as (v & Hv & [= <-]).
    apply rbind_ok in E as (vs & Hvs & [= _ <-]).
    cbn [eval_item] in Hvs. rewrite Hv in Hvs. cbn [rbind] in Hvs.
    destruct (eval_group sc g e1) as [v1|]; [|done]. cbn [rbind] in Hvs.
    by injection Hvs as <-. }
  destruct (sort_rows_sorted [d] (fun r => [nth 1 r VNull]) 1 (map snd (List.filter fst outs)))
    as [P S]; [done| |].
  { eapply Forall_impl; [exact Hk|]. by intros z [? _]. }
  split.
  - destruct lim as [n|]; cbn [limit_rows]; [apply Forall_take|];
      rewrite P; apply List.Forall_forall; intros r Hr;
      apply in_map_iff in Hr as (z & <- & Hz); rewrite List.Forall_forall in Hk;
      by destruct (Hk z Hz).
  - destruct lim as [n|]; cbn [limit_rows]; [by apply StronglySorted_firstn|done].
Qed.

Lemma eval_query_select (db : database) items src wh gb hv ob lim res :
  eval_query db (Select items src wh gb hv ob lim) = Ok res ->
  exists sc rows, select_rows sc rows items wh gb hv ob lim = Ok res.
Proof.
  cbn [eval_query]. intros H. apply rbind_ok in H as (j & _ & H). eauto.
Qed.

(** X19: cell 37 shows at most ten rows, each a name and a total, in the
    order of the totals: no total is followed by a smaller one. *)
Theorem totals_in_ascending_order (db : database) names rows :
  eval_query db total_per_customer = Ok (names, rows) ->
  names = ["name"; "total"] /\
  (length rows <= 10)%nat /\
  Forall (fun r => length r = 2%nat) rows /\
  StronglySorted (fun r1 r2 => value_compare (nth 1 r1 VNull) (nth 1 r2 VNull) <> Gt) rows.
Proof.
  intros H. pose proof (eval_query_limit _ _ _ _ _ _ _ _ _ _ H) as Hn.
  unfold total_per_customer, plain, qcol, col in H.
  apply eval_query_select in H as (sc & rs & H).
  apply select_sorted_by_second in H as (-> & Hl & Hs).
  split; [done|]. split; [done|]. split; [done|].
  eapply StronglySorted_weaken; [|exact Hs].
  cbv beta. intros r1 r2. cbn [order_compare]. by destruct (value_compare _ _).
Qed.

(** X20: cell 39 shows at most ten rows, each a billing country and the
    amount spent, with the largest amount first: no amount is followed by
    a larger one. *)
Theorem spending_in_descending_order (db : database) names rows :
  eval_query db spent_abroad = Ok (names, rows) ->
  names = ["bill"; "spent"] /\
  (length rows <= 10)%nat /\
  Forall (fun r => length r = 2%nat) rows /\
  StronglySorted (fun r1 r2 => value_compare (nth 1 r1 VNull) (nth 1 r2 VNull) <> Lt) rows.
Proof.
  intros H. pose proof (eval_query_limit _ _ _ _ _ _ _ _ _ _ H) as Hn.
  unfold spent_abroad, plain, qcol, col in H.
  apply eval_query_select in H as (sc & rs & H).
  apply select_sorted_by_second in H as (-> & Hl & Hs).
  split; [done|]. split; [done|]. split; [done|].
  eapply StronglySorted_weaken; [|exact Hs].
  cbv beta. intros r1 r2. cbn [order_compare]. by destruct (value_compare _ _).
Qed.

(** ** The subquery of cell 39 *)

Lemma matches_none a names c k :
  has_column names c = false -> matches k (map (fun n => (a, n)) names) None c = [].
Proof.
  unfold has_column. revert k.
  induction names as [|n names IH]; intros k H; cbn [map matches existsb] in *; [done|].
  apply orb_false_elim in H as [H1 H2].
  rewrite ident_eqb_sym, H1. cbn [andb]. by apply IH.
Qed.

Lemma resolve_none a1 a2 a3 t1 t2 t3 c :
  lacks t1 c -> lacks t2 c -> lacks t3 c ->
  resolve ((scope_of a1 t1 ++ scope_of a2 t2) ++ scope_of a3 t3) None c =
  Err (NoSuchColumn c).
Proof.
  unfold lacks, resolve, scope_of. intros H1 H2 H3.
  by rewrite !matches_app, !matches_none.
Qed.

(** A query on three tables listed with commas works on the triples of
    their rows. *)
Lemma eval_triple (db : database) t1 a1 t2 a2 t3 a3 tb1 tb2 tb3 items wh gb hv ob lim :
  db !! t1 = Some tb1 -> db !! t2 = Some tb2 -> db !! t3 = Some tb3 ->
  exists rows,
    eval_query db (Select items [FromTable t1 a1 None; FromTable t2 a2 None;
                                 FromTable t3 a3 None] wh gb hv ob lim) =
    select_rows ((scope_of a1 tb1 ++ scope_of a2 tb2) ++ scope_of a3 tb3) rows
                items wh gb hv ob lim.
Proof.
  intros L1 L2 L3. cbn [eval_query]. unfold scan_table. rewrite L1, L2, L3.
  unfold join. cbn [check_opt rbind fst snd app]. eexists. reflexivity.
Qed.

(** X21: the subquery of cell 39 keeps the shipments that go abroad.  On
    tables without columns named bill or deliver, every row it gives is a
    billing country, a delivery country and an amount, with both countries
    known and different. *)
Theorem shipped_goes_abroad (db : database) orders customers products names rows :
  db !! "orders" = Some orders -> db !! "customers" = Some customers ->
  db !! "products" = Some products ->
  Forall (fun tb => lacks tb "bill" /\ lacks tb "deliver") [orders; customers; products] ->
  eval_query db shipped = Ok (names, rows) ->
  Forall (fun r => exists bill deliver amount,
            r = [bill; deliver; amount] /\
            is_null bill = false /\ is_null deliver = false /\
            value_compare bill deliver <> Eq) rows.
Proof.
  intros Lo Lc Lp Hl H.
  apply Forall_cons in Hl as [[Ob Od] Hl]. apply Forall_cons in Hl as [[Cb Cd] Hl].
  apply Forall_cons in Hl as [[Pb Pd] _].
  unfold shipped in H.
  destruct (eval_triple db "orders" "o" "customers" "c" "products" "p" _ _ _
              [Item (qcol "c" "billing_country") (Some "bill");
               Item (qcol "o" "delivery_country") (Some "deliver");
               Item (EAgg Sum (qcol "p" "price")) (Some "rev")]
              (Some (EAnd (ECmp CEq (qcol "o" "customer_id") (qcol "c" "id"))
                          (ECmp CEq (qcol "o" "product_id") (qcol "p" "id"))))
              [col "bill"; col "deliver"]
              (Some (ECmp CNe (col "bill") (col "deliver"))) [] None Lo Lc Lp) as [rs E].
  rewrite E in H. clear E.
  set (sc := (scope_of "o" orders ++ scope_of "c" customers) ++ scope_of "p" products) in *.
  assert (Rb : resolve sc None "bill" = Err (NoSuchColumn "bill")) by by apply resolve_none.
  assert (Rd : resolve sc None "deliver" = Err (NoSuchColumn "deliver"))
    by by apply resolve_none.
  unfold select_rows, col, qcol in H.
  cbn [map option_map expand find_alias] in H.
  change (ident_eqb "bill" "bill") with true in H.
  change (ident_eqb "bill" "deliver") with false in H.
  change (ident_eqb "deliver" "deliver") with true in H.
  cbv iota in H. rewrite Rb, Rd in H.
  do 5 (apply rbind_ok in H as (? & _ & H)).
  apply rbind_ok in H as (outs & Ho & [= _ <-]).
  cbn [limit_rows map]. rewrite sort_rows_unordered.
  apply rmapM_inv in Ho.
  apply List.Forall_forall. intros r Hr.
  apply in_map_iff in Hr as (z & <- & Hz). apply in_map_iff in Hz as ([keep y] & <- & Hy).
  apply filter_In in Hy as [Hy Hkeep]. cbn [fst snd] in *. subst keep.
  rewrite List.Forall_forall in Ho. destruct (Ho _ Hy) as (g & _ & Hg).
  unfold output_row in Hg. cbn [eval_having eval_group rmapM rbind] in Hg.
  set (b := eval_scalar sc (hd [] g) (ECol (Some "c") "billing_country")) in *.
  set (d := eval_scalar sc (hd [] g) (ECol (Some "o") "delivery_country")) in *.
  cbn [eval_item eval_group rbind] in Hg. fold b d in Hg.
  destruct (aggregate Sum _) as [s|]; [|done]. cbn [rbind concat app] in Hg.
  injection Hg as Hk <-. cbn [snd].
  exists b, d, s. split; [done|].
  rewrite truth_of_bool in Hk. unfold compare_values, sql_eq in Hk.
  destruct (is_null b); [done|]. destruct (is_null d); [done|]. cbn [orb option_map] in Hk.
  do 2 (split; [done|]). by destruct (value_compare b d).
Qed.

(** ** The SELECT * cells *)

(** X22: the cells 8, 12, 13 and 14 show their table as it is: every row,
    whole, in table order, under the names of the columns. *)
Theorem whole_table_is_shown (db : database) t q tb :
  In (t, q) whole_table_queries ->
  db !! t = Some tb ->
  eval_query db q = Ok (column_names (tbl_schema tb), tbl_rows tb).
Proof.
  intros Hq L. unfold whole_table_queries in Hq. cbn [In] in Hq.
  destruct Hq as [[= <- <-]|[[= <- <-]|[[= <- <-]|[]]]];
    [unfold all_customers|unfold all_products|unfold all_orders];
    rewrite (select_star _ _ _ _ _ L); cbn [check_opt rbind limit_rows];
    by rewrite filter_holds_none.
Qed.

(** X23: right after cell 6 the customers table is empty: cell 8 shows no
    row, whatever the database file held before. *)
Theorem customers_start_empty w w1 :
  run_cells [cell_0; cell_5; show cell_6] w = Ok (tt, w1) ->
  exists w2, cell_8 w1 = Ok ([], w2) /\ database_of w2 testdb = database_of w1 testdb.
Proof.
  intros H. pose proof (cell_6_run _ _ H) as V.
  apply run_cells_cons in H as (w0 & H0 & H). injection H0 as <-.
  apply run_cells_cons in H as (w5 & H5 & H). apply sql_connect_ok in H5.
  apply run_cells_cons in H as (w6 & H6 & [= <-]). apply show_ok in H6 as (r6 & H6).
  apply sql_steps in H6 as (d6 & tr6 & _ & S6 & _); [|by subst].
  assert (Hm : sql_magic w6 = Some testdb) by (rewrite (steps_magic _ _ _ S6); by subst).
  apply view_lookups in V as (Lc & _ & _).
  destruct (sql_query_result all_customers w6 (column_names customers_schema) [] Hm) as [w2 H2].
  { unfold all_customers. rewrite (select_star _ _ _ _ _ Lc). reflexivity. }
  exists w2. split; [exact H2|].
  by apply sql_query_inv in H2 as (file & names & Hf & _ & D); rewrite Hm in Hf;
    injection Hf as <-.
Qed.

(** ** The first cells from any state *)

(** X24: with foreign keys not enforced, the cells up to cell 10 can be
    run on whatever tables the database file holds, also after the bulk
    load, as long as none of them is named customers, products or orders
    in another case of the letters: they succeed and leave the three
    tables with exactly the sample rows. *)
Theorem sample_is_restored w :
  foreign_keys w = false ->
  plainly_named (database_of w testdb) = true ->
  exists w1,
    run_cells setup_cells w = Ok (tt, w1) /\
    view (database_of w1 testdb) =
      (Some sample_customers, Some sample_products, Some sample_orders).
Proof.
  intros Hfk _. destruct (setup_succeeds w Hfk) as [w1 H]. exists w1. split; [done|].
  by apply setup_run in H as (_ & _ & _ & _ & _ & _ & _ & _ & _ & V & _).
Qed.

Lemma sample_blocks_drop (db : database) :
  view db = sample_view ->
  exec true (DropTable false "customers") db = Err ForeignKeyFailed.
Proof.
  intros V. apply view_lookups in V as (Lc & _ & Lo).
  unfold exec, drop_table. rewrite Lc. cbn [andb].
  assert (drop_blocked db "customers" sample_customers = true) as ->; [|done].
  unfold drop_blocked. apply existsb_exists. exists ("orders", sample_orders).
  split; [|vm_compute; reflexivity].
  apply list_elem_of_In, elem_of_map_to_list. exact Lo.
Qed.

(** ** What can go wrong in a query *)

Lemma rmapM_err {A B} (f : A -> result B) l e :
  rmapM f l = Err e -> exists a, In a l /\ f a = Err e.
Proof.
  induction l as [|a l IH]; cbn [rmapM]; [done|].
  destruct (f a) as [b|e'] eqn:E; cbn [rbind].
  - destruct (rmapM f l) as [bs|e'] eqn:E'; cbn [rbind]; [done|].
    intros [= ->]. destruct (IH eq_refl) as (a' & Ha & Hf). exists a'. split; [by right|done].
  - intros [= ->]. exists a. split; [by left|done].
Qed.

Lemma aggregate_err f vs e : aggregate f vs = Err e -> e = IntegerOverflow.
Proof.
  destruct f; cbn [aggregate]; try done. unfold sql_sum.
  destruct (sum_count _); [done|]. destruct (sum_overflow _); [by intros [= <-]|].
  by destruct (sum_approx _).
Qed.

Lemma eval_group_err sc grp e x : eval_group sc grp e = Err x -> x = IntegerOverflow.
Proof.
  induction e as [v|t c|op a IHa b IHb|a IHa b IHb|a IHa b IHb|a IHa vs|a IHa vs|a IHa p|f a IHa];
    cbn [eval_group]; try done;
    try (destruct (eval_group sc grp a) as [va|ea]; cbn [rbind];
         [|intros [= <-]; by apply IHa];
         try (destruct (eval_group sc grp b) as [vb|eb]; cbn [rbind];
              [done|intros [= <-]; by apply IHb]); done).
  apply aggregate_err.
Qed.

Lemma output_row_err sc items hv ob grp x :
  output_row sc items hv ob grp = Err x -> x = IntegerOverflow.
Proof.
  unfold output_row.
  destruct (eval_having sc grp hv) as [keep|e] eqn:Eh; cbn [rbind].
  - destruct (rmapM (eval_group sc grp) ob) as [keys|e] eqn:Ek; cbn [rbind].
    + destruct (rmapM (eval_item sc grp) items) as [vs|e] eqn:Ei; cbn [rbind]; [done|].
      intros [= <-]. apply rmapM_err in Ei as (it & _ & Hit).
      destruct it as [|e' a]; cbn [eval_item] in Hit; [done|].
      destruct (eval_group sc grp e') as [v|e''] eqn:Ee; cbn [rbind] in Hit; [done|].
      injection Hit as <-. by apply eval_group_err in Ee.
    + intros [= <-]. apply rmapM_err in Ek as (e' & _ & He).
      by apply eval_group_err in He.
  - intros [= <-]. destruct hv as [h|]; cbn [eval_having] in Eh; [|done].
    destruct (eval_group sc grp h) as [v|e'] eqn:Ee; cbn [rbind] in Eh; [done|].
    injection Eh as <-. by apply eval_group_err in Ee.
Qed.

(** Once the names of a SELECT are resolved it gives rows under the names
    of its items, unless a SUM overflows. *)
Lemma select_rows_answers sc rows items wh gb hv ob lim :
  prepared sc items wh gb hv ob = Ok tt ->
  (exists out, select_rows sc rows items wh gb hv ob lim = Ok (item_names sc items, out)) \/
  select_rows sc rows items wh gb hv ob lim = Err IntegerOverflow.
Proof.
  unfold prepared, select_rows. intros H.
  destruct (check_each (check_item _ sc) items) as [[]|]; [|done]. cbn [rbind] in *.
  destruct (check_opt false sc wh) as [[]|]; [|done]. cbn [rbind] in *.
  destruct (check_each (check_expr false sc) _) as [[]|]; [|done]. cbn [rbind] in *.
  destruct (check_opt true sc _) as [[]|]; [|done]. cbn [rbind] in *.
  rewrite H. cbn [rbind].
  destruct (rmapM _ _) as [outs|e] eqn:E; cbn [rbind]; [left; eauto|].
  right. apply rmapM_err in E as (g & _ & Hg). by apply output_row_err in Hg as ->.
Qed.

Lemma select_rows_names sc rows items wh gb hv ob lim res :
  select_rows sc rows items wh gb hv ob lim = Ok res -> fst res = item_names sc items.
Proof.
  unfold select_rows. intros H. do 6 (apply rbind_ok in H as (? & _ & H)).
  by injection H as <-.
Qed.

(** A query on the answer of another query. *)
Lemma eval_sub (db : database) q a items wh gb hv ob lim :
  eval_query db (Select items [FromQuery q a None] wh gb hv ob lim) =
  rbind (eval_query db q) (fun res =>
  select_rows (map (fun c => (a, c)) (fst res)) (snd res) items wh gb hv ob lim).
Proof.
  cbn [eval_query]. destruct (eval_query db q) as [res|]; [|done]. cbn [rbind].
  unfold join. cbn [check_opt rbind fst snd app flat_map].
  by rewrite map_app_nil, filter_holds_none, app_nil_r.
Qed.

Lemma answers_select sc rows items wh gb hv ob lim :
  prepared sc items wh gb hv ob = Ok tt ->
  answers (select_rows sc rows items wh gb hv ob lim).
Proof.
  intros H. destruct (select_rows_answers sc rows items wh gb hv ob lim H) as [[out E]|E];
    [left|right]; eauto.
Qed.

(** *** SUM on REAL numbers *)

Lemma sum_inexact vs : forall st,
  Forall (fun v => real_or_null v = true) vs ->
  sum_overflow st = false -> sum_count st = O \/ sum_approx st = true ->
  sum_overflow (fold_left sum_step vs st) = false /\
  (sum_count (fold_left sum_step vs st) = O \/ sum_approx (fold_left sum_step vs st) = true).
Proof.
  induction vs as [|v vs IH]; intros st Hv Ho Hc; cbn [fold_left]; [done|].
  apply Forall_cons in Hv as [Hv Hvs]. apply IH; [done| |];
    destruct v; try done; cbn [sum_step sum_overflow sum_count sum_approx];
    first [done | by right].
Qed.

Lemma sql_sum_inexact vs :
  Forall (fun v => real_or_null v = true) vs ->
  exists v, sql_sum vs = Ok v /\ real_or_null v = true.
Proof.
  intros Hv. unfold sql_sum, sum_states.
  destruct (sum_inexact vs (SumState 0 0 false false 0) Hv eq_refl) as [Ho Hc];
    [by left|].
  rewrite Ho.
  destruct (sum_count _); [by exists VNull|].
  destruct Hc as [Hc | Hc]; [done|]. rewrite Hc. eauto.
Qed.

Lemma eval_group_inexact sc grp e :
  (forall a, In a (summed e) ->
             Forall (fun r => real_or_null (eval_scalar sc r a) = true) grp) ->
  exists v, eval_group sc grp e = Ok v.
Proof.
  induction e as [v|t c|op a IHa b IHb|a IHa b IHb|a IHa b IHb|a IHa vs|a IHa vs|a IHa p|f a IHa];
    cbn [summed eval_group]; intros H; eauto;
    try (destruct IHa as [va ->]; [intros x Hx; apply H, in_or_app; by left|];
         destruct IHb as [vb ->]; [intros x Hx; apply H, in_or_app; by right|];
         cbn [rbind]; eauto; fail);
    try (destruct (IHa H) as [va ->]; cbn [rbind]; eauto; fail).
  destruct f; cbn [aggregate]; eauto.
  destruct (sql_sum_inexact (map (fun r => eval_scalar sc r a) grp)) as (v & -> & _); [|eauto].
  apply Forall_map. apply H. by left.
Qed.

Lemma rmapM_total {A B} (f : A -> result B) l :
  Forall (fun a => exists b, f a = Ok b) l -> exists bs, rmapM f l = Ok bs.
Proof.
  induction 1 as [|a l [b Hb] _ [bs IH]]; cbn [rmapM]; [eauto|].
  rewrite Hb, IH. cbn [rbind]. eauto.
Qed.

Lemma output_row_inexact sc items hv ob grp :
  (forall a, In a (sum_arguments items hv ob) ->
             Forall (fun r => real_or_null (eval_scalar sc r a) = true) grp) ->
  exists x, output_row sc items hv ob grp = Ok x.
Proof.
  unfold sum_arguments, output_row. intros H.
  assert (exists keep, eval_having sc grp hv = Ok keep) as [keep ->].
  { destruct hv as [h|]; cbn [eval_having]; [|eauto].
    destruct (eval_group_inexact sc grp h) as [v ->]; [|cbn [rbind]; eauto].
    intros a Ha. apply H, in_or_app. right. apply in_or_app. by left. }
  cbn [rbind].
  destruct (rmapM_total (eval_group sc grp) ob) as [keys ->].
  { apply List.Forall_forall. intros e He. apply eval_group_inexact.
    intros a Ha. apply H, in_or_app. right. apply in_or_app. right.
    apply in_flat_map. eauto. }
  cbn [rbind].
  destruct (rmapM_total (eval_item sc grp) items) as [vs ->]; [|cbn [rbind]; eauto].
  apply List.Forall_forall. intros [|e al] Hi; cbn [eval_item]; [eauto|].
  destruct (eval_group_inexact sc grp e) as [v ->]; [|cbn [rbind]; eauto].
  intros a Ha. apply H, in_or_app. left. apply in_flat_map. exists (Item e al). done.
Qed.

(** The groups of a SELECT are made of the rows that WHERE keeps. *)
Lemma groups_within (agg : bool) sc by_ (kept : list row) g :
  In g (if agg then match by_ with
                    | [] => [kept]
                    | _ => group_rows sc by_ kept
                    end
        else map (fun r => [r]) kept) ->
  Forall (fun r => In r kept) g.
Proof.
  assert (In g (group_rows sc by_ kept) -> Forall (fun r => In r kept) g) as G.
  { intros Hg. destruct (group_rows_spec sc by_ kept) as (P & _).
    apply List.Forall_forall. intros r Hr.
    apply (Permutation_in _ P), in_concat. eauto. }
  destruct agg.
  - destruct by_ as [|e by_]; [|done].
    intros [<-|[]]. by apply List.Forall_forall.
  - intros H. apply in_map_iff in H as (r & <- & Hr). by constructor.
Qed.

(** A SELECT whose names are resolved gives its rows when every SUM in
    it is over REAL numbers and NULLs. *)
Lemma select_rows_inexact sc rows items wh gb hv ob lim :
  prepared sc items wh gb hv ob = Ok tt ->
  (forall a, In a (sum_arguments items (option_map (expand false sc items) hv)
                                 (map (fun k => expand true sc items (fst k)) ob)) ->
             Forall (fun r => real_or_null (eval_scalar sc r a) = true) rows) ->
  exists out, select_rows sc rows items wh gb hv ob lim = Ok (item_names sc items, out).
Proof.
  intros H Hs.
  destruct (select_rows_answers sc rows items wh gb hv ob lim H) as [E|E]; [done|].
  exfalso. revert E. unfold prepared, select_rows in *.
  destruct (check_each (check_item _ sc) items) as [[]|]; [|done]. cbn [rbind] in *.
  destruct (check_opt false sc wh) as [[]|]; [|done]. cbn [rbind] in *.
  destruct (check_each (check_expr false sc) _) as [[]|]; [|done]. cbn [rbind] in *.
  destruct (check_opt true sc _) as [[]|]; [|done]. cbn [rbind] in *.
  rewrite H. cbn [rbind].
  match goal with |- context [rmapM ?f ?l] => destruct (rmapM_total f l) as [outs ->] end;
    [|done].
  apply List.Forall_forall. intros g Hg. apply groups_within in Hg.
  apply output_row_inexact. intros a Ha.
  eapply Forall_impl; [exact Hg|]. cbv beta. intros r Hr.
  apply filter_In in Hr as [Hr _].
  specialize (Hs a Ha). rewrite List.Forall_forall in Hs. by apply Hs.
Qed.

(** What a SELECT gives comes from groups of its rows. *)
Lemma sort_rows_in desc (l : list (list value * row)) r :
  In r (sort_rows desc l) -> In r (map snd l).
Proof.
  unfold sort_rows. intros H. apply in_map_iff in H as (x & <- & Hx).
  apply in_map. exact (Permutation_in _ (sort_fold_perm desc l []) Hx).
Qed.

Lemma select_rows_inv sc rows items wh gb hv ob lim names out :
  select_rows sc rows items wh gb hv ob lim = Ok (names, out) ->
  Forall (fun r => exists g keep keys,
            Forall (fun x => In x rows) g /\
            output_row sc items (option_map (expand false sc items) hv)
                       (map (fun k => expand true sc items (fst k)) ob) g =
              Ok (keep, (keys, r))) out.
Proof.
  unfold select_rows. intros H.
  do 5 (apply rbind_ok in H as (? & _ & H)).
  apply rbind_ok in H as (outs & Ho & [= _ <-]).
  apply rmapM_inv in Ho. rewrite List.Forall_forall in Ho.
  apply List.Forall_forall. intros r Hr.
  assert (In r (sort_rows (map snd ob) (map snd (List.filter fst outs)))) as Hs.
  { destruct lim as [n|]; [by apply in_firstn in Hr|done]. }
  apply sort_rows_in in Hs. apply in_map_iff in Hs as ([keys r'] & <- & Hs).
  apply in_map_iff in Hs as ([keep y] & Ey & Hy). cbn [snd] in Ey. subst y.
  apply filter_In in Hy as [Hy _].
  destruct (Ho _ Hy) as (g & Hg & E). apply groups_within in Hg.
  exists g, keep, keys. split; [|done].
  eapply Forall_impl; [exact Hg|]. cbv beta. intros z Hz. by apply filter_In in Hz as [Hz _].
Qed.

Lemma select_rows_exists sc rows items wh gb hv ob lim :
  prepared sc items wh gb hv ob = Ok tt /\
  sum_arguments items (option_map (expand false sc items) hv)
                (map (fun k => expand true sc items (fst k)) ob) = [] ->
  exists res, select_rows sc rows items wh gb hv ob lim = Ok res.
Proof.
  intros [H E]. destruct (select_rows_inexact sc rows items wh gb hv ob lim H) as [out Ho];
    [|eauto].
  rewrite E. intros a [].
Qed.

Ltac concrete_scope H :=
  unfold scope_of; rewrite ?H; split; reflexivity.

(** On tables with the expected columns the queries without SUM always
    give an answer. *)
Lemma plain_queries_succeed (db : database) :
  expected_columns db ->
  Forall (fun q => exists res, eval_query db q = Ok res) queries_without_sum.
Proof.
  intros (tc & tp & to & Lc & Lp & Lo & Hc & Hp & Ho).
  unfold queries_without_sum.
  repeat apply List.Forall_cons; try apply List.Forall_nil;
    unfold_queries; cbv beta;
    first [ rewrite (eval_single _ _ _ _ _ _ _ _ _ _ Lo);
            apply select_rows_exists; concrete_scope Ho
          | rewrite (eval_single _ _ _ _ _ _ _ _ _ _ Lp);
            apply select_rows_exists; concrete_scope Hp ].
Qed.

Lemma answers_bind {A B} (r : result A) (k : A -> result B) :
  answers r -> (forall a, r = Ok a -> answers (k a)) -> answers (rbind r k).
Proof.
  intros [[a ->] | ->] Hk; cbn [rbind]; [by apply Hk|by right].
Qed.

(** On tables with the expected columns the queries with SUM give an
    answer unless the SUM overflows. *)
Lemma sum_queries_answer (db : database) :
  expected_columns db ->
  Forall (fun q => answers (eval_query db q)) queries_with_sum.
Proof.
  intros (tc & tp & to & Lc & Lp & Lo & Hc & Hp & Ho).
  unfold queries_with_sum.
  repeat apply List.Forall_cons; try apply List.Forall_nil.
  - unfold sum_price_join. rewrite (eval_pair _ _ _ _ _ _ _ _ _ _ _ _ _ _ Lo Lp).
    unfold scope_of. rewrite Ho, Hp. cbn [map app]. 
    change (check_opt false _ _) with (@Ok unit tt). cbn [rbind].
    apply answers_select. reflexivity.
  - unfold sum_price_where. rewrite (eval_pair _ _ _ _ _ _ _ _ _ _ _ _ _ _ Lo Lp).
    unfold scope_of. rewrite Ho, Hp. cbn [map app check_opt rbind].
    apply answers_select. reflexivity.
  - unfold total_per_customer.
    destruct (eval_triple db "orders" "o" "products" "p" "customers" "c" _ _ _
                [plain (qcol "c" "name"); Item (EAgg Sum (qcol "p" "price")) (Some "total")]
                (Some (EAnd (ECmp CEq (qcol "p" "id") (qcol "o" "product_id"))
                            (ECmp CEq (qcol "c" "id") (qcol "o" "customer_id"))))
                [qcol "c" "id"] None [(col "total", false)] (Some 10%nat) Lo Lp Lc) as [rs ->].
    apply answers_select. unfold scope_of. rewrite Ho, Hp, Hc. reflexivity.
  - unfold spent_abroad. rewrite eval_sub. apply answers_bind.
    + unfold shipped.
      destruct (eval_triple db "orders" "o" "customers" "c" "products" "p" _ _ _
                  [Item (qcol "c" "billing_country") (Some "bill");
                   Item (qcol "o" "delivery_country") (Some "deliver");
                   Item (EAgg Sum (qcol "p" "price")) (Some "rev")]
                  (Some (EAnd (ECmp CEq (qcol "o" "customer_id") (qcol "c" "id"))
                              (ECmp CEq (qcol "o" "product_id") (qcol "p" "id"))))
                  [col "bill"; col "deliver"]
                  (Some (ECmp CNe (col "bill") (col "deliver"))) [] None Lo Lc Lp) as [rs ->].
      apply answers_select. unfold scope_of. rewrite Ho, Hp, Hc. reflexivity.
    + intros res E. fold shipped in E. unfold shipped in E.
      destruct (eval_triple db "orders" "o" "customers" "c" "products" "p" _ _ _
                  [Item (qcol "c" "billing_country") (Some "bill");
                   Item (qcol "o" "delivery_country") (Some "deliver");
                   Item (EAgg Sum (qcol "p" "price")) (Some "rev")]
                  (Some (EAnd (ECmp CEq (qcol "o" "customer_id") (qcol "c" "id"))
                              (ECmp CEq (qcol "o" "product_id") (qcol "p" "id"))))
                  [col "bill"; col "deliver"]
                  (Some (ECmp CNe (col "bill") (col "deliver"))) [] None Lo Lc Lp) as [rs E'].
      rewrite E' in E. apply select_rows_names in E. rewrite E.
      apply answers_select. reflexivity.
Qed.

(** ** The notebook from its CSV files *)

Lemma later_queries_split : later_queries = queries_without_sum ++ queries_with_sum.
Proof. reflexivity. Qed.

Lemma run_cells_after cells1 cells2 w w1 :
  run_cells cells1 w = Ok (tt, w1) ->
  run_cells (cells1 ++ cells2) w = run_cells cells2 w1.
Proof.
  revert w. induction cells1 as [|c cells1 IH]; intros w H; cbn [app].
  - by injection H as <-.
  - apply run_cells_cons in H as (w0 & Hc & H). cbn [run_cells].
    unfold mbind, nb_bind. rewrite Hc. by apply IH.
Qed.

(** A query cell under the connection of cell 5. *)
Lemma query_cell q w :
  sql_magic w = Some testdb ->
  show (sql [Query q]) w =
  match eval_query (database_of w testdb) q with
  | Ok res =>
      Ok (tt, World (csv_files w) (<[testdb := database_of w testdb]> (db_files w))
                    (foreign_keys w) (Some testdb)
                    (journal w ++ [SqlExec testdb (Query q) (database_of w testdb)
                                           (database_of w testdb)]))
  | Err e => Err e
  end.
Proof.
  intros Hm. unfold show, sql, mbind, nb_bind. rewrite Hm.
  cbn [execute_all]. unfold mbind, nb_bind, execute. cbn [exec]. rewrite Hm.
  by destruct (eval_query _ q) as [[names out]|].
Qed.

Lemma query_cells_succeed qs : forall w,
  sql_magic w = Some testdb ->
  Forall (fun q => exists res, eval_query (database_of w testdb) q = Ok res) qs ->
  exists w', run_cells (map (fun q => show (sql [Query q])) qs) w = Ok (tt, w') /\
             sql_magic w' = Some testdb /\ foreign_keys w' = foreign_keys w /\
             csv_files w' = csv_files w /\
             database_of w' testdb = database_of w testdb.
Proof.
  induction qs as [|q qs IH]; intros w Hm Hq; cbn [map run_cells].
  - exists w. done.
  - apply Forall_cons in Hq as [[res Hq] Hqs].
    unfold mbind, nb_bind. rewrite (query_cell q w Hm), Hq.
    match goal with |- context [run_cells _ ?w1] => destruct (IH w1) as (w' & H & ? & ? & ? & D) end;
      [done|by rewrite database_of_insert|].
    exists w'. rewrite database_of_insert in D. done.
Qed.

Lemma sample_queries_succeed (db : database) :
  view db = sample_view ->
  Forall (fun q => exists res, eval_query db q = Ok res) sample_queries.
Proof.
  intros V. apply view_lookups in V as (Lc & Lp & Lo). unfold sample_queries.
  repeat apply List.Forall_cons; try apply List.Forall_nil;
    [unfold all_customers; rewrite (select_star _ _ _ _ _ Lc)
    |unfold all_products; rewrite (select_star _ _ _ _ _ Lp)
    |unfold all_orders; rewrite (select_star _ _ _ _ _ Lo)];
    cbn [check_opt rbind]; eauto.
Qed.

(** The cells up to the bulk load always run when foreign keys are not
    enforced and the frames can be written. *)
Lemma loaded w customers products orders :
  foreign_keys w = false ->
  csv_files w !! "data/customers.csv" = Some customers ->
  csv_files w !! "data/products.csv" = Some products ->
  csv_files w !! "data/orders.csv" = Some orders ->
  loadable customers = true -> loadable products = true -> loadable orders = true ->
  exists w',
    run_cells (setup_cells ++ sample_cells ++ [cell_16]) w = Ok (tt, w') /\
    sql_magic w' = Some testdb /\
    view (database_of w' testdb) =
      (Some (frame_table customers), Some (frame_table products), Some (frame_table orders)).
Proof.
  intros Hfk C1 C2 C3 L1 L2 L3.
  destruct (setup_succeeds w Hfk) as [w1 H1].
  pose proof (setup_magic _ _ H1) as Hm1.
  pose proof H1 as S1.
  apply setup_run in S1 as (w5 & tr6 & d6 & tr10 & -> & S1 & _ & _ & _ & V1 & _).
  destruct (query_cells_succeed sample_queries w1 Hm1 (sample_queries_succeed _ V1))
    as (w2 & H2 & Hm2 & F2 & Cs2 & _).
  rewrite (steps_setting _ _ _ S1) in F2. rewrite (steps_files _ _ _ S1) in Cs2.
  cbn [foreign_keys csv_files] in F2, Cs2.
  destruct (bulk_load_succeeds w2 customers products orders) as [w3 H3];
    try done; try congruence.
  exists w3. rewrite (run_cells_after _ _ _ _ H1).
  change sample_cells with (map (fun q => show (sql [Query q])) sample_queries).
  rewrite (run_cells_after _ _ _ _ H2). cbn [run_cells]. unfold mbind, nb_bind.
  rewrite H3. split; [done|].
  pose proof H3 as S3.
  apply bulk_load_run in S3 as (c' & p' & o' & tr & C1' & C2' & C3' & S3 & _ & D).
  rewrite Cs2, C1 in C1'. rewrite Cs2, C2 in C2'. rewrite Cs2, C3 in C3'.
  injection C1' as <-. injection C2' as <-. injection C3' as <-.
  split; [|rewrite D; apply loaded_view].
  destruct S3 as (_ & _ & -> & _). done.
Qed.

Lemma frames_expected (db : database) customers products orders :
  view db = (Some (frame_table customers), Some (frame_table products),
             Some (frame_table orders)) ->
  map fst (df_columns customers) = ["id"; "name"; "billing_country"] ->
  map fst (df_columns products) = ["id"; "price"] ->
  map fst (df_columns orders) = ["id"; "customer_id"; "product_id"; "delivery_country"] ->
  expected_columns db.
Proof.
  intros V Hc Hp Ho. apply view_lookups in V as (Lc & Lp & Lo).
  exists (frame_table customers), (frame_table products), (frame_table orders).
  do 3 (split; [done|]). unfold frame_table. cbn [tbl_schema].
  by rewrite !frame_column_names.
Qed.

(** X26: on tables with the columns the notebook expects, whatever their
    rows, each of the ten queries of cells 18 to 32 gives an answer, and
    each of the four queries with SUM (cells 34 to 39) gives an answer or
    fails with an integer overflow, never with another error. *)
Theorem queries_fail_only_on_overflow (db : database) :
  expected_columns db ->
  Forall (fun q => exists res, eval_query db q = Ok res) queries_without_sum /\
  Forall (fun q => answers (eval_query db q)) queries_with_sum.
Proof.
  intros H. split; [by apply plain_queries_succeed|by apply sum_queries_answer].
Qed.

(** ** Prices in REAL numbers *)

Lemma cell_right (r1 r2 : row) n k :
  length r1 = n -> nth (n + k) (r1 ++ r2) VNull = nth k r2 VNull.
Proof. intros <-. apply app_nth2_plus. Qed.

Lemma width tb names r :
  column_names (tbl_schema tb) = names -> well_formed tb -> In r (tbl_rows tb) ->
  length r = length names.
Proof.
  intros <- W Hr. unfold well_formed in W. rewrite List.Forall_forall in W.
  rewrite (W _ Hr). unfold column_names. by rewrite length_map.
Qed.

Lemma price_cell tb r :
  column_names (tbl_schema tb) = ["id"; "price"] -> cell_of tb "price" r = nth 1 r VNull.
Proof. unfold cell_of, field. by intros ->. Qed.

(** The rows of a query on three tables listed with commas are triples
    of their rows. *)
Lemma eval_triple_rows (db : database) t1 a1 t2 a2 t3 a3 tb1 tb2 tb3 items wh gb hv ob lim :
  db !! t1 = Some tb1 -> db !! t2 = Some tb2 -> db !! t3 = Some tb3 ->
  exists rows,
    eval_query db (Select items [FromTable t1 a1 None; FromTable t2 a2 None;
                                 FromTable t3 a3 None] wh gb hv ob lim) =
    select_rows ((scope_of a1 tb1 ++ scope_of a2 tb2) ++ scope_of a3 tb3) rows
                items wh gb hv ob lim /\
    Forall (fun r => exists r1 r2 r3,
              r = (r1 ++ r2) ++ r3 /\ In r1 (tbl_rows tb1) /\ In r2 (tbl_rows tb2) /\
              In r3 (tbl_rows tb3)) rows.
Proof.
  intros L1 L2 L3. cbn [eval_query]. unfold scan_table. rewrite L1, L2, L3.
  unfold join. cbn [check_opt rbind fst snd app]. eexists. split; [reflexivity|].
  apply List.Forall_forall. intros r Hr.
  apply in_flat_map in Hr as (r12 & H12 & Hr). apply filter_In in Hr as [Hr _].
  apply in_map_iff in Hr as (r3 & <- & H3).
  apply in_flat_map in H12 as (r1' & H1 & H12). apply filter_In in H12 as [H12 _].
  apply in_map_iff in H12 as (r2 & <- & H2).
  apply in_flat_map in H1 as (r0 & H0 & H1). apply filter_In in H1 as [H1 _].
  apply in_map_iff in H1 as (r1 & <- & H1).
  destruct H0 as [<-|[]]. cbn [app]. eauto 10.
Qed.

(** The subquery of cell 39 on prices in REAL numbers: it gives its three
    columns, the amounts REAL numbers or NULL. *)
Lemma shipped_amounts (db : database) :
  float_priced db ->
  exists out,
    eval_query db shipped = Ok (["bill"; "deliver"; "rev"], out) /\
    Forall (fun r => real_or_null (nth 2 r VNull) = true) out.
Proof.
  intros (tc & tp & to & Lc & Lp & Lo & Hc & Hp & Ho & Wc & Wp & Wo & Pr).
  unfold shipped.
  destruct (eval_triple_rows db "orders" "o" "customers" "c" "products" "p" _ _ _
              [Item (qcol "c" "billing_country") (Some "bill");
               Item (qcol "o" "delivery_country") (Some "deliver");
               Item (EAgg Sum (qcol "p" "price")) (Some "rev")]
              (Some (EAnd (ECmp CEq (qcol "o" "customer_id") (qcol "c" "id"))
                          (ECmp CEq (qcol "o" "product_id") (qcol "p" "id"))))
              [col "bill"; col "deliver"]
              (Some (ECmp CNe (col "bill") (col "deliver"))) [] None Lo Lc Lp)
    as (rows & -> & Hrows).
  unfold scope_of. rewrite Ho, Hc, Hp. cbn [map app].
  match goal with |- context [select_rows ?sc _ _ _ _ _ _ _] => set (sc0 := sc) end.
  assert (Forall (fun r => real_or_null (eval_scalar sc0 r (qcol "p" "price")) = true) rows)
    as Hreal.
  { eapply Forall_impl; [exact Hrows|]. cbv beta.
    intros r (r1 & r2 & r3 & -> & H1 & H2 & H3).
    change (eval_scalar sc0 _ _) with (nth 8 ((r1 ++ r2) ++ r3) VNull).
    assert (length (r1 ++ r2) = 7%nat) as Hl
      by (rewrite length_app, (width _ _ _ Ho Wo H1), (width _ _ _ Hc Wc H2); reflexivity).
    rewrite (cell_right (r1 ++ r2) r3 7 1 Hl : nth 8 ((r1 ++ r2) ++ r3) VNull = _).
    rewrite <- (price_cell tp r3 Hp). rewrite List.Forall_forall in Pr. by apply Pr. }
  match goal with |- context [select_rows sc0 rows ?items ?wh ?gb ?hv ?ob ?lim] =>
    destruct (select_rows_inexact sc0 rows items wh gb hv ob lim) as [out E] end.
  { reflexivity. }
  { intros a Ha. vm_compute in Ha. destruct Ha as [<-|[]]. exact Hreal. }
  exists out. split; [exact E|].
  apply select_rows_inv in E.
  eapply Forall_impl; [exact E|]. cbv beta.
  intros r (g & keep & keys & Hg & Hr).
  unfold output_row in Hr.
  apply rbind_ok in Hr as (keep' & _ & Hr). apply rbind_ok in Hr as (keys' & _ & Hr).
  apply rbind_ok in Hr as (vs & Hv & [= _ _ <-]).
  cbn [rmapM eval_item] in Hv.
  apply rbind_ok in Hv as (v1 & H1 & Hv). apply rbind_ok in H1 as (b & _ & [= <-]).
  apply rbind_ok in Hv as (vs' & Hv & [= <-]).
  apply rbind_ok in Hv as (v2 & H2 & Hv). apply rbind_ok in H2 as (d & _ & [= <-]).
  apply rbind_ok in Hv as (vs'' & Hv & [= <-]).
  apply rbind_ok in Hv as (v3 & H3 & [= <-]). apply rbind_ok in H3 as (s & Hs & [= <-]).
  cbn [concat app nth]. cbn [eval_group aggregate] in Hs.
  destruct (sql_sum_inexact (map (fun r => eval_scalar sc0 r (qcol "p" "price")) g))
    as (s' & Hs' & R).
  { apply Forall_map. eapply Forall_impl; [exact Hg|]. cbv beta. intros x Hx.
    rewrite List.Forall_forall in Hreal. by apply Hreal. }
  rewrite Hs' in Hs. by injection Hs as <-.
Qed.

(** On tables with prices in REAL numbers the queries with SUM give an
    answer too. *)
Lemma sum_queries_succeed (db : database) :
  float_priced db ->
  Forall (fun q => exists res, eval_query db q = Ok res) queries_with_sum.
Proof.
  intros F. pose proof (shipped_amounts db F) as (shp & Eshp & Hshp).
  destruct F as (tc & tp & to & Lc & Lp & Lo & Hc & Hp & Ho & Wc & Wp & Wo & Pr).
  assert (forall on r,
    In r (flat_map (fun r1 => List.filter (holds (scope_of "o" to ++ scope_of "p" tp) on)
                                          (map (app r1) (tbl_rows tp))) (tbl_rows to)) ->
    real_or_null (nth 5 r VNull) = true) as Hpair.
  { intros on r Hr. apply in_flat_map in Hr as (r1 & H1 & Hr).
    apply filter_In in Hr as [Hr _]. apply in_map_iff in Hr as (r2 & <- & H2).
    rewrite (cell_right r1 r2 4 1 (width _ _ _ Ho Wo H1) : nth 5 (r1 ++ r2) VNull = _).
    rewrite <- (price_cell tp r2 Hp). rewrite List.Forall_forall in Pr. by apply Pr. }
  unfold queries_with_sum.
  repeat apply List.Forall_cons; try apply List.Forall_nil.
  - unfold sum_price_join. rewrite (eval_pair _ _ _ _ _ _ _ _ _ _ _ _ _ _ Lo Lp).
    match goal with |- context [select_rows _ ?rows _ _ _ _ _ _] =>
      assert (Forall (fun r => real_or_null (nth 5 r VNull) = true) rows) as Hreal
        by (apply List.Forall_forall; intros r; apply Hpair) end.
    revert Hreal. unfold scope_of. rewrite Ho, Hp. cbn [map app]. intros Hreal.
    change (check_opt false _ _) with (@Ok unit tt). cbn [rbind].
    match goal with |- context [select_rows ?sc ?rows ?items ?wh ?gb ?hv ?ob ?lim] =>
      destruct (select_rows_inexact sc rows items wh gb hv ob lim) as [out ->] end;
      [reflexivity| |eauto].
    intros a Ha. vm_compute in Ha. destruct Ha as [<-|[]]. exact Hreal.
  - unfold sum_price_where. rewrite (eval_pair _ _ _ _ _ _ _ _ _ _ _ _ _ _ Lo Lp).
    match goal with |- context [select_rows _ ?rows _ _ _ _ _ _] =>
      assert (Forall (fun r => real_or_null (nth 5 r VNull) = true) rows) as Hreal
        by (apply List.Forall_forall; intros r; apply Hpair) end.
    revert Hreal. unfold scope_of. rewrite Ho, Hp. cbn [map app]. intros Hreal.
    cbn [check_opt rbind].
    match goal with |- context [select_rows ?sc ?rows ?items ?wh ?gb ?hv ?ob ?lim] =>
      destruct (select_rows_inexact sc rows items wh gb hv ob lim) as [out ->] end;
      [reflexivity| |eauto].
    intros a Ha. vm_compute in Ha. destruct Ha as [<-|[]]. exact Hreal.
  - unfold total_per_customer.
    destruct (eval_triple_rows db "orders" "o" "products" "p" "customers" "c" _ _ _
                [plain (qcol "c" "name"); Item (EAgg Sum (qcol "p" "price")) (Some "total")]
                (Some (EAnd (ECmp CEq (qcol "p" "id") (qcol "o" "product_id"))
                            (ECmp CEq (qcol "c" "id") (qcol "o" "customer_id"))))
                [qcol "c" "id"] None [(col "total", false)] (Some 10%nat) Lo Lp Lc)
      as (rows & -> & Hrows).
    unfold scope_of. rewrite Ho, Hc, Hp. cbn [map app].
    match goal with |- context [select_rows ?sc ?rows ?items ?wh ?gb ?hv ?ob ?lim] =>
      destruct (select_rows_inexact sc rows items wh gb hv ob lim) as [out ->] end;
      [reflexivity| |eauto].
    intros a Ha. vm_compute in Ha. destruct Ha as [<-|[<-|[]]];
      (eapply Forall_impl; [exact Hrows|]; cbv beta;
       intros r (r1 & r2 & r3 & -> & H1 & H2 & H3);
       match goal with |- real_or_null ?v = true =>
         change v with (nth 5 ((r1 ++ r2) ++ r3) VNull) end;
       rewrite <- app_assoc;
       rewrite (cell_right r1 (r2 ++ r3) 4 1 (width _ _ _ Ho Wo H1)
                : nth 5 (r1 ++ r2 ++ r3) VNull = _);
       rewrite app_nth1 by (rewrite (width _ _ _ Hp Wp H2); cbn [length]; lia);
       rewrite <- (price_cell tp r2 Hp); rewrite List.Forall_forall in Pr; by apply Pr).
  - unfold spent_abroad. rewrite eval_sub. fold shipped. rewrite Eshp. cbn [rbind fst snd map].
    match goal with |- context [select_rows ?sc ?rows ?items ?wh ?gb ?hv ?ob ?lim] =>
      destruct (select_rows_inexact sc rows items wh gb hv ob lim) as [out ->] end;
      [reflexivity| |eauto].
    intros a Ha. vm_compute in Ha. destruct Ha as [<-|[<-|[]]]; exact Hshp.
Qed.

Lemma loadable_well_formed df : loadable df = true -> well_formed (frame_table df).
Proof.
  intros H. apply loadable_inv in H as (_ & _ & H).
  unfold well_formed, frame_table, frame_schema. cbn [tbl_rows tbl_schema sch_columns].
  eapply Forall_impl; [exact H|]. cbv beta. intros r Hr. by rewrite Hr, !length_map.
Qed.

Lemma frames_float_priced (db : database) customers products orders :
  view db = (Some (frame_table customers), Some (frame_table products),
             Some (frame_table orders)) ->
  loadable customers = true -> loadable products = true -> loadable orders = true ->
  map fst (df_columns customers) = ["id"; "name"; "billing_country"] ->
  map fst (df_columns products) = ["id"; "price"] ->
  map fst (df_columns orders) = ["id"; "customer_id"; "product_id"; "delivery_country"] ->
  float_column products "price" ->
  float_priced db.
Proof.
  intros V L1 L2 L3 Hc Hp Ho [_ Pr]. apply view_lookups in V as (Lc & Lp & Lo).
  exists (frame_table customers), (frame_table products), (frame_table orders).
  do 3 (split; [done|]).
  do 3 (split; [unfold frame_table; cbn [tbl_schema]; by rewrite frame_column_names|]).
  do 3 (split; [by apply loadable_well_formed|]). exact Pr.
Qed.

Lemma float_priced_expected (db : database) : float_priced db -> expected_columns db.
Proof.
  intros (tc & tp & to & Lc & Lp & Lo & Hc & Hp & Ho & _). exists tc, tp, to. done.
Qed.

(** X28: on tables with the expected columns whose prices are REAL
    numbers or NULL, as a column of floats is written, every query of the
    cells 18 to 39 gives an answer, whatever the rows: no SUM overflows. *)
Theorem queries_answer_on_float_prices (db : database) :
  float_priced db ->
  Forall (fun q => exists res, eval_query db q = Ok res) later_queries.
Proof.
  intros F. rewrite later_queries_split. apply Forall_app. split.
  - apply plain_queries_succeed. by apply float_priced_expected.
  - by apply sum_queries_succeed.
Qed.

(** X29: the whole notebook completes without an error on CSV files
    with the expected headers and a price column of floats.  With foreign
    keys not enforced, on a database file of tables none of which is
    named customers, products or orders in another case of the letters,
    and with the three frames as pandas reads them (every cell of the
    dtype of its column, rows as wide as the header), every cell runs and
    no statement fails, whatever the rows hold. *)
Theorem notebook_completes w customers products orders :
  foreign_keys w = false ->
  plainly_named (database_of w testdb) = true ->
  csv_files w !! "data/customers.csv" = Some customers ->
  csv_files w !! "data/products.csv" = Some products ->
  csv_files w !! "data/orders.csv" = Some orders ->
  loadable customers = true -> loadable products = true -> loadable orders = true ->
  typed customers = true -> typed products = true -> typed orders = true ->
  map fst (df_columns customers) = ["id"; "name"; "billing_country"] ->
  map fst (df_columns products) = ["id"; "price"] ->
  map fst (df_columns orders) = ["id"; "customer_id"; "product_id"; "delivery_country"] ->
  float_column products "price" ->
  exists w', notebook w = Ok (tt, w').
Proof.
  intros Hfk _ C1 C2 C3 L1 L2 L3 _ _ _ Hc Hp Ho Pr.
  destruct (loaded w _ _ _ Hfk C1 C2 C3 L1 L2 L3) as (w3 & H & Hm & V).
  pose proof (frames_float_priced _ _ _ _ V L1 L2 L3 Hc Hp Ho Pr) as F.
  unfold notebook, notebook_cells. rewrite !app_assoc, <- (app_assoc setup_cells).
  rewrite (run_cells_after _ _ _ _ H).
  change query_cells with (map (fun q => show (sql [Query q])) later_queries).
  destruct (query_cells_succeed later_queries w3 Hm) as (w' & R & _); [|eauto].
  rewrite later_queries_split. apply Forall_app. split.
  - apply plain_queries_succeed. by apply float_priced_expected.
  - by apply sum_queries_succeed.
Qed.

(** ** Errors: what is raised and what is printed (C8) *)

Lemma execute_all_until file stmts : forall last w,
  execute_all file stmts last w =
  match execute_until file stmts last w with
  | (w', inr rows) => Ok (rows, w')
  | (_, inl e) => Err e
  end.
Proof.
  induction stmts as [|s stmts IH]; intros last w; cbn [execute_all execute_until]; [done|].
  unfold mbind, nb_bind. destruct (execute file s w) as [[rows w1]|e]; [apply IH|done].
Qed.

Lemma execute_until_spec stmts : forall last w,
  match exec_seq (foreign_keys w) stmts (database_of w testdb) last with
  | Ok (d, rows, tr) =>
      exists w', execute_until testdb stmts last w = (w', inr rows) /\
                 steps w w' (logged testdb tr) /\ database_of w' testdb = d
  | Err e =>
      exists w' pre s post d r tr,
        execute_until testdb stmts last w = (w', inl e) /\
        stmts = pre ++ s :: post /\
        exec_seq (foreign_keys w) pre (database_of w testdb) last = Ok (d, r, tr) /\
        exec (foreign_keys w) s d = Err e /\
        steps w w' (logged testdb tr) /\ database_of w' testdb = d
  end.
Proof.
  induction stmts as [|s stmts IH]; intros last w; cbn [exec_seq execute_until].
  - exists w. split; [done|]. split; [apply steps_refl|done].
  - destruct (exec (foreign_keys w) s (database_of w testdb)) as [[db1 rows1]|e] eqn:E.
    + destruct (execute_ok s w db1 rows1 E) as (w1 & H1 & D1 & F1). rewrite H1.
      apply execute_steps in H1 as (db' & E' & S1 & _). rewrite E in E'. injection E' as <-.
      specialize (IH rows1 w1). rewrite F1, D1 in IH.
      destruct (exec_seq (foreign_keys w) stmts db1 rows1) as [[[d r] tr]|e].
      * destruct IH as (w' & H & S & D). exists w'. split; [done|]. split; [|done].
        exact (steps_trans _ _ _ _ _ S1 S).
      * destruct IH as (w' & pre & s' & post & d & r & tr & H & -> & Hp & Hs & S & D).
        exists w', (s :: pre), s', post, d, r, ((s, database_of w testdb, db1) :: tr).
        split; [done|]. split; [done|]. split; [cbn [exec_seq]; by rewrite E, Hp|].
        split; [done|]. split; [|done]. exact (steps_trans _ _ _ _ _ S1 S).
    + exists w, [], s, stmts, (database_of w testdb), last, [].
      unfold execute. rewrite E. split; [done|]. split; [done|]. split; [done|].
      split; [done|]. split; [apply steps_refl|done].
Qed.

(** The magic and the run without errors agree when no statement fails. *)
Lemma sql_cell_ok prints stmts w rows w' :
  sql stmts w = Ok (rows, w') -> sql_cell prints stmts w = Ok (inr rows, w').
Proof.
  unfold sql, sql_cell. destruct (sql_magic w) as [file|]; [|done].
  rewrite execute_all_until. destruct (execute_until _ _ _ _) as [w1 [e|r]]; [done|].
  by intros [= <- <-].
Qed.

Lemma magic_ok prints stmts w w' :
  show (sql stmts) w = Ok (tt, w') -> magic prints stmts w = Ok (tt, w').
Proof.
  intros H. apply show_ok in H as (rows & H). apply (sql_cell_ok prints) in H.
  unfold magic, mbind, nb_bind. by rewrite H.
Qed.

(** A query cell under the connection of cell 5, as the magic runs it. *)
Lemma query_shown prints q w :
  sql_magic w = Some testdb ->
  match eval_query (database_of w testdb) q with
  | Ok res => exists w', sql_cell prints [Query q] w = Ok (inr (snd res), w') /\
                         sql_magic w' = Some testdb /\
                         database_of w' testdb = database_of w testdb
  | Err e => if prints e then sql_cell prints [Query q] w = Ok (inl e, w)
             else sql_cell prints [Query q] w = Err e
  end.
Proof.
  intros Hm. unfold sql_cell. rewrite Hm. cbn [execute_until]. unfold execute. cbn [exec].
  destruct (eval_query _ q) as [res|e]; cbn [rbind].
  - eexists. split; [reflexivity|]. split; [done|]. by rewrite database_of_insert.
  - by destruct (prints e).
Qed.

(** [to_sql] with [if_exists='replace'] sends its statements in order. *)
Lemma to_sql_exec df name w :
  to_sql df name testdb false Replace w =
  match exec_seq (foreign_keys w)
                 (bulk_statements (bool_decide (is_Some (database_of w testdb !! name))) name df)
                 (database_of w testdb) [] with
  | Ok (d, _, tr) =>
      Ok (tt, World (csv_files w) (<[testdb := d]> (db_files w)) (foreign_keys w)
                    (sql_magic w) (journal w ++ logged testdb tr))
  | Err e => Err e
  end.
Proof.
  transitivity ((execute_all testdb
                   (bulk_statements (bool_decide (is_Some (database_of w testdb !! name)))
                                    name df) [] ≫= fun _ => mret tt) w).
  - unfold to_sql, has_table, bulk_statements, mbind, nb_bind, mret, nb_ret.
    destruct (bool_decide _); cbn [app execute_all]; unfold mbind, nb_bind, mret, nb_ret.
    + destruct (execute testdb (DropTable false name) w) as [[r0 w0]|]; [|done].
      destruct (execute testdb (CreateTable name _) w0) as [[r1 w1]|]; [|done].
      destruct (df_rows df) as [|r rows]; cbn [execute_all]; [done|].
      unfold mbind, nb_bind, mret, nb_ret. by destruct (execute testdb _ w1) as [[r2 w2]|].
    + destruct (execute testdb (CreateTable name _) w) as [[r1 w1]|]; [|done].
      destruct (df_rows df) as [|r rows]; cbn [execute_all]; [done|].
      unfold mbind, nb_bind, mret, nb_ret. by destruct (execute testdb _ w1) as [[r2 w2]|].
  - unfold mbind, nb_bind. rewrite execute_all_spec.
    destruct (exec_seq _ _ _ _) as [[[d r] tr]|e]; [|done].
    unfold bulk_statements. by destruct (bool_decide _).
Qed.

Lemma exec_seq_app fk pre post : forall db last,
  exec_seq fk (pre ++ post) db last =
  match exec_seq fk pre db last with
  | Ok (d, r, tr) =>
      match exec_seq fk post d r with
      | Ok (d', r', tr') => Ok (d', r', tr ++ tr')
      | Err e => Err e
      end
  | Err e => Err e
  end.
Proof.
  induction pre as [|s pre IH]; intros db last; cbn [app exec_seq].
  - by destruct (exec_seq fk post db last) as [[[d r] tr]|].
  - destruct (exec fk s db) as [[db1 rows1]|]; [|done]. rewrite IH.
    destruct (exec_seq fk pre db1 rows1) as [[[d r] tr]|]; [|done].
    by destruct (exec_seq fk post d r) as [[[d' r'] tr']|].
Qed.

(** The statements of [to_sql] for one table leave the other tables. *)
Lemma bulk_statements_effect fk found name df (db : database) last d r tr :
  exec_seq fk (bulk_statements found name df) db last = Ok (d, r, tr) ->
  forall t, t <> name -> d !! t = db !! t.
Proof.
  unfold bulk_statements. intros H t Ht.
  assert (forall ss db0 last0 d0 r0 tr0,
    Forall (fun s => match s with
                     | DropTable _ n | CreateTable n _ | InsertInto n _ _ => n = name
                     | Query _ => True
                     end) ss ->
    exec_seq fk ss db0 last0 = Ok (d0, r0, tr0) -> d0 !! t = db0 !! t) as G.
  { induction ss as [|s ss IH]; intros db0 last0 d0 r0 tr0 Hs E; cbn [exec_seq] in E.
    - by injection E as <- _ _.
    - apply Forall_cons in Hs as [Hs Hss].
      destruct (exec fk s db0) as [[db1 rows1]|] eqn:E1; [|done].
      destruct (exec_seq fk ss db1 rows1) as [[[d1 r1] tr1]|] eqn:E2; [|done].
      injection E as <- _ _. rewrite (IH _ _ _ _ _ Hss E2).
      apply exec_effect in E1. destruct s as [ie n|n sch|n cols new|q]; cbn [effect] in E1.
      + destruct E1 as [-> _]. subst n. by rewrite lookup_delete_ne.
      + destruct E1 as (_ & _ & -> & _). subst n. by rewrite lookup_insert_ne.
      + destruct E1 as (tb & _ & _ & _ & ->). subst n. by rewrite lookup_insert_ne.
      + by destruct E1 as (-> & _). }
  eapply G; [|exact H].
  destruct found; cbn [app]; repeat constructor; destruct (df_rows df); repeat constructor.
Qed.

Lemma bulk_statements_last fk found name df db last :
  exec_seq fk (bulk_statements found name df) db last =
  exec_seq fk (bulk_statements found name df) db [].
Proof. unfold bulk_statements. by destruct found. Qed.

Lemma bulk_statements_found fk found name df (db : database) last d r tr t :
  exec_seq fk (bulk_statements found name df) db last = Ok (d, r, tr) -> t <> name ->
  bool_decide (is_Some (d !! t)) = bool_decide (is_Some (db !! t)).
Proof. intros H Ht. by rewrite (bulk_statements_effect _ _ _ _ _ _ _ _ _ H t Ht). Qed.

Lemma database_of_world csv (m : gmap string database) fk mg j file db :
  database_of (World csv (<[file := db]> m) fk mg j) file = db.
Proof. unfold database_of. cbn [db_files]. by rewrite lookup_insert_eq. Qed.

(** Cell 16 raises what [read_csv] or the engine raises, and nothing
    else. *)
Lemma cell_16_outcome w :
  match cell_16_raises w with
  | Some e => cell_16 w = Err e
  | None => exists w', cell_16 w = Ok (tt, w')
  end.
Proof.
  unfold cell_16_raises, first_missing, csv_paths. cbn [find].
  unfold cell_16, mbind, nb_bind, sqlite3_connect, read_csv. cbn [csv_files].
  case_bool_decide as H1; [by rewrite H1|].
  destruct (csv_files w !! "data/customers.csv") as [c|]; [|done]. cbn [csv_files].
  case_bool_decide as H2; [by rewrite H2|].
  destruct (csv_files w !! "data/products.csv") as [p|]; [|done]. cbn [csv_files].
  case_bool_decide as H3; [by rewrite H3|].
  destruct (csv_files w !! "data/orders.csv") as [o|]; [|done].
  change "testdb.sqlite" with testdb. unfold bulk_load.
  rewrite to_sql_exec. cbn [foreign_keys csv_files db_files sql_magic journal].
  rewrite database_of_world. set (db := database_of w testdb). rewrite exec_seq_app.
  destruct (exec_seq (foreign_keys w) (bulk_statements _ "customers" c) db [])
    as [[[d1 r1] tr1]|e1] eqn:E1; [|done].
  rewrite to_sql_exec. cbn [foreign_keys csv_files db_files sql_magic journal].
  rewrite database_of_world, exec_seq_app.
  rewrite (bulk_statements_found _ _ _ _ _ _ _ _ _ "products" E1) by done.
  rewrite (bulk_statements_last _ _ _ _ d1 r1).
  destruct (exec_seq (foreign_keys w) (bulk_statements _ "products" p) d1 [])
    as [[[d2 r2] tr2]|e2] eqn:E2; [|done].
  rewrite to_sql_exec. cbn [foreign_keys csv_files db_files sql_magic journal].
  rewrite database_of_world.
  rewrite (bulk_statements_found _ _ _ _ _ _ _ _ _ "orders" E2) by done.
  rewrite (bulk_statements_found _ _ _ _ _ _ _ _ _ "orders" E1) by done.
  rewrite (bulk_statements_last _ _ _ _ d2 r2).
  destruct (exec_seq (foreign_keys w) (bulk_statements _ "orders" o) d2 [])
    as [[[d3 r3] tr3]|e3] eqn:E3; [eauto|done].
Qed.

Lemma cell_16_raised w e : cell_16 w = Err e <-> cell_16_raises w = Some e.
Proof.
  pose proof (cell_16_outcome w) as H.
  destruct (cell_16_raises w) as [e'|].
  - rewrite H. split; intros [= <-]; done.
  - destruct H as [w' ->]. done.
Qed.

(** C8, as amended: the notebook has no handler of its own, and what
    becomes of an error depends on who runs the statement.  In the Python
    cell 16 every error of [read_csv] (a missing file) or of the engine
    (the first statement of the bulk load that fails) is raised unchanged.
    In a [%%sql] cell the statements run in order up to the first that
    fails; the magic, which is not part of the repository, prints the
    errors it catches (in every version the engine's operational errors:
    no such table or column, integer overflow and the like): the cell
    then ends without raising, the statements before the failing one keep
    their effect and the run goes on; an error it does not catch (in the
    version of the notebook's time a violated constraint) is raised
    unchanged.  The run of the notebook raises exactly what its first
    raising cell raises. *)
Theorem errors_raised_or_printed prints w :
  sql_magic w = Some testdb ->
  (forall stmts,
     match exec_seq (foreign_keys w) stmts (database_of w testdb) [] with
     | Ok (d, rows, tr) =>
         exists w', sql_cell prints stmts w = Ok (inr rows, w') /\
                    database_of w' testdb = d
     | Err e =>
         exists pre s post d r tr,
           stmts = pre ++ s :: post /\
           exec_seq (foreign_keys w) pre (database_of w testdb) [] = Ok (d, r, tr) /\
           exec (foreign_keys w) s d = Err e /\
           if prints e
           then exists w', sql_cell prints stmts w = Ok (inl e, w') /\
                           database_of w' testdb = d
           else sql_cell prints stmts w = Err e
     end) /\
  (forall e, cell_16 w = Err e <-> cell_16_raises w = Some e) /\
  (forall e, run_all prints w = Err e <->
             exists pre c post w1,
               run_all_cells prints = pre ++ c :: post /\
               run_cells pre w = Ok (tt, w1) /\ c w1 = Err e).
Proof.
  intros Hm. split; [|split].
  - intros stmts. pose proof (execute_until_spec stmts [] w) as H.
    unfold sql_cell. rewrite Hm.
    destruct (exec_seq _ stmts _ _) as [[[d rows] tr]|e].
    + destruct H as (w' & -> & _ & D). eauto.
    + destruct H as (w' & pre & s & post & d & r & tr & -> & E & Hp & Hs & _ & D).
      exists pre, s, post, d, r, tr. do 3 (split; [done|]).
      destruct (prints e); eauto.
  - apply cell_16_raised.
  - intros e. apply run_cells_error.
Qed.

(** The claim C8 fails in the [%%sql] cells, whichever version of the
    magic runs them: on a database file without tables the engine raises
    "no such table" for the query of cell 8, and the cell ends without
    raising; and on prices whose sum overflows the engine raises "integer
    overflow" in cell 34, and the run of the notebook goes on to its
    end. *)
Lemma printed_errors_do_not_propagate :
  exec false (Query all_customers) (database_of blank_world testdb) =
    Err (NoSuchTable "customers") /\
  sql_cell operational [Query all_customers] blank_world =
    Ok (inl (NoSuchTable "customers"), blank_world) /\
  sql_cell any_database_error [Query all_customers] blank_world =
    Ok (inl (NoSuchTable "customers"), blank_world) /\
  notebook dear_world = Err IntegerOverflow /\
  is_ok (run_all operational dear_world) = true /\
  is_ok (run_all any_database_error dear_world) = true.
Proof. repeat split; vm_compute; reflexivity. Qed.

(** X25: the notebook runs only with foreign keys not enforced.  With
    them enforced, if the cells before the bulk load succeed and the three
    CSV files are there, cell 16 fails with a foreign-key violation when
    it drops customers, whose rows the sample orders still name, and the
    run of the notebook stops with that error. *)
Theorem notebook_needs_foreign_keys_off w w2 customers products orders :
  foreign_keys w = true ->
  run_cells (setup_cells ++ sample_cells) w = Ok (tt, w2) ->
  csv_files w !! "data/customers.csv" = Some customers ->
  csv_files w !! "data/products.csv" = Some products ->
  csv_files w !! "data/orders.csv" = Some orders ->
  cell_16 w2 = Err ForeignKeyFailed /\ notebook w = Err ForeignKeyFailed.
Proof.
  intros Hfk H C1 C2 C3.
  assert (cell_16 w2 = Err ForeignKeyFailed) as E.
  { pose proof H as H'.
    apply run_cells_app in H' as (w1 & H1 & H2).
    pose proof (setup_magic _ _ H1) as Hm1.
    apply setup_run in H1 as (w5 & tr6 & d6 & tr10 & -> & S1 & _ & _ & _ & V10 & _).
    change sample_cells with (map (fun q => show (sql [Query q])) sample_queries) in H2.
    apply queries_run in H2 as (S2 & D2 & _); [|done].
    assert (foreign_keys w2 = true) as F2
      by by rewrite (steps_setting _ _ _ S2), (steps_setting _ _ _ S1).
    assert (csv_files w2 = csv_files w) as Cs
      by by rewrite (steps_files _ _ _ S2), (steps_files _ _ _ S1).
    assert (view (database_of w2 testdb) = sample_view) as V by by rewrite D2.
    apply cell_16_raised. unfold cell_16_raises, first_missing, csv_paths. cbn [find].
    rewrite Cs, C1, C2, C3, F2. cbn [bool_decide decide_rel find].
    repeat (case_bool_decide; [done|]).
    pose proof (view_lookups _ _ _ _ V) as (Lc & _ & _).
    unfold bulk_load. rewrite Lc.
    rewrite bool_decide_eq_true_2 by eauto.
    unfold bulk_statements at 1. cbn [app exec_seq].
    by rewrite (sample_blocks_drop _ V). }
  split; [exact E|].
  unfold notebook, notebook_cells. rewrite app_assoc.
  rewrite (run_cells_after _ _ _ _ H). cbn [app run_cells]. unfold mbind, nb_bind.
  by rewrite E.
Qed.

(** ** The run of the notebook with the magic as it is *)

Lemma run_cells_each (cells cells' : list (nb unit)) :
  Forall2 (fun c c' => forall w w', c w = Ok (tt, w') -> c' w = Ok (tt, w')) cells cells' ->
  forall w w', run_cells cells w = Ok (tt, w') -> run_cells cells' w = Ok (tt, w').
Proof.
  induction 1 as [|c c' cells cells' Hc _ IH]; intros w w' H; [done|].
  apply run_cells_cons in H as (w1 & H1 & H). cbn [run_cells]. unfold mbind, nb_bind.
  rewrite (Hc _ _ H1). by apply IH.
Qed.

Lemma magic_queries prints qs :
  Forall2 (fun c c' : nb unit => forall w w', c w = Ok (tt, w') -> c' w = Ok (tt, w'))
          (map (fun q => show (sql [Query q])) qs)
          (map (fun q => magic prints [Query q]) qs).
Proof. induction qs as [|q qs IH]; constructor; [apply magic_ok|done]. Qed.

(** A run of the notebook in which no statement fails is a run of the
    notebook as the magic runs it, whatever errors the magic catches. *)
Lemma run_without_errors prints w w' :
  notebook w = Ok (tt, w') -> run_all prints w = Ok (tt, w').
Proof.
  apply run_cells_each. unfold notebook_cells, run_all_cells.
  apply Forall2_app; [|apply Forall2_app; [apply (magic_queries prints sample_queries)|]].
  - unfold setup_cells. repeat constructor; try done; apply magic_ok.
  - apply Forall2_app; [by repeat constructor|apply (magic_queries prints later_queries)].
Qed.

Lemma load_without_errors prints w w' :
  run_cells (setup_cells ++ sample_cells ++ [cell_16]) w = Ok (tt, w') ->
  run_cells ([cell_0; cell_5; magic prints cell_6_statements;
              magic prints [Query all_customers]; magic prints cell_10_statements] ++
             map (fun q => magic prints [Query q]) sample_queries ++ [cell_16]) w =
    Ok (tt, w').
Proof.
  apply run_cells_each.
  apply Forall2_app;
    [|apply Forall2_app;
       [apply (magic_queries prints sample_queries)|by repeat constructor]].
  unfold setup_cells. repeat constructor; try done; apply magic_ok.
Qed.

(** Query cells whose queries answer or overflow all end without
    raising. *)
Lemma query_cells_complete prints qs : forall w,
  prints IntegerOverflow = true ->
  sql_magic w = Some testdb ->
  Forall (fun q => answers (eval_query (database_of w testdb) q)) qs ->
  exists w', run_cells (map (fun q => magic prints [Query q]) qs) w = Ok (tt, w') /\
             database_of w' testdb = database_of w testdb.
Proof.
  induction qs as [|q qs IH]; intros w Hp Hm Hq; cbn [map run_cells].
  - exists w. done.
  - apply Forall_cons in Hq as [Hq Hqs]. pose proof (query_shown prints q w Hm) as H.
    unfold mbind, nb_bind.
    change (magic prints [Query q] w)
      with ((sql_cell prints [Query q] ≫= fun _ => mret tt) w).
    unfold mbind, nb_bind.
    destruct Hq as [[res E] | E]; rewrite E in H.
    + destruct H as (w1 & -> & Hm1 & D1). cbn [mret nb_ret].
      destruct (IH w1 Hp Hm1) as (w' & H' & D'); [by rewrite D1|].
      exists w'. split; [exact H'|]. by rewrite D', D1.
    + rewrite Hp in H. rewrite H. cbn [mret nb_ret]. by apply IH.
Qed.

(** X27: the whole notebook from its CSV files, run as the magic runs
    it, in any version that prints an integer overflow.  With foreign keys
    not enforced, on a database file of tables none of which is named
    customers, products or orders in another case, and with the three
    files there, each as pandas reads it, with the header the queries
    expect and rows as wide as the header, no cell raises, whatever the
    rows hold: an overflowing SUM is printed and does not stop the run.
    At the end the three tables hold the frames. *)
Theorem run_all_completes prints w customers products orders :
  prints IntegerOverflow = true ->
  foreign_keys w = false ->
  plainly_named (database_of w testdb) = true ->
  csv_files w !! "data/customers.csv" = Some customers ->
  csv_files w !! "data/products.csv" = Some products ->
  csv_files w !! "data/orders.csv" = Some orders ->
  loadable customers = true -> loadable products = true -> loadable orders = true ->
  typed customers = true -> typed products = true -> typed orders = true ->
  map fst (df_columns customers) = ["id"; "name"; "billing_country"] ->
  map fst (df_columns products) = ["id"; "price"] ->
  map fst (df_columns orders) = ["id"; "customer_id"; "product_id"; "delivery_country"] ->
  exists w',
    run_all prints w = Ok (tt, w') /\
    view (database_of w' testdb) =
      (Some (frame_table customers), Some (frame_table products), Some (frame_table orders)).
Proof.
  intros Hpr Hfk _ C1 C2 C3 L1 L2 L3 _ _ _ Hc Hp Ho.
  destruct (loaded w _ _ _ Hfk C1 C2 C3 L1 L2 L3) as (w3 & H & Hm & V).
  pose proof (frames_expected _ _ _ _ V Hc Hp Ho) as E.
  apply (load_without_errors prints) in H.
  destruct (query_cells_complete prints later_queries w3 Hpr Hm) as (w' & R & D).
  { rewrite later_queries_split. apply Forall_app. split.
    - eapply Forall_impl; [apply (plain_queries_succeed _ E)|]. intros q [res Hq]. left. eauto.
    - by apply sum_queries_answer. }
  exists w'. split; [|by rewrite D].
  unfold run_all, run_all_cells. rewrite !app_assoc, <- (app_assoc _ _ [cell_16]).
  by rewrite (run_cells_after _ _ _ _ H).
Qed.

(** ** The cells at work on the example tables *)

Lemma example_orders_table : example_db !! "orders" = Some (frame_table example_orders).
Proof. vm_compute. reflexivity. Defined.

Lemma example_products_table : example_db !! "products" = Some (frame_table example_products).
Proof. vm_compute. reflexivity. Defined.

Lemma example_customers_table :
  example_db !! "customers" = Some (frame_table example_customers).
Proof. vm_compute. reflexivity. Defined.

Lemma loaded_plainly_named : plainly_named (database_of loaded_world testdb) = true.
Proof. vm_compute. reflexivity. Defined.


Lemma tables_are_reset_witness :
  exists w', cell_6 loaded_world = Ok ([], w') /\
             view (database_of w' testdb) =
               (Some (Table customers_schema []), Some (Table products_schema []),
                Some (Table orders_schema [])).
Proof.
  destruct (tables_are_reset loaded_world eq_refl eq_refl loaded_plainly_named)
    as (w' & H & V & _).
  exists w'. split; assumption.
Defined.

Lemma sample_rows_go_in_once_witness :
  run_cells setup_cells example_world =
    Ok (tt, world_after (run_cells setup_cells) example_world) /\
  cell_10 (world_after (run_cells setup_cells) example_world) =
    Err (UniqueFailed "customers" "id").
Proof.
  split; [exact setup_example|].
  exact (sample_rows_go_in_once _ _ setup_example).
Defined.

Lemma tables_must_exist_witness :
  view (database_of blank_world testdb) = (None, None, None) /\
  cell_10 blank_world = Err (NoSuchTable "customers").
Proof.
  split; [reflexivity|].
  exact (proj2 (tables_must_exist blank_world eq_refl eq_refl)).
Defined.


Lemma bulk_load_twice_witness :
  cell_16 example_world = Ok (tt, world_after cell_16 example_world) /\
  exists w2,
    cell_16 (world_after cell_16 example_world) = Ok (tt, w2) /\
    database_of w2 testdb = database_of (world_after cell_16 example_world) testdb.
Proof.
  assert (H : cell_16 example_world = Ok (tt, world_after cell_16 example_world))
    by (apply world_after_ok; vm_compute; reflexivity).
  split; [exact H|]. exact (bulk_load_twice example_world _ eq_refl H).
Defined.

Lemma bulk_load_needs_files_witness :
  first_missing bare_world = Some "data/customers.csv" /\
  cell_16 bare_world = Err (FileNotFound "data/customers.csv").
Proof.
  split; [reflexivity|]. exact (bulk_load_needs_files bare_world _ eq_refl).
Defined.

Lemma limit_is_kept_witness :
  exists rows w',
    sql [Query orders_by_customer] loaded_world = Ok (rows, w') /\ (length rows <= 10)%nat.
Proof.
  destruct (sql [Query orders_by_customer] loaded_world) as [[rows w']|e] eqn:E;
    [|vm_compute in E; discriminate].
  exists rows, w'. split; [reflexivity|].
  apply (limit_is_kept loaded_world orders_by_customer rows w'); [|exact E].
  unfold limited_queries. cbn [In]. tauto.
Defined.

Lemma example_customer_ids : numeric (frame_table example_orders) "customer_id".
Proof. vm_compute. reflexivity. Defined.

Lemma example_prices : numeric (frame_table example_products) "price".
Proof. vm_compute. reflexivity. Defined.

Lemma orders_of_the_three_customers_witness :
  exists names rows,
    eval_query example_db orders_of_three = Ok (names, rows) /\
    names = ["id"; "customer_id"; "product_id"; "delivery_country"].
Proof.
  destruct (eval_query example_db orders_of_three) as [[names rows]|e] eqn:E;
    [|vm_compute in E; discriminate].
  exists names, rows. split; [reflexivity|].
  exact (proj1 (orders_of_the_three_customers example_db _ names rows
                  example_orders_table example_customer_ids E)).
Defined.

Lemma orders_of_the_three_elsewhere_witness :
  exists names rows rows3,
    eval_query example_db orders_of_three_elsewhere = Ok (names, rows) /\
    eval_query example_db orders_of_three = Ok (names, rows3).
Proof.
  destruct (eval_query example_db orders_of_three_elsewhere) as [[names rows]|e] eqn:E;
    [|vm_compute in E; discriminate].
  destruct (orders_of_the_three_elsewhere example_db _ names rows
              example_orders_table example_customer_ids E) as (rows3 & H & _).
  exists names, rows, rows3. split; [reflexivity|exact H].
Defined.

Lemma products_over_twenty_witness :
  exists names rows,
    eval_query example_db products_over_20 = Ok (names, rows) /\
    names = ["id"; "price"].
Proof.
  destruct (eval_query example_db products_over_20) as [[names rows]|e] eqn:E;
    [|vm_compute in E; discriminate].
  exists names, rows. split; [reflexivity|].
  exact (proj1 (products_over_twenty example_db _ names rows
                  example_products_table example_prices E)).
Defined.

Lemma products_cheap_or_dear_witness :
  exists names rows,
    eval_query example_db cheap_or_dear = Ok (names, rows) /\
    names = ["id"; "price"].
Proof.
  destruct (eval_query example_db cheap_or_dear) as [[names rows]|e] eqn:E;
    [|vm_compute in E; discriminate].
  exists names, rows. split; [reflexivity|].
  exact (proj1 (products_cheap_or_dear example_db _ names rows
                  example_products_table example_prices E)).
Defined.

Lemma orders_delivered_to_india_witness :
  exists names rows,
    eval_query example_db orders_to_india = Ok (names, rows) /\
    names = ["id"; "delivery_country"].
Proof.
  destruct (eval_query example_db orders_to_india) as [[names rows]|e] eqn:E;
    [|vm_compute in E; discriminate].
  exists names, rows. split; [reflexivity|].
  exact (proj1 (orders_delivered_to_india example_db _ names rows example_orders_table E)).
Defined.

Lemma orders_delivered_to_s_witness :
  exists names rows,
    eval_query example_db orders_to_s = Ok (names, rows) /\
    names = ["id"; "delivery_country"].
Proof.
  destruct (eval_query example_db orders_to_s) as [[names rows]|e] eqn:E;
    [|vm_compute in E; discriminate].
  exists names, rows. split; [reflexivity|].
  exact (proj1 (orders_delivered_to_s example_db _ names rows example_orders_table E)).
Defined.

Lemma orders_sorted_by_customer_witness :
  exists names rows,
    eval_query example_db orders_by_customer = Ok (names, rows) /\
    names = ["id"; "customer_id"; "product_id"; "delivery_country"].
Proof.
  destruct (eval_query example_db orders_by_customer) as [[names rows]|e] eqn:E;
    [|vm_compute in E; discriminate].
  exists names, rows. split; [reflexivity|].
  exact (proj1 (orders_sorted_by_customer example_db _ names rows example_orders_table E)).
Defined.

Lemma orders_sorted_by_customer_and_product_witness :
  exists names rows,
    eval_query example_db orders_by_customer_product = Ok (names, rows) /\
    names = ["id"; "customer_id"; "product_id"; "delivery_country"].
Proof.
  destruct (eval_query example_db orders_by_customer_product) as [[names rows]|e] eqn:E;
    [|vm_compute in E; discriminate].
  exists names, rows. split; [reflexivity|].
  exact (proj1 (orders_sorted_by_customer_and_product example_db _ names rows
                  example_orders_table E)).
Defined.

Lemma average_and_highest_price_witness :
  exists names rows average highest,
    eval_query example_db price_stats = Ok (names, rows) /\
    rows = [[average; highest]].
Proof.
  destruct (eval_query example_db price_stats) as [[names rows]|e] eqn:E;
    [|vm_compute in E; discriminate].
  destruct (average_and_highest_price example_db _ names rows
              example_products_table example_prices E) as (a & m & H & _).
  exists names, rows, a, m. split; [reflexivity|exact H].
Defined.

Lemma orders_counted_by_country_witness :
  exists names rows groups,
    eval_query example_db orders_per_country = Ok (names, rows) /\
    Permutation (concat groups) (tbl_rows (frame_table example_orders)).
Proof.
  destruct (eval_query example_db orders_per_country) as [[names rows]|e] eqn:E;
    [|vm_compute in E; discriminate].
  destruct (orders_counted_by_country example_db _ names rows example_orders_table E)
    as (groups & P & _).
  exists names, rows, groups. split; [reflexivity|exact P].
Defined.

Lemma total_of_ordered_prices_witness :
  exists names, eval_query whole_db sum_price_join = Ok (names, [[VInt 115]]).
Proof.
  destruct (eval_query whole_db sum_price_join) as [[names rows]|e] eqn:E;
    [|vm_compute in E; discriminate].
  destruct (total_of_ordered_prices whole_db (frame_table example_orders)
              (frame_table whole_products) names rows) as (v & -> & _ & H).
  - vm_compute. reflexivity.
  - vm_compute. reflexivity.
  - unfold well_formed. repeat constructor.
  - vm_compute. reflexivity.
  - vm_compute. reflexivity.
  - vm_compute. reflexivity.
  - exact E.
  - exists names. rewrite H; [reflexivity|vm_compute; discriminate|repeat constructor].
Defined.

Lemma totals_in_ascending_order_witness :
  exists names rows,
    eval_query example_db total_per_customer = Ok (names, rows) /\
    names = ["name"; "total"].
Proof.
  destruct (eval_query example_db total_per_customer) as [[names rows]|e] eqn:E;
    [|vm_compute in E; discriminate].
  exists names, rows. split; [reflexivity|].
  exact (proj1 (totals_in_ascending_order example_db names rows E)).
Defined.

Lemma spending_in_descending_order_witness :
  exists names rows,
    eval_query example_db spent_abroad = Ok (names, rows) /\
    names = ["bill"; "spent"].
Proof.
  destruct (eval_query example_db spent_abroad) as [[names rows]|e] eqn:E;
    [|vm_compute in E; discriminate].
  exists names, rows. split; [reflexivity|].
  exact (proj1 (spending_in_descending_order example_db names rows E)).
Defined.

Lemma shipped_goes_abroad_witness :
  exists names rows,
    eval_query example_db shipped = Ok (names, rows) /\
    Forall (fun r => exists bill deliver amount,
              r = [bill; deliver; amount] /\
              is_null bill = false /\ is_null deliver = false /\
              value_compare bill deliver <> Eq) rows.
Proof.
  destruct (eval_query example_db shipped) as [[names rows]|e] eqn:E;
    [|vm_compute in E; discriminate].
  exists names, rows. split; [reflexivity|].
  apply (shipped_goes_abroad example_db _ _ _ names rows
           example_orders_table example_customers_table example_products_table);
    [|exact E].
  repeat constructor.
Defined.

Lemma whole_table_is_shown_witness :
  eval_query example_db all_products =
  Ok (["id"; "price"], [[VInt 1; VReal 5.5]; [VInt 2; VReal 25]; [VInt 3; VReal 40.25]]).
Proof.
  apply (whole_table_is_shown example_db "products" all_products
           (frame_table example_products)); [|exact example_products_table].
  unfold whole_table_queries. cbn [In]. tauto.
Defined.

Lemma customers_start_empty_witness :
  run_cells [cell_0; cell_5; show cell_6] example_world =
    Ok (tt, world_after (run_cells [cell_0; cell_5; show cell_6]) example_world) /\
  exists w2,
    cell_8 (world_after (run_cells [cell_0; cell_5; show cell_6]) example_world) = Ok ([], w2).
Proof.
  assert (H : run_cells [cell_0; cell_5; show cell_6] example_world =
              Ok (tt, world_after (run_cells [cell_0; cell_5; show cell_6]) example_world))
    by (apply world_after_ok; vm_compute; reflexivity).
  split; [exact H|].
  destruct (customers_start_empty _ _ H) as (w2 & H2 & _). by exists w2.
Defined.

Lemma sample_is_restored_witness :
  exists w1,
    run_cells setup_cells (world_after notebook example_world) = Ok (tt, w1) /\
    view (database_of w1 testdb) =
      (Some sample_customers, Some sample_products, Some sample_orders).
Proof.
  apply (sample_is_restored (world_after notebook example_world));
    vm_compute; reflexivity.
Defined.

Lemma example_expected : expected_columns example_db.
Proof.
  exists (frame_table example_customers), (frame_table example_products),
         (frame_table example_orders).
  repeat split; vm_compute; reflexivity.
Defined.

Lemma example_float_priced : float_priced example_db.
Proof.
  exists (frame_table example_customers), (frame_table example_products),
         (frame_table example_orders).
  do 6 (split; [vm_compute; reflexivity|]).
  do 3 (split; [unfold well_formed; repeat constructor|]).
  repeat constructor.
Defined.

Lemma queries_fail_only_on_overflow_witness :
  Forall (fun q => exists res, eval_query example_db q = Ok res) queries_without_sum /\
  Forall (fun q => answers (eval_query example_db q)) queries_with_sum.
Proof. exact (queries_fail_only_on_overflow example_db example_expected). Defined.

Lemma run_all_completes_witness :
  foreign_keys dear_world = false /\
  notebook dear_world = Err IntegerOverflow /\
  exists w', run_all operational dear_world = Ok (tt, w').
Proof.
  split; [reflexivity|]. split; [vm_compute; reflexivity|].
  destruct (run_all_completes operational dear_world example_customers dear_products
              example_orders)
    as (w' & H & _); try (vm_compute; reflexivity).
  exists w'. exact H.
Defined.

Lemma queries_answer_on_float_prices_witness :
  Forall (fun q => exists res, eval_query example_db q = Ok res) later_queries.
Proof. exact (queries_answer_on_float_prices example_db example_float_priced). Defined.

Lemma notebook_completes_witness :
  foreign_keys example_world = false /\ exists w', notebook example_world = Ok (tt, w').
Proof.
  split; [reflexivity|].
  apply (notebook_completes example_world example_customers example_products example_orders);
    try (vm_compute; reflexivity).
  split; [vm_compute; tauto|repeat constructor].
Defined.

Lemma errors_raised_or_printed_witness :
  sql_magic blank_world = Some testdb /\
  (exists w', sql_cell operational [Query all_customers] blank_world =
              Ok (inl (NoSuchTable "customers"), w')) /\
  sql_cell operational cell_10_statements
           (world_after (run_cells setup_cells) example_world) =
    Err (UniqueFailed "customers" "id").
Proof.
  split; [reflexivity|].
  split.
  - destruct (proj1 (errors_raised_or_printed operational blank_world eq_refl)
                    [Query all_customers])
      as (pre & s & post & d & r & tr & _ & _ & _ & w' & H & _).
    exists w'. exact H.
  - vm_compute. reflexivity.
Defined.

Lemma notebook_needs_foreign_keys_off_witness :
  foreign_keys (World (csv_files example_world) ∅ true None []) = true /\
  notebook (World (csv_files example_world) ∅ true None []) = Err ForeignKeyFailed.
Proof.
  split; [reflexivity|].
  set (w := World (csv_files example_world) ∅ true None []).
  assert (is_ok (run_cells (setup_cells ++ sample_cells) w) = true) as H
    by (vm_compute; reflexivity).
  apply world_after_ok in H.
  exact (proj2 (notebook_needs_foreign_keys_off w _ example_customers example_products
                  example_orders eq_refl H eq_refl eq_refl eq_refl)).
Defined.
